(** * Stream overlay server: the state-coordination core of [server.py]

    A shallow embedding of the cooldown gates, the goal tracker, the subtitle
    store, the clip-spam detector and the OBS control facade, with the
    properties that the design document states about them.

    Conventions of the embedding.
    - A Python [str] is a list of Unicode code points ([pystr]).
    - A reading of [time.time()] is a rational number of seconds and is passed
      to the function that reads the clock.
    - A function that takes locks, raises or emits runs in the monad [M]: it
      maps the module-level state to an outcome (returned, raised, or blocked
      for ever on a lock) together with the events it sent, in order.
    - [socketio.emit] and [log_event] are recorded as events; [log.info] and
      the other logger calls have no effect on the state and are left out. *)

From Stdlib Require Import ZArith QArith Lqa List String Ascii Lia.
From stdpp Require Import base option list gmap.
Import ListNotations.

Set Default Proof Using "Type".

(** ** Outcomes of a call: state threading, exceptions, locks and events *)

Module Eff.

Inductive exn := TypeError | ValueError | OverflowError.

Section Monad.
Context {E S : Type}.

(** What one call does to the shared state [S], sending events of type [E].
    [Blocked] is a thread that waits for ever on a [threading.Lock] that is
    never released. *)
Inductive outcome (A : Type) :=
| Returned (a : A) (s : S) (out : list E)
| Raised (e : exn) (s : S) (out : list E)
| Blocked (s : S) (out : list E).

Definition M (A : Type) := S -> outcome A.

Definition ret {A} (a : A) : M A := fun s => Returned A a s [].

Definition bind {A B} (m : M A) (k : A -> M B) : M B := fun s =>
  match m s with
  | Returned _ a s1 o1 =>
      match k a s1 with
      | Returned _ b s2 o2 => Returned B b s2 (o1 ++ o2)
      | Raised _ e s2 o2 => Raised B e s2 (o1 ++ o2)
      | Blocked _ s2 o2 => Blocked B s2 (o1 ++ o2)
      end
  | Raised _ e s1 o1 => Raised B e s1 o1
  | Blocked _ s1 o1 => Blocked B s1 o1
  end.

Definition get : M S := fun s => Returned S s s [].
Definition modify (f : S -> S) : M unit := fun s => Returned unit tt (f s) [].
Definition emit (e : E) : M unit := fun s => Returned unit tt s [e].
Definition raise {A} (e : exn) : M A := fun s => Raised A e s [].

(** A [threading.Lock] stored in the state: not reentrant, so acquiring a
    held lock blocks, also for the thread that holds it. *)
Record lock := { held : S -> bool; set_held : bool -> S -> S }.

Definition acquire (l : lock) : M unit := fun s =>
  if held l s then Blocked unit s [] else Returned unit tt (set_held l true s) [].

(** [with l: body]: the lock is released when the body returns or raises. *)
Definition with_lock {A} (l : lock) (body : M A) : M A := fun s =>
  match acquire l s with
  | Returned _ _ s1 o1 =>
      match body s1 with
      | Returned _ a s2 o2 => Returned A a (set_held l false s2) (o1 ++ o2)
      | Raised _ e s2 o2 => Raised A e (set_held l false s2) (o1 ++ o2)
      | Blocked _ s2 o2 => Blocked A s2 (o1 ++ o2)
      end
  | Raised _ e s1 o1 => Raised A e s1 o1
  | Blocked _ s1 o1 => Blocked A s1 o1
  end.

End Monad.

Arguments outcome : clear implicits.
Arguments M : clear implicits.
Arguments lock : clear implicits.
Arguments Returned {E S A} a s out.
Arguments Raised {E S A} e s out.
Arguments Blocked {E S A} s out.

Declare Scope eff_scope.
Delimit Scope eff_scope with eff.
Notation "x <- m ;; k" := (bind m (fun x => k))
  (at level 100, m at next level, right associativity) : eff_scope.
Notation "m ;;; k" := (bind m (fun _ => k))
  (at level 100, right associativity) : eff_scope.

End Eff.

Export Eff.
Local Open Scope eff_scope.

(** ** Python strings and values *)

Module Py.

Abbreviation pystr := (list N) (only parsing).

(** An ASCII literal of the source, as code points. *)
Fixpoint py (s : string) : pystr :=
  match s with
  | EmptyString => []
  | String c s' => N_of_ascii c :: py s'
  end.

(** [s.startswith(w)]. *)
Fixpoint startswith (w s : pystr) : bool :=
  match w, s with
  | [], _ => true
  | _ :: _, [] => false
  | a :: w', b :: s' => (a =? b)%N && startswith w' s'
  end.

(** [w in s]: [w] occurs in [s] as a contiguous run of code points. *)
Fixpoint contains (w s : pystr) : bool :=
  startswith w s ||
  match s with
  | [] => false
  | _ :: s' => contains w s'
  end.

(** [deque.append(x)] on a [deque(maxlen=maxlen)]: the oldest entries make
    room. *)
Definition deque_append {A} (maxlen : nat) (x : A) (d : list A) : list A :=
  drop (length (d ++ [x]) - maxlen) (d ++ [x]).

(** [ch.isspace()], which is also what [split()] and [strip()] without
    argument take for white space: the code points that CPython's
    [_PyUnicode_IsWhitespace] accepts. *)
Definition isspace (c : N) : bool :=
  ((0x09 <=? c) && (c <=? 0x0D) || (0x1C <=? c) && (c <=? 0x20) ||
   (c =? 0x85) || (c =? 0xA0) || (c =? 0x1680) ||
   (0x2000 <=? c) && (c <=? 0x200A) ||
   (c =? 0x2028) || (c =? 0x2029) || (c =? 0x202F) || (c =? 0x205F) ||
   (c =? 0x3000))%N.

Fixpoint lstrip (s : pystr) : pystr :=
  match s with
  | [] => []
  | c :: s' => if isspace c then lstrip s' else s
  end.

(** [s.rstrip()], from the last code point backwards. *)
Fixpoint rstrip (s : pystr) : pystr :=
  match s with
  | [] => []
  | c :: s' =>
      match rstrip s' with
      | [] => if isspace c then [] else [c]
      | r => c :: r
      end
  end.

Definition strip (s : pystr) : pystr := rstrip (lstrip s).

(** [s.split()]: the maximal runs of code points that are not white space.
    [word] is the run being read. *)
Fixpoint split_from (word s : pystr) : list pystr :=
  match s with
  | [] => match word with [] => [] | _ => [word] end
  | c :: s' =>
      if isspace c
      then match word with [] => split_from [] s' | _ => word :: split_from [] s' end
      else split_from (word ++ [c]) s'
  end.

Definition split (s : pystr) : list pystr := split_from [] s.

(** [sep.join(words)]. *)
Fixpoint join (sep : pystr) (words : list pystr) : pystr :=
  match words with
  | [] => []
  | [w] => w
  | w :: ws => w ++ sep ++ join sep ws
  end.

(** [s.lower()] on ASCII letters; the source lowers only strings that have
    matched [HEX_COLOR_RE], which are ASCII. *)
Definition lower (s : pystr) : pystr :=
  map (fun c => if ((0x41 <=? c) && (c <=? 0x5A))%N then (c + 0x20)%N else c) s.

(** *** Values *)

(** A [float]: not-a-number, an infinity, or a finite value, taken as the
    rational it stands for. *)
Inductive pyfloat :=
| FNan
| FInf (negative : bool)
| FFin (q : Q).

(** The values that reach the server from JSON bodies and from [config]. *)
#[warnings="-register-all"]
Inductive pyval :=
| VNone
| VBool (b : bool)
| VInt (z : Z)
| VFloat (f : pyfloat)
| VStr (s : pystr)
| VList (items : list pyval)
| VDict (items : list (pystr * pyval)).

Inductive res (A : Type) :=
| Ok (a : A)
| Err (e : Eff.exn).

Arguments Ok {A} a.
Arguments Err {A} e.

(** What the embedding takes from CPython as given: how [int] and [float]
    read a string, how [str] prints a value that is not a string, and which
    code points are alphanumeric. The properties below hold for every
    choice. *)
Class Builtins := {
  int_of_str : pystr -> option Z;
  float_of_str : pystr -> option pyfloat;
  repr : pyval -> pystr;
  isalnum : N -> bool
}.

Section WithBuiltins.
Context {B : Builtins}.

(** [int(v)]: a float is truncated towards zero. *)
Definition py_int (v : pyval) : res Z :=
  match v with
  | VInt z => Ok z
  | VBool b => Ok (if b then 1 else 0)%Z
  | VFloat FNan => Err Eff.ValueError
  | VFloat (FInf _) => Err Eff.OverflowError
  | VFloat (FFin q) => Ok (Z.quot (Qnum q) (Z.pos (Qden q)))
  | VStr s => match int_of_str s with Some z => Ok z | None => Err Eff.ValueError end
  | VNone | VList _ | VDict _ => Err Eff.TypeError
  end.

(** [float(v)]: an integer beyond the range of a double overflows. *)
Definition py_float (v : pyval) : res pyfloat :=
  match v with
  | VFloat f => Ok f
  | VInt z =>
      if (Z.abs z <? 2 ^ 1024 - 2 ^ 970)%Z then Ok (FFin (inject_Z z))
      else Err Eff.OverflowError
  | VBool b => Ok (FFin (if b then 1 else 0))
  | VStr s => match float_of_str s with Some f => Ok f | None => Err Eff.ValueError end
  | VNone | VList _ | VDict _ => Err Eff.TypeError
  end.

(** [str(v)] *)
Definition py_str (v : pyval) : pystr :=
  match v with
  | VStr s => s
  | _ => repr v
  end.

End WithBuiltins.

(** [bool(v)] *)
Definition py_bool (v : pyval) : bool :=
  match v with
  | VNone => false
  | VBool b => b
  | VInt z => negb (z =? 0)%Z
  | VFloat FNan | VFloat (FInf _) => true
  | VFloat (FFin q) => negb (Qeq_bool q 0)
  | VStr s => match s with [] => false | _ => true end
  | VList l => match l with [] => false | _ => true end
  | VDict d => match d with [] => false | _ => true end
  end.

(** [a < b] on floats: false as soon as one side is not a number. *)
Definition float_lt (a b : pyfloat) : bool :=
  match a, b with
  | FNan, _ | _, FNan => false
  | FInf true, FInf true => false
  | FInf true, _ => true
  | _, FInf true => false
  | FInf false, _ => false
  | _, FInf false => true
  | FFin x, FFin y => if Qlt_le_dec x y then true else false
  end.

(** [min(a, b)] and [max(a, b)] keep the first argument unless the second
    compares strictly better. *)
Definition float_min (a b : pyfloat) : pyfloat := if float_lt b a then b else a.
Definition float_max (a b : pyfloat) : pyfloat := if float_lt a b then b else a.

(** The integer nearest to [q], ties to the even one. *)
Definition round_half_even (q : Q) : Z :=
  let n := Qnum q in
  let d := Z.pos (Qden q) in
  let f := ((2 * n + d) / (2 * d))%Z in
  if (((2 * n + d) mod (2 * d) =? 0) && Z.odd f)%Z then (f - 1)%Z else f.

(** [round(x, 2)] *)
Definition round2 (x : pyfloat) : pyfloat :=
  match x with
  | FFin q => FFin (round_half_even (q * 100) # 100)
  | _ => x
  end.

(** [str(z)] for an integer, as an f-string prints it: decimal digits, most
    significant first. *)
Fixpoint digits_of_pos (fuel : nat) (p : Z) (acc : pystr) : pystr :=
  match fuel with
  | O => acc
  | S fuel' =>
      let acc' := (0x30 + Z.to_N (p mod 10))%N :: acc in
      if (p / 10 =? 0)%Z then acc' else digits_of_pos fuel' (p / 10) acc'
  end.

Definition str_of_Z (z : Z) : pystr :=
  let ds := digits_of_pos (S (Z.to_nat (Z.log2 (Z.abs z)))) (Z.abs z) [] in
  if (z <? 0)%Z then 0x2D%N :: ds else ds.

(** *** A reference choice of the builtins

    Used by the worked examples: [int] reads an optionally signed run of
    ASCII digits, with single underscores allowed between digits, and
    [float] an optionally signed ASCII decimal numeral, both after stripping
    white space; [str] prints [None], booleans and integers. CPython reads
    more strings than these (exponents, [inf], [nan], other scripts'
    digits); no example relies on one of them, nor on the text of a float or
    of a container, which is left empty here. *)

Definition digit_of (c : N) : option Z :=
  if ((0x30 <=? c) && (c <=? 0x39))%N then Some (Z.of_N (c - 0x30)) else None.

Fixpoint read_digits (acc : Z) (after_digit : bool) (s : pystr) : option Z :=
  match s with
  | [] => if after_digit then Some acc else None
  | c :: s' =>
      match digit_of c with
      | Some d => read_digits (10 * acc + d) true s'
      | None =>
          if ((c =? 0x5F)%N && after_digit)%bool then read_digits acc false s'
          else None
      end
  end.

Definition read_signed {A} (read : pystr -> option A) (neg : A -> A) (s : pystr)
  : option A :=
  match strip s with
  | 0x2B%N :: r => read r
  | 0x2D%N :: r => neg <$> read r
  | r => read r
  end.

Definition ascii_int (s : pystr) : option Z :=
  read_signed (read_digits 0 false) Z.opp s.

Fixpoint all_digits (s : pystr) : bool :=
  match s with
  | [] => true
  | c :: s' => match digit_of c with Some _ => all_digits s' | None => false end
  end.

Fixpoint digits_value (acc : Z) (s : pystr) : Z :=
  match s with
  | [] => acc
  | c :: s' => digits_value (10 * acc + default 0%Z (digit_of c)) s'
  end.

Fixpoint before_dot (s : pystr) : pystr * option pystr :=
  match s with
  | [] => ([], None)
  | c :: s' =>
      if (c =? 0x2E)%N then ([], Some s')
      else let '(i, f) := before_dot s' in (c :: i, f)
  end.

Definition read_decimal (s : pystr) : option Q :=
  let '(i, f) := before_dot s in
  let f := default [] f in
  if all_digits i && all_digits f && negb (Nat.eqb (length i + length f) 0)
  then Some (digits_value 0 (i ++ f) #
             match length f with O => 1 | n => Pos.pow 10 (Pos.of_nat n) end)
  else None.

Definition ascii_float (s : pystr) : option pyfloat :=
  FFin <$> read_signed read_decimal Qopp s.

Definition ascii_repr (v : pyval) : pystr :=
  match v with
  | VNone => py "None"
  | VBool true => py "True"
  | VBool false => py "False"
  | VInt z => str_of_Z z
  | VStr s => s
  | VFloat _ | VList _ | VDict _ => []
  end.

Definition ascii_isalnum (c : N) : bool :=
  ((0x30 <=? c) && (c <=? 0x39) || (0x41 <=? c) && (c <=? 0x5A) ||
   (0x61 <=? c) && (c <=? 0x7A))%N.

Definition ascii_builtins : Builtins :=
  {| int_of_str := ascii_int; float_of_str := ascii_float;
     repr := ascii_repr; isalnum := ascii_isalnum |}.

End Py.

Export Py.

(** The shared state a call leaves behind. *)
Definition state_after {E S A} (o : outcome E S A) : S :=
  match o with
  | Returned _ s _ | Raised _ s _ | Blocked s _ => s
  end.

(** What a call returned, if it did. *)
Definition returned {E S A} (o : outcome E S A) : option A :=
  match o with
  | Returned a _ _ => Some a
  | _ => None
  end.

(** Whether a gated call went through: it returned a payload. *)
Definition granted {E S A} (o : outcome E S (option A)) : bool :=
  match o with
  | Returned (Some _) _ _ => true
  | _ => false
  end.

(** ** Sound board: one cooldown per slug ([play_sound]) *)

Module Soundboard.

(** An entry of [soundboard_sounds], as [init_soundboard] builds it. *)
Record sound := {
  name : pystr;
  slug : pystr;
  file : pystr;
  icon : pystr;
  volume : Q;
  chatCommand : pystr
}.

Record state := {
  soundboard_lock : bool;
  soundboard_sounds : gmap pystr sound;
  soundboard_cooldowns : gmap pystr Q
}.

Definition SOUNDBOARD_COOLDOWN_SEC : Q := 5.

(** The payload of a [soundboard_play] event. *)
Record payload := {
  p_name : pystr;
  p_slug : pystr;
  p_file : pystr;
  p_icon : pystr;
  p_volume : Q;
  p_triggeredBy : pystr;
  p_showOverlay : bool;
  p_displayDuration : Z
}.

Inductive event :=
| soundboard_play (p : payload)
| log_event_soundboard (triggered_by : pystr) (sound_slug : pystr).

Definition the_lock : lock state := {|
  held := soundboard_lock;
  set_held b st := {| soundboard_lock := b;
                      soundboard_sounds := soundboard_sounds st;
                      soundboard_cooldowns := soundboard_cooldowns st |}
|}.

Definition set_cooldown (k : pystr) (now : Q) (st : state) : state :=
  {| soundboard_lock := soundboard_lock st;
     soundboard_sounds := soundboard_sounds st;
     soundboard_cooldowns := <[k := now]> (soundboard_cooldowns st) |}.

Definition make_payload (s : sound) (triggered_by : pystr) : payload :=
  {| p_name := name s; p_slug := slug s; p_file := file s; p_icon := icon s;
     p_volume := volume s; p_triggeredBy := triggered_by;
     p_showOverlay := true; p_displayDuration := 3000 |}.

(** [play_sound(slug, triggered_by)], with [now] the value of [time.time()]
    read under the lock. An entry of [soundboard_sounds] is a non-empty
    dictionary, so [if not sound] tests for a missing slug. *)
Definition play_sound (slug_ triggered_by : pystr) (now : Q)
  : M event state (option payload) :=
  granted <- with_lock the_lock (
    st <- get ;;
    match soundboard_sounds st !! slug_ with
    | None => ret None
    | Some snd_ =>
        let last_played := default 0%Q (soundboard_cooldowns st !! slug_) in
        if Qlt_le_dec (now - last_played) SOUNDBOARD_COOLDOWN_SEC
        then ret None
        else modify (set_cooldown slug_ now) ;;; ret (Some snd_)
    end) ;;
  match granted with
  | None => ret None
  | Some snd_ =>
      let p := make_payload snd_ triggered_by in
      emit (soundboard_play p) ;;;
      emit (log_event_soundboard triggered_by slug_) ;;;
      ret (Some p)
  end.

End Soundboard.

(** ** Chaos presets: one cooldown for all of them ([trigger_chaos]) *)

Module Chaos.

Record preset := {
  name : pystr;
  icon : pystr;
  duration : Z;
  effect : pystr;
  description : pystr
}.

Definition mk (n : string) (i : pystr) (d : Z) (e ds : string) : preset :=
  {| name := py n; icon := i; duration := d; effect := py e; description := py ds |}.

Definition CHAOS_PRESETS : gmap pystr preset :=
  list_to_map [
    (py "disco", mk "Disco Mode" [0x1FAA9%N] 8000 "disco" "Flashing rainbow lights!");
    (py "earthquake", mk "Earthquake" [0x1F30B%N] 5000 "shake" "Screen shake chaos!");
    (py "confetti", mk "Confetti" [0x1F389%N] 6000 "confetti" "Party confetti explosion!");
    (py "matrix", mk "Matrix Rain" [0x1F48A%N] 8000 "matrix" "Digital rain effect!");
    (py "rave", mk "Rave Mode" [0x1F50A%N] 10000 "rave" "Strobing neon lights + bass!");
    (py "glitch", mk "Glitch" [0x1F4FA%N] 4000 "glitch" "VHS glitch distortion!");
    (py "hearts", mk "Heart Rain" [0x2764%N; 0xFE0F%N] 6000 "hearts" "Falling hearts everywhere!");
    (py "jumpscare", mk "Jumpscare" [0x1F47B%N] 2000 "jumpscare" "A spooky surprise!")
  ].

Record state := {
  chaos_lock : bool;
  chaos_cooldown : gmap pystr Q
}.

Definition CHAOS_COOLDOWN_SEC : Q := 15.

(** The one key of [chaos_cooldown]. *)
Definition global_key : pystr := py "_global".

Record payload := {
  p_slug : pystr;
  p_name : pystr;
  p_icon : pystr;
  p_effect : pystr;
  p_duration : Z;
  p_description : pystr;
  p_triggeredBy : pystr
}.

Inductive event :=
| chaos_trigger (p : payload)
| log_event_chaos (triggered_by : pystr) (preset_slug : pystr).

Definition the_lock : lock state := {|
  held := chaos_lock;
  set_held b st := {| chaos_lock := b; chaos_cooldown := chaos_cooldown st |}
|}.

Definition set_cooldown (k : pystr) (now : Q) (st : state) : state :=
  {| chaos_lock := chaos_lock st;
     chaos_cooldown := <[k := now]> (chaos_cooldown st) |}.

Definition make_payload (preset_slug : pystr) (p : preset) (triggered_by : pystr)
  : payload :=
  {| p_slug := preset_slug; p_name := name p; p_icon := icon p;
     p_effect := effect p; p_duration := duration p;
     p_description := description p; p_triggeredBy := triggered_by |}.

(** [trigger_chaos(preset_slug, triggered_by)], with [now] the value of
    [time.time()] read under the lock. A preset is a non-empty dictionary,
    so [if not preset] tests for an unknown slug. *)
Definition trigger_chaos (preset_slug triggered_by : pystr) (now : Q)
  : M event state (option payload) :=
  granted <- with_lock the_lock (
    st <- get ;;
    match CHAOS_PRESETS !! preset_slug with
    | None => ret None
    | Some preset_ =>
        let last := default 0%Q (chaos_cooldown st !! global_key) in
        if Qlt_le_dec (now - last) CHAOS_COOLDOWN_SEC
        then ret None
        else modify (set_cooldown global_key now) ;;; ret (Some preset_)
    end) ;;
  match granted with
  | None => ret None
  | Some preset_ =>
      let p := make_payload preset_slug preset_ triggered_by in
      emit (chaos_trigger p) ;;;
      emit (log_event_chaos triggered_by preset_slug) ;;;
      ret (Some p)
  end.

(** A request: the preset asked for, by whom, and the clock at that time. *)
Definition request : Type := pystr * pystr * Q.

(** Requests served one after the other. *)
Fixpoint serve (rs : list request) (st : state) : state :=
  match rs with
  | [] => st
  | (preset_slug, triggered_by, now) :: rs' =>
      serve rs' (state_after (trigger_chaos preset_slug triggered_by now st))
  end.

End Chaos.

(** ** Auto-clip detection ([check_clip_trigger]) *)

Module ClipDetector.

Local Open Scope Q_scope.

(** [config.py] *)
Definition CLIP_SPAM_THRESHOLD : nat := 15.
Definition CLIP_WINDOW_SECONDS : Q := 10.
Definition CLIP_TRIGGER_WORDS : list pystr :=
  [py "CLIP"; py "clip"; py "POGGERS"; py "POG"; py "LUL"; py "LMAO"; py "OMEGALUL"].

(** [clip_message_times] is a [deque(maxlen=100)], oldest first. *)
Record state := {
  clip_message_times : list Q;
  last_clip_time : Q
}.

Definition initial : state := {| clip_message_times := []; last_clip_time := 0 |}.

(** What [create_twitch_clip] returns when it does not return [None]. *)
Record clip := { clip_id : pystr; edit_url : pystr }.

Record clip_payload := {
  message_count : nat;
  trigger : pystr;
  p_clip_id : option pystr;
  p_edit_url : option pystr;
  created : bool
}.

Inductive event :=
| auto_clip (p : clip_payload)
| log_event_auto_clip (count : nat) (id : option pystr).

(** A call of [check_clip_trigger] either returns without acting, or reaches
    the call of [create_twitch_clip], an external request during which the
    module state is [at_call]; once that call has answered, the rest of the
    function only emits. *)
Inductive run :=
| Done (st : state)
| CallCreateClip (at_call : state) (resume : option clip -> list event).

Definition set_last_clip_time (now : Q) (st : state) : state :=
  {| clip_message_times := clip_message_times st; last_clip_time := now |}.

Definition has_trigger (message_text : pystr) : bool :=
  existsb (fun word => contains word message_text) CLIP_TRIGGER_WORDS.

Definition recent_count (now : Q) (st : state) : nat :=
  let cutoff := now - CLIP_WINDOW_SECONDS in
  length (List.filter (fun t => if Qlt_le_dec cutoff t then true else false)
            (clip_message_times st)).

Definition after_clip (message_text : pystr) (count : nat)
  (clip_result : option clip) : list event :=
  let clip_payload :=
    match clip_result with
    | Some c =>
        {| message_count := count; trigger := take 50 message_text;
           p_clip_id := Some (clip_id c); p_edit_url := Some (edit_url c);
           created := true |}
    | None =>
        {| message_count := count; trigger := take 50 message_text;
           p_clip_id := None; p_edit_url := None; created := false |}
    end in
  [auto_clip clip_payload;
   log_event_auto_clip count (clip_id <$> clip_result)].

Definition check_clip_trigger (message_text : pystr) (now : Q) (st : state) : run :=
  if Qlt_le_dec (now - last_clip_time st) 30 then Done st
  else if negb (has_trigger message_text) then Done st
  else
    let count := recent_count now st in
    if (CLIP_SPAM_THRESHOLD <=? count)%nat then
      CallCreateClip (set_last_clip_time now st) (after_clip message_text count)
    else Done st.

Definition fires (r : run) : bool :=
  match r with
  | Done _ => false
  | CallCreateClip _ _ => true
  end.

Definition state_of (r : run) : state :=
  match r with
  | Done st => st
  | CallCreateClip st _ => st
  end.

(** The part of [Bot.event_message] that feeds the detector, for a message
    that is not an echo: the arrival time is recorded, then the trigger is
    checked. (The statements before it update the statistics and the chat
    overlay and do not touch the detector.) *)
Definition event_message (content : pystr) (now : Q) (st : state) : run :=
  check_clip_trigger content now
    {| clip_message_times := deque_append 100 now (clip_message_times st);
       last_clip_time := last_clip_time st |}.

(** Messages handled one after the other; the state that the next one sees
    is the one the detector had when the previous one was done. *)
Fixpoint observe_all (msgs : list (pystr * Q)) (st : state) : state :=
  match msgs with
  | [] => st
  | (content, now) :: rest => observe_all rest (state_of (event_message content now st))
  end.

Fixpoint fire_count (msgs : list (pystr * Q)) (st : state) : nat :=
  match msgs with
  | [] => 0
  | (content, now) :: rest =>
      let r := event_message content now st in
      ((if fires r then 1 else 0) + fire_count rest (state_of r))%nat
  end.

End ClipDetector.

(** ** Goal tracker ([get_goals], [update_goal], [increment_goal]) *)

Module Goals.

Record goal := {
  id : pystr;
  type : pystr;
  title : pystr;
  current : Z;
  target : Z;
  enabled : bool
}.

(** [stream_goals] is a list of dictionaries that are updated in place;
    [goals_lock] is a plain [threading.Lock]. *)
Record state := {
  goals_lock : bool;
  stream_goals : list goal
}.

Definition mk (i t : string) (c g : Z) (e : bool) : goal :=
  {| id := py i; type := py i; title := py t; current := c; target := g;
     enabled := e |}.

Definition initial : state :=
  {| goals_lock := false;
     stream_goals :=
       [mk "followers" "Follower Goal" 0 50 true;
        mk "subs" "Sub Goal" 0 10 true;
        mk "donations" "Donation Goal" 0 100 false;
        mk "bits" "Bits Goal" 0 5000 false] |}.

Inductive event :=
| goals_update (goals : list goal).

Definition the_lock : lock state := {|
  held := goals_lock;
  set_held b st := {| goals_lock := b; stream_goals := stream_goals st |}
|}.

(** [stream_goals[i]] changed in place by [f]. *)
Definition alter_goal (i : nat) (f : goal -> goal) (st : state) : state :=
  {| goals_lock := goals_lock st;
     stream_goals := alter f i (stream_goals st) |}.

Definition set_current (z : Z) (g : goal) : goal :=
  {| id := id g; type := type g; title := title g; current := z;
     target := target g; enabled := enabled g |}.
Definition set_target (z : Z) (g : goal) : goal :=
  {| id := id g; type := type g; title := title g; current := current g;
     target := z; enabled := enabled g |}.
Definition set_title (t : pystr) (g : goal) : goal :=
  {| id := id g; type := type g; title := t; current := current g;
     target := target g; enabled := enabled g |}.
Definition set_enabled (b : bool) (g : goal) : goal :=
  {| id := id g; type := type g; title := title g; current := current g;
     target := target g; enabled := b |}.

(** [get_goals()]: a copy of every goal, taken under [goals_lock]. *)
Definition get_goals : M event state (list goal) :=
  with_lock the_lock (st <- get ;; ret (stream_goals st)).

Definition lift {A} (r : res A) : M event state A :=
  match r with
  | Ok a => ret a
  | Err e => raise e
  end.

Section WithBuiltins.
Context {B : Builtins}.

(** The body of the [if g["id"] == goal_id:] branch of [update_goal], for the
    goal at index [i]; it is run with [goals_lock] held. *)
Definition update_goal_found (i : nat) (data : gmap pystr pyval)
  : M event state (option goal) :=
  match data !! py "current" with
  | Some v => z <- lift (py_int v) ;; modify (alter_goal i (set_current z))
  | None => ret tt
  end ;;;
  match data !! py "target" with
  | Some v => z <- lift (py_int v) ;; modify (alter_goal i (set_target (Z.max 1 z)))
  | None => ret tt
  end ;;;
  match data !! py "title" with
  | Some v => modify (alter_goal i (set_title (take 60 (py_str v))))
  | None => ret tt
  end ;;;
  match data !! py "enabled" with
  | Some v => modify (alter_goal i (set_enabled (py_bool v)))
  | None => ret tt
  end ;;;
  snapshot <- get_goals ;;
  emit (goals_update snapshot) ;;;
  st <- get ;;
  ret (stream_goals st !! i).

(** [for g in stream_goals:] from index [i] on, [gs] being the goals still to
    visit. The first goal with the wanted id ends the loop. *)
Fixpoint update_goal_from (i : nat) (gs : list goal) (goal_id : pystr)
  (data : gmap pystr pyval) : M event state (option goal) :=
  match gs with
  | [] => ret None
  | g :: rest =>
      if decide (id g = goal_id) then update_goal_found i data
      else update_goal_from (S i) rest goal_id data
  end.

Definition update_goal (goal_id : pystr) (data : gmap pystr pyval)
  : M event state (option goal) :=
  with_lock the_lock (
    st <- get ;;
    update_goal_from 0 (stream_goals st) goal_id data).

End WithBuiltins.

(** The loop of [increment_goal]: every goal with the wanted id is visited,
    there is no [break]. *)
Fixpoint increment_goal_from (i : nat) (gs : list goal) (goal_id : pystr)
  (amount : Z) : M event state unit :=
  match gs with
  | [] => ret tt
  | g :: rest =>
      (if decide (id g = goal_id) then
         modify (alter_goal i (fun g => set_current (current g + amount) g)) ;;;
         snapshot <- get_goals ;;
         ret tt
       else ret tt) ;;;
      increment_goal_from (S i) rest goal_id amount
  end.

Definition increment_goal (goal_id : pystr) (amount : Z) : M event state unit :=
  with_lock the_lock (
    st <- get ;;
    increment_goal_from 0 (stream_goals st) goal_id amount) ;;;
  snapshot <- get_goals ;;
  emit (goals_update snapshot).

End Goals.

(** ** OBS control: direct web socket first, FEBRUARY11 HTTP API second *)

Module Obs.

(** [config.py] *)
Record config := {
  OBS_PROXY_VIA_FEBRUARY11 : bool;
  FEBRUARY11_API_BASE_URL : pystr
}.

(** The [obsws] client object. *)
Record obsws := { host : pystr; port : Z }.

Record state := {
  obs_client : option obsws;
  obs_mode : string;
  obs_last_error : option pystr
}.

Definition initial : state :=
  {| obs_client := None; obs_mode := "disconnected"; obs_last_error := None |}.

(** How the outside answers: [obsws(...).connect()], [obs_client.call(...)]
    (with the import that precedes it), and [http_requests.post]. A failure
    carries the text of the exception. *)
Inductive connect_answer :=
| Connects (client : obsws)
| ImportFails
| ConnectFails (why : pystr).

Inductive call_answer :=
| CallReturns
| CallFails (why : pystr).

Inductive http_answer :=
| Response (status_code : Z)
| RequestFails (why : pystr).

(** The requests sent out. *)
Inductive event :=
| obs_call_SetCurrentProgramScene (sceneName : pystr)
| http_post (url : pystr) (sceneName : pystr).

Definition set_mode (mode : string) (err : option pystr) (st : state) : state :=
  {| obs_client := obs_client st; obs_mode := mode; obs_last_error := err |}.

Definition set_last_error (err : pystr) (st : state) : state :=
  {| obs_client := obs_client st; obs_mode := obs_mode st;
     obs_last_error := Some err |}.

Section WithConfig.
Variable cfg : config.

Definition connect_obs (answer : connect_answer) : M event state bool :=
  match answer with
  | Connects client =>
      modify (fun _ => {| obs_client := Some client; obs_mode := "direct";
                          obs_last_error := None |}) ;;;
      ret true
  | ImportFails =>
      modify (set_mode "disabled" (Some (py "obs-websocket-py missing"))) ;;;
      ret false
  | ConnectFails why =>
      modify (fun _ =>
        {| obs_client := None;
           obs_mode := if OBS_PROXY_VIA_FEBRUARY11 cfg then "fallback"
                       else "disconnected";
           obs_last_error := Some why |}) ;;;
      ret false
  end.

Definition fallback_switch_scene (scene_name : pystr) (http : http_answer)
  : M event state bool :=
  if negb (OBS_PROXY_VIA_FEBRUARY11 cfg) then ret false
  else
    emit (http_post (FEBRUARY11_API_BASE_URL cfg ++ py "/api/obs/program-scene")
            scene_name) ;;;
    match http with
    | Response status_code =>
        if ((200 <=? status_code) && (status_code <? 300))%Z then
          modify (set_mode "february11-fallback" None) ;;;
          ret true
        else
          modify (set_last_error
                    (py "FEBRUARY11 scene switch failed (" ++
                     str_of_Z status_code ++ py ")")) ;;;
          ret false
    | RequestFails why =>
        modify (set_last_error (py "FEBRUARY11 scene switch unavailable: " ++ why)) ;;;
        ret false
    end.

Definition obs_switch_scene (scene_name : pystr) (primary : call_answer)
  (http : http_answer) : M event state bool :=
  st <- get ;;
  match obs_client st with
  | None => fallback_switch_scene scene_name http
  | Some _ =>
      emit (obs_call_SetCurrentProgramScene scene_name) ;;;
      match primary with
      | CallReturns => modify (set_mode "direct" None) ;;; ret true
      | CallFails _ => fallback_switch_scene scene_name http
      end
  end.

(** The body of the [/api/obs-status] answer. *)
Record status := {
  connected_direct : bool;
  s_obs_mode : string;
  s_obs_last_error : option pystr;
  fallback_enabled : bool;
  fallback_base_url : pystr
}.


End WithConfig.

End Obs.

(** ** Subtitles: text and styling *)

Module Subtitles.

(** [config.py]: the subtitle defaults, as read from the environment. *)
Record config := {
  SUBTITLE_DEFAULT_FONT_FAMILY : pystr;
  SUBTITLE_DEFAULT_FONT_SIZE : Z;
  SUBTITLE_DEFAULT_TEXT_COLOR : pystr;
  SUBTITLE_DEFAULT_BG_COLOR : pystr;
  SUBTITLE_DEFAULT_BG_OPACITY : pyfloat
}.

(** The dictionary [subtitle_state]. *)
Record text_state := {
  text : pystr;
  final : bool;
  updated_at : option pystr
}.

(** The dictionary [subtitle_settings]; a sanitizer may hand back its
    fallback untouched, so the fields hold values of any kind. *)
Record settings := {
  font_family : pyval;
  font_size_px : pyval;
  text_color : pyval;
  background_color : pyval;
  background_opacity : pyval;
  settings_updated_at : option pystr
}.

Record state := {
  subtitle_state_lock : bool;
  subtitle_state : text_state;
  subtitle_settings : settings
}.

Definition initial : state :=
  {| subtitle_state_lock := false;
     subtitle_state := {| text := []; final := true; updated_at := None |};
     subtitle_settings :=
       {| font_family := VStr (py "Inter, Segoe UI, sans-serif");
          font_size_px := VInt 56;
          text_color := VStr (py "#ffffff");
          background_color := VStr (py "#000000");
          background_opacity := VFloat (FFin (45 # 100));
          settings_updated_at := None |} |}.

Inductive event :=
| subtitle_settings_event (snapshot : settings)
| subtitle_update (snapshot : text_state).

Definition the_lock : lock state := {|
  held := subtitle_state_lock;
  set_held b st := {| subtitle_state_lock := b;
                      subtitle_state := subtitle_state st;
                      subtitle_settings := subtitle_settings st |}
|}.

Definition set_settings (f : settings -> settings) (st : state) : state :=
  {| subtitle_state_lock := subtitle_state_lock st;
     subtitle_state := subtitle_state st;
     subtitle_settings := f (subtitle_settings st) |}.

Definition set_text_state (f : text_state -> text_state) (st : state) : state :=
  {| subtitle_state_lock := subtitle_state_lock st;
     subtitle_state := f (subtitle_state st);
     subtitle_settings := subtitle_settings st |}.

(** [clamp(value, low, high)], that is [max(low, min(high, value))], on
    integers and on floats. *)
Definition clamp_int (value low high : Z) : Z := Z.max low (Z.min high value).
Definition clamp_float (value low high : pyfloat) : pyfloat :=
  float_max low (float_min high value).

Definition is_hex_digit (c : N) : bool :=
  ((0x30 <=? c) && (c <=? 0x39) || (0x61 <=? c) && (c <=? 0x66) ||
   (0x41 <=? c) && (c <=? 0x46))%N.

(** [HEX_COLOR_RE.fullmatch(s)] for [^#(?:[0-9a-fA-F]{3}|[0-9a-fA-F]{6})$]. *)
Definition hex_color_match (s : pystr) : bool :=
  match s with
  | 0x23%N :: ds =>
      forallb is_hex_digit ds && (Nat.eqb (length ds) 3 || Nat.eqb (length ds) 6)
  | _ => false
  end.

Definition sanitize_hex_color (value fallback : pyval) : pyval :=
  match value with
  | VStr s =>
      let candidate := strip s in
      if hex_color_match candidate then VStr (lower candidate) else fallback
  | _ => fallback
  end.

Section WithBuiltins.
Context {B : Builtins}.

(** What [sanitize_font_family] keeps: alphanumeric characters, the space,
    the comma, the hyphen and both quote marks. *)
Definition font_char (ch : N) : bool :=
  (isalnum ch || (ch =? 0x20) || (ch =? 0x2C) || (ch =? 0x2D) || (ch =? 0x27) ||
   (ch =? 0x22))%N.

Definition sanitize_font_family (value fallback : pyval) : pyval :=
  match value with
  | VStr s =>
      match strip s with
      | [] => fallback
      | trimmed =>
          let safe := join (py " ") (split (List.filter font_char trimmed)) in
          match safe with
          | [] => fallback
          | _ => VStr (take 96 safe)
          end
      end
  | _ => fallback
  end.

Definition sanitize_font_size (value fallback : pyval) : pyval :=
  match py_int value with
  | Ok parsed => VInt (clamp_int parsed 18 140)
  | Err _ => fallback
  end.

Definition sanitize_opacity (value fallback : pyval) : pyval :=
  match py_float value with
  | Ok parsed => VFloat (round2 (clamp_float parsed (FFin 0) (FFin 1)))
  | Err _ => fallback
  end.

(** [init_subtitle_defaults()]; [stamp1] and [stamp2] are the two readings
    of [now_iso()]. *)
Definition init_subtitle_defaults (cfg : config) (stamp1 stamp2 : pystr)
  : M event state unit :=
  with_lock the_lock (
    modify (set_settings (fun _ =>
      {| font_family :=
           sanitize_font_family (VStr (SUBTITLE_DEFAULT_FONT_FAMILY cfg))
             (VStr (py "Inter, Segoe UI, sans-serif"));
         font_size_px :=
           sanitize_font_size (VInt (SUBTITLE_DEFAULT_FONT_SIZE cfg)) (VInt 56);
         text_color :=
           sanitize_hex_color (VStr (SUBTITLE_DEFAULT_TEXT_COLOR cfg))
             (VStr (py "#ffffff"));
         background_color :=
           sanitize_hex_color (VStr (SUBTITLE_DEFAULT_BG_COLOR cfg))
             (VStr (py "#000000"));
         background_opacity :=
           sanitize_opacity (VFloat (SUBTITLE_DEFAULT_BG_OPACITY cfg))
             (VFloat (FFin (45 # 100)));
         settings_updated_at := Some stamp1 |})) ;;;
    modify (set_text_state (fun ts =>
      {| text := text ts; final := final ts; updated_at := Some stamp2 |}))).

(** [update_subtitle_settings(data)]; [stamp] is the reading of
    [now_iso()]. *)
Definition update_subtitle_settings (data : gmap pystr pyval) (stamp : pystr)
  : M event state settings :=
  snapshot <- with_lock the_lock (
    modify (set_settings (fun cur =>
      {| font_family :=
           sanitize_font_family
             (default (font_family cur) (data !! py "font_family"))
             (font_family cur);
         font_size_px :=
           sanitize_font_size
             (default (font_size_px cur) (data !! py "font_size_px"))
             (font_size_px cur);
         text_color :=
           sanitize_hex_color
             (default (text_color cur) (data !! py "text_color"))
             (text_color cur);
         background_color :=
           sanitize_hex_color
             (default (background_color cur) (data !! py "background_color"))
             (background_color cur);
         background_opacity :=
           sanitize_opacity
             (default (background_opacity cur) (data !! py "background_opacity"))
             (background_opacity cur);
         settings_updated_at := Some stamp |})) ;;;
    st <- get ;;
    ret (subtitle_settings st)) ;;
  emit (subtitle_settings_event snapshot) ;;;
  ret snapshot.

(** The text that [set_subtitle_text] stores for [text]. *)
Definition normalize_subtitle (text_ : pyval) : pystr :=
  let normalized := strip (join (py " ") (split (py_str text_))) in
  if (220 <? length normalized)%nat then rstrip (take 220 normalized)
  else normalized.

(** [set_subtitle_text(text, final_value)]; [stamp] is the reading of
    [now_iso()]. *)
Definition set_subtitle_text (text_ final_value : pyval) (stamp : pystr)
  : M event state text_state :=
  let normalized := normalize_subtitle text_ in
  snapshot <- with_lock the_lock (
    modify (set_text_state (fun _ =>
      {| text := normalized; final := py_bool final_value;
         updated_at := Some stamp |})) ;;;
    st <- get ;;
    ret (subtitle_state st)) ;;
  emit (subtitle_update snapshot) ;;;
  ret snapshot.

(** Settings updates served one after the other. *)
Fixpoint serve (updates : list (gmap pystr pyval * pystr)) (st : state) : state :=
  match updates with
  | [] => st
  | (data, stamp) :: rest =>
      serve rest (state_after (update_subtitle_settings data stamp st))
  end.

End WithBuiltins.

End Subtitles.

(** ** The cooldown gates *)

Module CooldownGate.
Import Soundboard Chaos.

Local Open Scope Q_scope.

(** A sound board with two sounds, as a scan of the sound directory holding
    [airhorn.mp3] and [sad_trombone.wav] leaves it, and no sound played yet. *)
Definition airhorn : sound :=
  {| Soundboard.name := py "Airhorn"; slug := py "airhorn";
     file := py "/static/sounds/soundboard/airhorn.mp3";
     Soundboard.icon := [0x1F50A%N]; volume := 7 # 10;
     chatCommand := py "airhorn" |}.

Definition sad_trombone : sound :=
  {| Soundboard.name := py "Sad Trombone"; slug := py "sad-trombone";
     file := py "/static/sounds/soundboard/sad_trombone.wav";
     Soundboard.icon := [0x1F50A%N]; volume := 7 # 10;
     chatCommand := py "sad-trombone" |}.

Definition board0 : Soundboard.state :=
  {| soundboard_lock := false;
     soundboard_sounds :=
       <[py "airhorn" := airhorn]> (<[py "sad-trombone" := sad_trombone]> ∅);
     soundboard_cooldowns := ∅ |}.

(** The chaos gate at start-up. *)
Definition chaos0 : Chaos.state := {| chaos_lock := false; chaos_cooldown := ∅ |}.

Lemma play_sound_open slug_ by_ now st snd_ :
  soundboard_lock st = false ->
  soundboard_sounds st !! slug_ = Some snd_ ->
  SOUNDBOARD_COOLDOWN_SEC <= now - default 0 (soundboard_cooldowns st !! slug_) ->
  play_sound slug_ by_ now st =
    Returned (Some (Soundboard.make_payload snd_ by_))
      (Soundboard.set_cooldown slug_ now st)
      [soundboard_play (Soundboard.make_payload snd_ by_);
       log_event_soundboard by_ slug_].
Proof.
  destruct st as [l snds cds]; simpl; intros -> Hs Hle.
  unfold play_sound, bind, with_lock, acquire, get; simpl. rewrite Hs.
  destruct (Qlt_le_dec _ _) as [Hlt | _]; [lra | reflexivity].
Qed.

Lemma play_sound_closed slug_ by_ now st :
  soundboard_lock st = false ->
  now - default 0 (soundboard_cooldowns st !! slug_) < SOUNDBOARD_COOLDOWN_SEC ->
  play_sound slug_ by_ now st = Returned None st [].
Proof.
  destruct st as [l snds cds]; simpl; intros -> Hlt.
  unfold play_sound, bind, with_lock, acquire, get; simpl.
  destruct (snds !! slug_); [| reflexivity].
  destruct (Qlt_le_dec _ _) as [_ | Hle]; [reflexivity | lra].
Qed.

Lemma play_sound_unknown slug_ by_ now st :
  soundboard_lock st = false ->
  soundboard_sounds st !! slug_ = None ->
  play_sound slug_ by_ now st = Returned None st [].
Proof.
  destruct st as [l snds cds]; simpl; intros -> Hs.
  unfold play_sound, bind, with_lock, acquire, get; simpl. by rewrite Hs.
Qed.

Lemma trigger_chaos_open slug_ by_ now st p :
  chaos_lock st = false ->
  CHAOS_PRESETS !! slug_ = Some p ->
  CHAOS_COOLDOWN_SEC <= now - default 0 (chaos_cooldown st !! global_key) ->
  trigger_chaos slug_ by_ now st =
    Returned (Some (Chaos.make_payload slug_ p by_))
      (Chaos.set_cooldown global_key now st)
      [chaos_trigger (Chaos.make_payload slug_ p by_);
       log_event_chaos by_ slug_].
Proof.
  destruct st as [l cds]; simpl; intros -> Hs Hle.
  unfold trigger_chaos, bind, with_lock, acquire, get; simpl. rewrite Hs.
  destruct (Qlt_le_dec _ _) as [Hlt | _]; [lra | reflexivity].
Qed.

Lemma trigger_chaos_closed slug_ by_ now st :
  chaos_lock st = false ->
  now - default 0 (chaos_cooldown st !! global_key) < CHAOS_COOLDOWN_SEC ->
  trigger_chaos slug_ by_ now st = Returned None st [].
Proof.
  destruct st as [l cds]; simpl; intros -> Hlt.
  unfold trigger_chaos, bind, with_lock, acquire, get; simpl.
  destruct (CHAOS_PRESETS !! slug_); [| reflexivity].
  destruct (Qlt_le_dec _ _) as [_ | Hle]; [reflexivity | lra].
Qed.

(** Both gates in closed form. *)
Lemma play_sound_eq slug_ by_ now st :
  play_sound slug_ by_ now st =
    if soundboard_lock st then Blocked st []
    else match soundboard_sounds st !! slug_ with
         | None => Returned None st []
         | Some snd_ =>
             if Qlt_le_dec (now - default 0 (soundboard_cooldowns st !! slug_))
                  SOUNDBOARD_COOLDOWN_SEC
             then Returned None st []
             else Returned (Some (Soundboard.make_payload snd_ by_))
                    (Soundboard.set_cooldown slug_ now st)
                    [soundboard_play (Soundboard.make_payload snd_ by_);
                     log_event_soundboard by_ slug_]
         end.
Proof.
  destruct st as [[] snds cds]; [reflexivity |].
  unfold play_sound, bind, with_lock, acquire, get; simpl.
  destruct (snds !! slug_); [| reflexivity].
  destruct (Qlt_le_dec _ _); reflexivity.
Qed.

Lemma trigger_chaos_eq slug_ by_ now st :
  trigger_chaos slug_ by_ now st =
    if chaos_lock st then Blocked st []
    else match CHAOS_PRESETS !! slug_ with
         | None => Returned None st []
         | Some p =>
             if Qlt_le_dec (now - default 0 (chaos_cooldown st !! global_key))
                  CHAOS_COOLDOWN_SEC
             then Returned None st []
             else Returned (Some (Chaos.make_payload slug_ p by_))
                    (Chaos.set_cooldown global_key now st)
                    [chaos_trigger (Chaos.make_payload slug_ p by_);
                     log_event_chaos by_ slug_]
         end.
Proof.
  destruct st as [[] cds]; [reflexivity |].
  unfold trigger_chaos, bind, with_lock, acquire, get; simpl.
  destruct (CHAOS_PRESETS !! slug_); [| reflexivity].
  destruct (Qlt_le_dec _ _); reflexivity.
Qed.

(** An admitted call found the lock free and the gate open, and recorded
    its time. *)
Lemma play_sound_granted_inv slug_ by_ now st pl st1 out :
  play_sound slug_ by_ now st = Returned (Some pl) st1 out ->
  soundboard_lock st = false /\
  SOUNDBOARD_COOLDOWN_SEC <= now - default 0 (soundboard_cooldowns st !! slug_) /\
  st1 = Soundboard.set_cooldown slug_ now st.
Proof.
  rewrite play_sound_eq. destruct (soundboard_lock st); [discriminate |].
  destruct (soundboard_sounds st !! slug_); [| discriminate].
  destruct (Qlt_le_dec _ _); [discriminate |].
  intros [= _ <- _]. auto.
Qed.

Lemma trigger_chaos_granted_inv slug_ by_ now st pl st1 out :
  trigger_chaos slug_ by_ now st = Returned (Some pl) st1 out ->
  chaos_lock st = false /\
  CHAOS_COOLDOWN_SEC <= now - default 0 (chaos_cooldown st !! global_key) /\
  st1 = Chaos.set_cooldown global_key now st.
Proof.
  rewrite trigger_chaos_eq. destruct (chaos_lock st); [discriminate |].
  destruct (CHAOS_PRESETS !! slug_); [| discriminate].
  destruct (Qlt_le_dec _ _); [discriminate |].
  intros [= _ <- _]. auto.
Qed.

(** The last admission time of the chaos gate never goes back. *)
Lemma trigger_chaos_last_mono slug_ by_ now st :
  default 0 (chaos_cooldown st !! global_key) <=
  default 0 (chaos_cooldown (state_after (trigger_chaos slug_ by_ now st)) !! global_key).
Proof.
  rewrite trigger_chaos_eq. destruct (chaos_lock st); [simpl; lra |].
  destruct (CHAOS_PRESETS !! slug_); [| simpl; lra].
  destruct (Qlt_le_dec _ _) as [| Hle]; [simpl; lra |].
  cbn [state_after Chaos.set_cooldown chaos_cooldown]. rewrite lookup_insert_eq.
  unfold CHAOS_COOLDOWN_SEC in Hle. simpl. lra.
Qed.

Lemma trigger_chaos_lock_after slug_ by_ now st :
  chaos_lock (state_after (trigger_chaos slug_ by_ now st)) = chaos_lock st.
Proof.
  rewrite trigger_chaos_eq. destruct (chaos_lock st) eqn:Hl; [exact Hl |].
  destruct (CHAOS_PRESETS !! slug_); [| exact Hl].
  destruct (Qlt_le_dec _ _); [exact Hl | exact Hl].
Qed.

Lemma serve_last_mono rs st :
  default 0 (chaos_cooldown st !! global_key) <=
  default 0 (chaos_cooldown (serve rs st) !! global_key).
Proof.
  revert st. induction rs as [| [[c b] t] rs IH]; intros st; simpl; [lra |].
  eapply Qle_trans; [apply (trigger_chaos_last_mono c b t) | apply IH].
Qed.

Lemma serve_lock rs st : chaos_lock (serve rs st) = chaos_lock st.
Proof.
  revert st. induction rs as [| [[c b] t] rs IH]; intros st; simpl; [reflexivity |].
  rewrite IH. apply trigger_chaos_lock_after.
Qed.

(** C4: for a known sound slug (window 5 s) and for a known chaos preset
    (window 15 s, one key for all presets), a request at time [now] with the
    lock free is admitted exactly when [now - lastFire >= window], a key with
    no prior record being always admitted; an admitted request records [now]
    under the key and changes nothing else, a rejected one leaves the state
    as it was. [now] is a reading of [time.time()], seconds counted from
    1970, hence at least the window; this is the only thing asked of it, and
    only for the key with no record, which the code reads as last fired at 0:
    in general the request is admitted exactly when
    [now - cooldowns.get(key, 0) >= window]. *)
Theorem cooldown_gate_admission
  (slug_ by_ : pystr) (now : Q) (sst : Soundboard.state) (snd_ : sound)
  (cslug cby : pystr) (cst : Chaos.state) (p : preset)
  (Hsl : soundboard_lock sst = false)
  (Hs : soundboard_sounds sst !! slug_ = Some snd_)
  (Hcl : chaos_lock cst = false)
  (Hc : CHAOS_PRESETS !! cslug = Some p) :
  let last_s := default 0 (soundboard_cooldowns sst !! slug_) in
  let last_c := default 0 (chaos_cooldown cst !! global_key) in
  (granted (play_sound slug_ by_ now sst) = true <-> 5 <= now - last_s) /\
  (5 <= now - last_s ->
     play_sound slug_ by_ now sst =
       Returned (Some (Soundboard.make_payload snd_ by_))
         {| soundboard_lock := false;
            soundboard_sounds := soundboard_sounds sst;
            soundboard_cooldowns := <[slug_ := now]> (soundboard_cooldowns sst) |}
         [soundboard_play (Soundboard.make_payload snd_ by_);
          log_event_soundboard by_ slug_]) /\
  (now - last_s < 5 -> play_sound slug_ by_ now sst = Returned None sst []) /\
  (granted (trigger_chaos cslug cby now cst) = true <-> 15 <= now - last_c) /\
  (15 <= now - last_c ->
     trigger_chaos cslug cby now cst =
       Returned (Some (Chaos.make_payload cslug p cby))
         {| chaos_lock := false;
            chaos_cooldown := <[global_key := now]> (chaos_cooldown cst) |}
         [chaos_trigger (Chaos.make_payload cslug p cby);
          log_event_chaos cby cslug]) /\
  (now - last_c < 15 -> trigger_chaos cslug cby now cst = Returned None cst []) /\
  (soundboard_cooldowns sst !! slug_ = None ->
     (granted (play_sound slug_ by_ now sst) = true <-> 5 <= now)) /\
  (chaos_cooldown cst !! global_key = None ->
     (granted (trigger_chaos cslug cby now cst) = true <-> 15 <= now)) /\
  (5 <= now ->
     (granted (play_sound slug_ by_ now sst) = true <->
      match soundboard_cooldowns sst !! slug_ with
      | Some lastFire => 5 <= now - lastFire
      | None => True
      end) /\
     (soundboard_cooldowns sst !! slug_ = None ->
      play_sound slug_ by_ now sst =
        Returned (Some (Soundboard.make_payload snd_ by_))
          {| soundboard_lock := false;
             soundboard_sounds := soundboard_sounds sst;
             soundboard_cooldowns := <[slug_ := now]> (soundboard_cooldowns sst) |}
          [soundboard_play (Soundboard.make_payload snd_ by_);
           log_event_soundboard by_ slug_])) /\
  (15 <= now ->
     (granted (trigger_chaos cslug cby now cst) = true <->
      match chaos_cooldown cst !! global_key with
      | Some lastFire => 15 <= now - lastFire
      | None => True
      end) /\
     (chaos_cooldown cst !! global_key = None ->
      trigger_chaos cslug cby now cst =
        Returned (Some (Chaos.make_payload cslug p cby))
          {| chaos_lock := false;
             chaos_cooldown := <[global_key := now]> (chaos_cooldown cst) |}
          [chaos_trigger (Chaos.make_payload cslug p cby);
           log_event_chaos cby cslug])).
Proof.
  intros last_s last_c.
  assert (Es : granted (play_sound slug_ by_ now sst) = true <-> 5 <= now - last_s).
  { rewrite play_sound_eq, Hsl, Hs. fold last_s. unfold SOUNDBOARD_COOLDOWN_SEC.
    destruct (Qlt_le_dec _ _); simpl; split; intros; try done; lra. }
  assert (Ec : granted (trigger_chaos cslug cby now cst) = true <-> 15 <= now - last_c).
  { rewrite trigger_chaos_eq, Hcl, Hc. fold last_c. unfold CHAOS_COOLDOWN_SEC.
    destruct (Qlt_le_dec _ _); simpl; split; intros; try done; lra. }
  assert (Os : 5 <= now - last_s ->
     play_sound slug_ by_ now sst =
       Returned (Some (Soundboard.make_payload snd_ by_))
         {| soundboard_lock := false;
            soundboard_sounds := soundboard_sounds sst;
            soundboard_cooldowns := <[slug_ := now]> (soundboard_cooldowns sst) |}
         [soundboard_play (Soundboard.make_payload snd_ by_);
          log_event_soundboard by_ slug_]).
  { intros H. rewrite (play_sound_open slug_ by_ now sst snd_ Hsl Hs H).
    unfold Soundboard.set_cooldown. by rewrite Hsl. }
  assert (Oc : 15 <= now - last_c ->
     trigger_chaos cslug cby now cst =
       Returned (Some (Chaos.make_payload cslug p cby))
         {| chaos_lock := false;
            chaos_cooldown := <[global_key := now]> (chaos_cooldown cst) |}
         [chaos_trigger (Chaos.make_payload cslug p cby);
          log_event_chaos cby cslug]).
  { intros H. rewrite (trigger_chaos_open cslug cby now cst p Hcl Hc H).
    unfold Chaos.set_cooldown. by rewrite Hcl. }
  split; [exact Es |]. split; [exact Os |].
  split; [intros H; by apply play_sound_closed |].
  split; [exact Ec |]. split; [exact Oc |].
  split; [intros H; by apply trigger_chaos_closed |].
  split.
  { intros Hnone. rewrite Es. subst last_s. rewrite Hnone. simpl.
    split; intros; lra. }
  split.
  { intros Hnone. rewrite Ec. subst last_c. rewrite Hnone. simpl.
    split; intros; lra. }
  split.
  - intros Hnow. split.
    + rewrite Es. subst last_s.
      destruct (soundboard_cooldowns sst !! slug_) as [lastFire |]; simpl;
        [reflexivity | split; intros; [exact I | lra]].
    + intros Hnone. apply Os. subst last_s. rewrite Hnone. simpl. lra.
  - intros Hnow. split.
    + rewrite Ec. subst last_c.
      destruct (chaos_cooldown cst !! global_key) as [lastFire |]; simpl;
        [reflexivity | split; intros; [exact I | lra]].
    + intros Hnone. apply Oc. subst last_c. rewrite Hnone. simpl. lra.
Qed.

Lemma cooldown_gate_admission_witness :
  soundboard_lock board0 = false /\
  soundboard_sounds board0 !! py "airhorn" = Some airhorn /\
  chaos_lock chaos0 = false /\
  CHAOS_PRESETS !! py "disco" = Some (mk "Disco Mode" [0x1FAA9%N] 8000 "disco" "Flashing rainbow lights!") /\
  5 <= 1700000000 /\
  15 <= 1700000000 /\
  soundboard_cooldowns board0 !! py "airhorn" = None /\
  chaos_cooldown chaos0 !! global_key = None /\
  granted (play_sound (py "airhorn") (py "Dashboard") 1700000000 board0) = true /\
  granted (trigger_chaos (py "disco") (py "Dashboard") 1700000000 chaos0) = true.
Proof.
  assert (H1 : soundboard_lock board0 = false) by reflexivity.
  assert (H2 : soundboard_sounds board0 !! py "airhorn" = Some airhorn)
    by (vm_compute; reflexivity).
  assert (H3 : chaos_lock chaos0 = false) by reflexivity.
  assert (H4 : CHAOS_PRESETS !! py "disco" =
               Some (mk "Disco Mode" [0x1FAA9%N] 8000 "disco" "Flashing rainbow lights!"))
    by (vm_compute; reflexivity).
  assert (H5 : 5 <= 1700000000) by (vm_compute; discriminate).
  assert (H6 : 15 <= 1700000000) by (vm_compute; discriminate).
  assert (H7 : soundboard_cooldowns board0 !! py "airhorn" = None)
    by (vm_compute; reflexivity).
  assert (H8 : chaos_cooldown chaos0 !! global_key = None)
    by (vm_compute; reflexivity).
  do 8 (split; [assumption |]).
  pose proof (cooldown_gate_admission (py "airhorn") (py "Dashboard") 1700000000
                board0 airhorn (py "disco") (py "Dashboard") chaos0 _ H1 H2 H3 H4)
    as (_ & _ & _ & _ & _ & _ & _ & _ & Hs & Hc).
  destruct (Hs H5) as [_ Es]. destruct (Hc H6) as [_ Ec].
  rewrite (Es H7), (Ec H8). split; reflexivity.
Defined.

(** C5: two requests for the same key at the same time are never both
    admitted. If [play_sound] admits a slug at time [t], a second call for the
    slug at [t] is rejected and changes nothing; likewise for two
    [trigger_chaos] calls at [t], whichever presets they name. *)
Theorem same_time_second_rejected
  (slug_ by1 by2 : pystr) (t : Q) (sst sst1 : Soundboard.state)
  (pl : Soundboard.payload) (out : list Soundboard.event)
  (c1 c2 cby1 cby2 : pystr) (cst cst1 : Chaos.state)
  (cpl : Chaos.payload) (cout : list Chaos.event) :
  (play_sound slug_ by1 t sst = Returned (Some pl) sst1 out ->
   play_sound slug_ by2 t sst1 = Returned None sst1 [] /\
   granted (play_sound slug_ by2 t sst1) = false) /\
  (trigger_chaos c1 cby1 t cst = Returned (Some cpl) cst1 cout ->
   trigger_chaos c2 cby2 t cst1 = Returned None cst1 [] /\
   granted (trigger_chaos c2 cby2 t cst1) = false).
Proof.
  split.
  - intros H. apply play_sound_granted_inv in H as (Hl & _ & ->).
    assert (E : play_sound slug_ by2 t (Soundboard.set_cooldown slug_ t sst) =
                Returned None (Soundboard.set_cooldown slug_ t sst) []).
    { apply play_sound_closed; [exact Hl |]. simpl.
      rewrite lookup_insert_eq. unfold SOUNDBOARD_COOLDOWN_SEC. simpl. lra. }
    by rewrite E.
  - intros H. apply trigger_chaos_granted_inv in H as (Hl & _ & ->).
    assert (E : trigger_chaos c2 cby2 t (Chaos.set_cooldown global_key t cst) =
                Returned None (Chaos.set_cooldown global_key t cst) []).
    { apply trigger_chaos_closed; [exact Hl |]. simpl.
      rewrite lookup_insert_eq. unfold CHAOS_COOLDOWN_SEC. simpl. lra. }
    by rewrite E.
Qed.

Lemma same_time_second_rejected_witness :
  granted (play_sound (py "airhorn") (py "Dashboard") 1700000000 board0) = true /\
  granted (play_sound (py "airhorn") (py "Chat: bob") 1700000000
              (state_after (play_sound (py "airhorn") (py "Dashboard") 1700000000 board0)))
    = false /\
  granted (trigger_chaos (py "disco") (py "Dashboard") 1700000000 chaos0) = true /\
  granted (trigger_chaos (py "disco") (py "Chat: bob") 1700000000
              (state_after (trigger_chaos (py "disco") (py "Dashboard") 1700000000 chaos0)))
    = false.
Proof.
  split; [vm_compute; reflexivity |]. split.
  - refine (proj2 (proj1 (same_time_second_rejected (py "airhorn") (py "Dashboard")
      (py "Chat: bob") 1700000000 board0 _ _ _
      [] [] [] [] chaos0 chaos0
      (Chaos.make_payload [] (mk "" [] 0 "" "") []) []) _)).
    vm_compute. reflexivity.
  - split; [vm_compute; reflexivity |].
    refine (proj2 (proj2 (same_time_second_rejected [] [] [] 1700000000 board0 board0
      (Soundboard.make_payload airhorn []) []
      (py "disco") (py "disco") (py "Dashboard") (py "Chat: bob") chaos0 _ _ _) _)).
    vm_compute. reflexivity.
Defined.

(** C6: all chaos presets share one cooldown key. Once [trigger_chaos] has
    admitted any preset at time [t], every request for any preset at a time
    [t'] with [t' - t < 15] is rejected and changes nothing, whatever
    requests were served in between. Sound slugs have a key each: admitting
    slug [a] leaves the record of another slug [b] as it was, so the outcome
    of a request for [b] is the one it would have had without it. *)
Theorem chaos_shared_sounds_independent
  (c1 by1 : pystr) (t : Q) (cst cst1 : Chaos.state)
  (cpl : Chaos.payload) (cout : list Chaos.event)
  (a b aby : pystr) (ta : Q) (sst sst1 : Soundboard.state)
  (pl : Soundboard.payload) (out : list Soundboard.event) :
  (trigger_chaos c1 by1 t cst = Returned (Some cpl) cst1 cout ->
   forall (between : list Chaos.request) (c2 by2 : pystr) (t' : Q),
     t' - t < 15 ->
     trigger_chaos c2 by2 t' (serve between cst1) =
       Returned None (serve between cst1) []) /\
  (a <> b ->
   play_sound a aby ta sst = Returned (Some pl) sst1 out ->
   soundboard_cooldowns sst1 !! b = soundboard_cooldowns sst !! b /\
   forall (bby : pystr) (tb : Q),
     granted (play_sound b bby tb sst1) = granted (play_sound b bby tb sst)).
Proof.
  split.
  - intros H between c2 by2 t' Ht.
    apply trigger_chaos_granted_inv in H as (Hl & _ & ->).
    apply trigger_chaos_closed.
    + rewrite serve_lock. exact Hl.
    + pose proof (serve_last_mono between (Chaos.set_cooldown global_key t cst)) as Hm.
      cbn [Chaos.set_cooldown chaos_cooldown] in Hm. rewrite lookup_insert_eq in Hm.
      simpl in Hm. unfold CHAOS_COOLDOWN_SEC. lra.
  - intros Hab H. apply play_sound_granted_inv in H as (Hl & _ & ->).
    assert (Hb : soundboard_cooldowns (Soundboard.set_cooldown a ta sst) !! b =
                 soundboard_cooldowns sst !! b).
    { simpl. by rewrite lookup_insert_ne. }
    split; [exact Hb |]. intros bby tb.
    rewrite !play_sound_eq, Hb. simpl. rewrite Hl.
    destruct (soundboard_sounds sst !! b); [| reflexivity].
    destruct (Qlt_le_dec _ _); reflexivity.
Qed.

Lemma chaos_shared_sounds_independent_witness :
  granted (trigger_chaos (py "disco") (py "Dashboard") 1700000000 chaos0) = true /\
  trigger_chaos (py "earthquake") (py "Chat: bob") 1700000014
    (state_after (trigger_chaos (py "disco") (py "Dashboard") 1700000000 chaos0)) =
  Returned None
    (state_after (trigger_chaos (py "disco") (py "Dashboard") 1700000000 chaos0)) [] /\
  granted (play_sound (py "airhorn") (py "Dashboard") 1700000000 board0) = true /\
  granted (play_sound (py "sad-trombone") (py "Dashboard") 1700000000
              (state_after (play_sound (py "airhorn") (py "Dashboard") 1700000000 board0)))
  = granted (play_sound (py "sad-trombone") (py "Dashboard") 1700000000 board0).
Proof.
  split; [vm_compute; reflexivity |]. split.
  - refine (proj1 (chaos_shared_sounds_independent (py "disco") (py "Dashboard")
      1700000000 chaos0 _ _ _ [] [] [] 0 board0 board0
      (Soundboard.make_payload airhorn []) []) _ [] (py "earthquake") (py "Chat: bob")
      1700000014 _).
    + vm_compute. reflexivity.
    + vm_compute. reflexivity.
  - split; [vm_compute; reflexivity |].
    refine (proj2 (proj2 (chaos_shared_sounds_independent [] [] 0 chaos0 chaos0
      (Chaos.make_payload [] (mk "" [] 0 "" "") []) []
      (py "airhorn") (py "sad-trombone") (py "Dashboard") 1700000000 board0 _ _ _)
      _ _) (py "Dashboard") 1700000000).
    + vm_compute. discriminate.
    + vm_compute. reflexivity.
Defined.

End CooldownGate.

(** ** Facts about strings *)

Module PyFacts.

Lemma startswith_spec (w s : pystr) :
  startswith w s = true <-> exists post, s = w ++ post.
Proof.
  revert s. induction w as [| a w IH]; intros s; simpl.
  - split; [intros _; by exists s | done].
  - destruct s as [| b s].
    + split; [done | intros [post H]; discriminate].
    + rewrite andb_true_iff, N.eqb_eq, IH. split.
      * intros [-> [post ->]]. by exists post.
      * intros [post [= -> ->]]. split; [done | by exists post].
Qed.

Lemma contains_spec (w s : pystr) :
  contains w s = true <-> exists pre post, s = pre ++ w ++ post.
Proof.
  induction s as [| b s IH]; simpl.
  - rewrite orb_false_r, startswith_spec. split.
    + intros [post H]. by exists [], post.
    + intros [pre [post H]]. destruct pre; [by exists post |]. discriminate.
  - rewrite orb_true_iff, startswith_spec, IH. split.
    + intros [[post H] | [pre [post ->]]].
      * by exists [], post.
      * by exists (b :: pre), post.
    + intros [[| c pre] [post H]].
      * left. by exists post.
      * right. injection H as -> ->. by exists pre, post.
Qed.

Lemma deque_append_suffix {A} (maxlen : nat) (x : A) (d seen : list A) (pre : list A) :
  d = pre ++ seen -> (length seen < maxlen)%nat ->
  exists pre', deque_append maxlen x d = pre' ++ (seen ++ [x]).
Proof.
  intros -> Hlen. unfold deque_append.
  rewrite <- (assoc_L (++)).
  rewrite drop_app_le.
  - by eexists.
  - rewrite !length_app. simpl. lia.
Qed.

End PyFacts.

(** ** The clip-spam detector *)

Module ClipSpec.
Import ClipDetector PyFacts.

Local Open Scope Q_scope.

(** Sixteen chat lines holding a trigger word, half a second apart. *)
Definition burst16 : list (pystr * Q) :=
  map (fun i : nat => (py "POGGERS that was a CLIP", 1700000000 + inject_Z (Z.of_nat i) * (1 # 2)))
    (seq 0 16).

(** The detector after fifteen arrivals within seven seconds, none of which
    has fired. *)
Definition hot : state :=
  {| clip_message_times := map snd (take 15 burst16); last_clip_time := 0 |}.

#[local] Instance Qlt_decision (x y : Q) : Decision (x < y).
Proof. destruct (Qlt_le_dec x y); [left | right]; [assumption | lra]. Defined.

Lemma has_trigger_spec (message_text : pystr) :
  has_trigger message_text = true <->
  exists word pre post,
    word ∈ CLIP_TRIGGER_WORDS /\ message_text = pre ++ word ++ post.
Proof.
  unfold has_trigger. rewrite existsb_exists. split.
  - intros (word & Hin & Hc). apply contains_spec in Hc as (pre & post & ->).
    exists word, pre, post. split; [by apply list_elem_of_In | done].
  - intros (word & pre & post & Hin & ->). exists word. split.
    + by apply list_elem_of_In.
    + apply contains_spec. by exists pre, post.
Qed.

Lemma has_trigger_spec' (message_text word pre post : pystr) :
  word ∈ CLIP_TRIGGER_WORDS -> message_text = pre ++ word ++ post ->
  has_trigger message_text = true.
Proof. intros Hw Heq. apply has_trigger_spec. by exists word, pre, post. Qed.

(** The count of the source is the number of recorded times newer than the
    cutoff. *)
Lemma recent_count_filter (now : Q) (st : state) :
  recent_count now st =
  length (filter (fun t => now - 10 < t) (clip_message_times st)).
Proof.
  unfold recent_count, CLIP_WINDOW_SECONDS.
  induction (clip_message_times st) as [| t ts IH]; [reflexivity |].
  simpl. rewrite filter_cons.
  destruct (Qlt_le_dec (now - 10) t) as [Hlt | Hle].
  - rewrite decide_True by exact Hlt. simpl. by rewrite IH.
  - rewrite decide_False by lra. exact IH.
Qed.

Lemma recent_count_ge (now : Q) (st : state) (pre seen : list Q) :
  clip_message_times st = pre ++ seen ->
  Forall (fun s => now - 10 < s) seen ->
  (length seen <= recent_count now st)%nat.
Proof.
  intros Hb Hseen. rewrite recent_count_filter, Hb, filter_app, length_app.
  assert (E : filter (fun t => now - 10 < t) seen = seen).
  { clear Hb. induction Hseen as [| s seen Hs _ IH]; [reflexivity |].
    rewrite filter_cons, decide_True by exact Hs. by rewrite IH. }
  rewrite E. lia.
Qed.

Lemma check_quiet (message_text : pystr) (now : Q) (st : state) :
  now - last_clip_time st < 30 -> check_clip_trigger message_text now st = Done st.
Proof.
  intros H. unfold check_clip_trigger.
  destruct (Qlt_le_dec _ _); [reflexivity | lra].
Qed.

(** The last-action time never goes back. *)
Lemma check_last_mono (message_text : pystr) (now : Q) (st : state) :
  last_clip_time st <= last_clip_time (state_of (check_clip_trigger message_text now st)).
Proof.
  unfold check_clip_trigger.
  destruct (Qlt_le_dec _ _) as [| Hle]; [simpl; lra |].
  destruct (negb _); [simpl; lra |].
  destruct (_ <=? _)%nat; simpl; lra.
Qed.

Lemma observe_all_last_mono (msgs : list (pystr * Q)) (st : state) :
  last_clip_time st <= last_clip_time (observe_all msgs st).
Proof.
  revert st. induction msgs as [| [m t] msgs IH]; intros st; simpl; [lra |].
  eapply Qle_trans; [| apply IH]. unfold event_message.
  eapply Qle_trans; [| apply check_last_mono]. simpl. lra.
Qed.

(** During the quiet period after a fire at [t] nothing fires. *)
Lemma quiet_fire_count (msgs : list (pystr * Q)) (t : Q) (st : state) :
  t <= last_clip_time st ->
  Forall (fun '(_, t') => t' - t < 30) msgs ->
  fire_count msgs st = 0%nat.
Proof.
  intros Hl Hq. revert st Hl.
  induction Hq as [| [m t'] msgs Ht _ IH]; intros st Hl; [reflexivity |].
  simpl. unfold event_message. rewrite check_quiet by (simpl; lra).
  simpl. apply IH. simpl. exact Hl.
Qed.

(** A burst inside one 10-second window, met with the quiet period over:
    the detector fires at most once, and once if the burst has 15 messages. *)
Lemma burst_fire_count (msgs : list (pystr * Q)) :
  forall (st : state) (pre seen : list Q) (w0 : Q),
    clip_message_times st = pre ++ seen ->
    (length seen < 15)%nat ->
    (length seen + length msgs <= 100)%nat ->
    Forall (fun s => w0 <= s) seen ->
    Forall (fun '(m, t) => has_trigger m = true /\ w0 <= t /\ t < w0 + 10 /\
                           30 <= t - last_clip_time st) msgs ->
    (fire_count msgs st <= 1)%nat /\
    (15 <= length seen + length msgs -> fire_count msgs st = 1)%nat.
Proof.
  induction msgs as [| [m t] msgs IH]; intros st pre seen w0 Hb Hs Hlen Hseen Hm.
  - simpl in *. split; lia.
  - apply Forall_cons in Hm as [(Htrig & Hlo & Hhi & Hq) Hm].
    destruct (deque_append_suffix 100 t (clip_message_times st) seen pre Hb)
      as [pre' Hb']; [lia |].
    set (st1 := {| clip_message_times := deque_append 100 t (clip_message_times st);
                   last_clip_time := last_clip_time st |}).
    assert (Hcount : (length (seen ++ [t]) <= recent_count t st1)%nat).
    { apply (recent_count_ge t st1 pre'); [exact Hb' |].
      apply Forall_app. split.
      - eapply Forall_impl; [exact Hseen |]. simpl. intros s Hs'. lra.
      - apply Forall_singleton. lra. }
    rewrite length_app in Hcount. simpl in Hcount, Hlen.
    cbn [fire_count]. unfold event_message. fold st1.
    unfold check_clip_trigger. cbn [last_clip_time st1].
    destruct (Qlt_le_dec (t - last_clip_time st) 30) as [Hlt | _]; [lra |].
    rewrite Htrig. cbn [negb].
    destruct (CLIP_SPAM_THRESHOLD <=? recent_count t st1)%nat eqn:Hthr.
    + cbn [fires state_of].
      rewrite (quiet_fire_count msgs t); [split; lia | simpl; lra |].
      eapply Forall_impl; [exact Hm |]. intros [m' t'] (_ & _ & Hhi' & _). lra.
    + cbn [fires state_of]. apply Nat.leb_gt in Hthr. unfold CLIP_SPAM_THRESHOLD in Hthr.
      destruct (IH st1 pre' (seen ++ [t]) w0) as [H1 H2].
      * exact Hb'.
      * rewrite length_app. simpl. lia.
      * rewrite length_app. simpl. lia.
      * apply Forall_app. split; [exact Hseen | by apply Forall_singleton].
      * exact Hm.
      * rewrite length_app in H2. simpl in H2. simpl. split; [lia |]. intros H15. apply H2. lia.
Qed.

(** C2: [check_clip_trigger(message_text, now)] fires, that is, it reaches
    the clip request and then emits [auto_clip], if and only if (a) at least
    30 seconds lie between [now] and the last-action time, (b) the message
    holds one of the trigger words of [CLIP_TRIGGER_WORDS] as a
    case-sensitive substring, and (c) at least 15 of the recorded arrival
    times are strictly newer than [now - 10]. When it does not fire it
    leaves the state alone and emits nothing. *)
Theorem check_clip_trigger_fires_iff (message_text : pystr) (now : Q) (st : state) :
  (fires (check_clip_trigger message_text now st) = true <->
   30 <= now - last_clip_time st /\
   (exists word pre post,
      word ∈ CLIP_TRIGGER_WORDS /\ message_text = pre ++ word ++ post) /\
   (15 <= length (filter (fun t => (now - 10 < t)%Q) (clip_message_times st)))%nat) /\
  (fires (check_clip_trigger message_text now st) = true ->
   exists count,
     check_clip_trigger message_text now st =
       CallCreateClip (set_last_clip_time now st) (after_clip message_text count) /\
     forall clip_result, exists p id,
       after_clip message_text count clip_result =
         [auto_clip p; log_event_auto_clip count id]) /\
  (fires (check_clip_trigger message_text now st) = false ->
   check_clip_trigger message_text now st = Done st).
Proof.
  rewrite <- has_trigger_spec, <- recent_count_filter.
  unfold check_clip_trigger.
  destruct (Qlt_le_dec _ _) as [Hlt | Hle].
  { split; [| split]; [| done | done]. simpl. split; [done | intros [H _]; lra]. }
  destruct (has_trigger message_text) eqn:Htrig; cbn [negb].
  2: { split; [| split]; [| done | done]. simpl. split; [done | intros (_ & H & _); done]. }
  destruct (CLIP_SPAM_THRESHOLD <=? recent_count now st)%nat eqn:Hthr.
  - apply Nat.leb_le in Hthr. unfold CLIP_SPAM_THRESHOLD in Hthr.
    split; [| split]; [| | done].
    + simpl. split; [intros _; by repeat split | done].
    + intros _. eexists. split; [reflexivity |].
      intros clip_result. unfold after_clip. by eexists _, _.
  - apply Nat.leb_gt in Hthr. unfold CLIP_SPAM_THRESHOLD in Hthr.
    split; [| split]; [| done | done].
    simpl. split; [done | intros (_ & _ & H); lia].
Qed.

Lemma check_clip_trigger_fires_iff_witness :
  fires (check_clip_trigger (py "LUL") 1700000007 hot) = true /\
  fires (check_clip_trigger (py "lol") 1700000007 hot) = false.
Proof.
  split.
  - apply (proj1 (check_clip_trigger_fires_iff (py "LUL") 1700000007 hot)).
    split; [vm_compute; discriminate |]. split.
    + exists (py "LUL"), [], []. split; [| reflexivity].
      unfold CLIP_TRIGGER_WORDS. set_solver.
    + vm_compute. lia.
  - destruct (fires (check_clip_trigger (py "lol") 1700000007 hot)) eqn:E;
      [| reflexivity].
    apply (proj1 (check_clip_trigger_fires_iff (py "lol") 1700000007 hot)) in E
      as (_ & (word & pre & post & Hw & Heq) & _).
    apply has_trigger_spec' in Heq; [discriminate Heq | exact Hw].
Defined.

(** C3: when the detector fires at time [t], the last-action time is already
    [t] in the state that holds while [create_twitch_clip] is being called,
    and from that state on, whatever messages are handled in between, no
    message observed at a time [t'] with [t' - t < 30] fires. In particular a
    burst of 15 or more (here up to 100) trigger-word messages inside one
    10-second window, each at least 30 seconds after the last fire, fires
    exactly once: a 16th such message in the window does not fire again. *)
Theorem clip_fires_once
  (message_text : pystr) (t : Q) (st at_call : state)
  (resume : option clip -> list event)
  (st0 : state) (burst : list (pystr * Q)) (w0 : Q) :
  (check_clip_trigger message_text t st = CallCreateClip at_call resume ->
   last_clip_time at_call = t /\
   forall (between : list (pystr * Q)) (content : pystr) (t' : Q),
     t' - t < 30 ->
     fires (event_message content t' (observe_all between at_call)) = false /\
     fires (check_clip_trigger content t' (observe_all between at_call)) = false) /\
  ((15 <= length burst <= 100)%nat ->
   Forall (fun '(m, t1) => has_trigger m = true /\ w0 <= t1 /\ t1 < w0 + 10 /\
                           30 <= t1 - last_clip_time st0) burst ->
   fire_count burst st0 = 1%nat).
Proof.
  split.
  - intros H.
    assert (Hat : at_call = set_last_clip_time t st).
    { unfold check_clip_trigger in H.
      destruct (Qlt_le_dec _ _); [discriminate |].
      destruct (negb _); [discriminate |].
      destruct (_ <=? _)%nat; [| discriminate]. by injection H as <- _. }
    subst at_call. split; [reflexivity |].
    intros between content t' Ht'.
    pose proof (observe_all_last_mono between (set_last_clip_time t st)) as Hm.
    simpl in Hm. split.
    + unfold event_message. by rewrite check_quiet by (simpl; lra).
    + by rewrite check_quiet by lra.
  - intros [H15 H100] Hb.
    destruct (burst_fire_count burst st0 (clip_message_times st0) [] w0) as [_ H].
    + by rewrite app_nil_r.
    + simpl. lia.
    + simpl. lia.
    + constructor.
    + exact Hb.
    + apply H. simpl. lia.
Qed.

Lemma clip_fires_once_witness :
  fire_count burst16 initial = 1%nat /\
  fire_count (take 15 burst16) initial = 1%nat /\
  fires (check_clip_trigger (py "LUL") 1700000007 hot) = true /\
  fires (event_message (py "LUL") 1700000008
           (observe_all [] (set_last_clip_time 1700000007 hot))) = false.
Proof.
  assert (Hb : Forall (fun '(m, t1) => has_trigger m = true /\ 1700000000 <= t1 /\
                         t1 < 1700000000 + 10 /\ 30 <= t1 - last_clip_time initial)
                 burst16).
  { unfold burst16. apply Forall_forall. intros [m t1] Hin.
    apply list_elem_of_In, in_map_iff in Hin as (i & [= <- <-] & Hi).
    apply in_seq in Hi. split; [vm_compute; reflexivity |].
    assert (0 <= inject_Z (Z.of_nat i) /\ inject_Z (Z.of_nat i) <= 15) as [H0 H1].
    { split.
      - change 0 with (inject_Z 0). rewrite <- Zle_Qle. lia.
      - change 15 with (inject_Z 15). rewrite <- Zle_Qle. lia. }
    simpl last_clip_time. generalize dependent (inject_Z (Z.of_nat i)).
    intros q Hq0 Hq1. repeat split; lra. }
  split; [| split; [| split]].
  - apply (proj2 (clip_fires_once [] 0 initial initial (fun _ => []) initial burst16
                    1700000000)); [| exact Hb].
    simpl. lia.
  - apply (proj2 (clip_fires_once [] 0 initial initial (fun _ => []) initial
                    (take 15 burst16) 1700000000)); [| by apply Forall_take].
    simpl. lia.
  - vm_compute. reflexivity.
  - apply (proj1 (clip_fires_once (py "LUL") 1700000007 hot
                    (set_last_clip_time 1700000007 hot)
                    (after_clip (py "LUL") 15) initial [] 0)).
    + vm_compute. reflexivity.
    + vm_compute. reflexivity.
Defined.

End ClipSpec.

(** ** The goal tracker *)

Module GoalsSpec.
Import Goals.

(** Visiting goals none of which has the wanted id does nothing. *)
Lemma increment_goal_from_unknown (goal_id : pystr) (amount : Z) (gs : list goal) :
  Forall (fun g => id g <> goal_id) gs ->
  forall (i : nat) (st : state),
    increment_goal_from i gs goal_id amount st = Returned tt st [].
Proof.
  induction 1 as [| g gs Hg _ IH]; intros i st; [reflexivity |].
  simpl. rewrite decide_False by exact Hg.
  unfold bind at 1. simpl. by rewrite IH.
Qed.

Lemma update_goal_from_unknown `{Builtins} (goal_id : pystr)
  (data : gmap pystr pyval) (gs : list goal) :
  Forall (fun g => id g <> goal_id) gs ->
  forall (i : nat) (st : state),
    update_goal_from i gs goal_id data st = Returned None st [].
Proof.
  induction 1 as [| g gs Hg _ IH]; intros i st; [reflexivity |].
  simpl. by rewrite decide_False by exact Hg.
Qed.

(** With an id that no goal has, [increment_goal] changes no goal and still
    sends [goals_update] with the list as it stands. *)
Lemma increment_goal_unknown (goal_id : pystr) (amount : Z) (st : state) :
  goals_lock st = false ->
  Forall (fun g => id g <> goal_id) (stream_goals st) ->
  increment_goal goal_id amount st =
    Returned tt st [goals_update (stream_goals st)].
Proof.
  destruct st as [l gs]; simpl; intros -> Hgs.
  unfold increment_goal, bind, with_lock, acquire, get_goals, with_lock, acquire, get.
  simpl. rewrite increment_goal_from_unknown by exact Hgs. reflexivity.
Qed.

(** With an id that no goal has, [update_goal] returns [None], changes
    nothing and sends nothing. *)
Lemma update_goal_unknown `{Builtins} (goal_id : pystr)
  (data : gmap pystr pyval) (st : state) :
  goals_lock st = false ->
  Forall (fun g => id g <> goal_id) (stream_goals st) ->
  update_goal goal_id data st = Returned None st [].
Proof.
  destruct st as [l gs]; simpl; intros -> Hgs.
  unfold update_goal, bind, with_lock, acquire, get. simpl.
  rewrite update_goal_from_unknown by exact Hgs. reflexivity.
Qed.

(** [get_goals] called by the thread that holds [goals_lock] never returns. *)
Lemma get_goals_held (st : state) :
  goals_lock st = true -> get_goals st = Blocked st [].
Proof. intros H. unfold get_goals, with_lock, acquire. simpl. by rewrite H. Qed.

(** A call that sends nothing and does not come back with a result. *)
Definition stuck {A} (o : outcome event state A) : Prop :=
  match o with
  | Returned _ _ _ => False
  | Raised _ s out => out = [] /\ goals_lock s = true
  | Blocked s out => out = [] /\ goals_lock s = true
  end.

Lemma update_goal_found_stuck `{Builtins} (i : nat) (data : gmap pystr pyval)
  (st : state) :
  goals_lock st = true -> stuck (update_goal_found i data st).
Proof.
  intros Hl. unfold update_goal_found.
  destruct (data !! py "current") as [v1 |]; [destruct (py_int v1) |];
  (destruct (data !! py "target") as [v2 |]; [destruct (py_int v2) |]);
  destruct (data !! py "title") as [v3 |];
  destruct (data !! py "enabled") as [v4 |];
  unfold bind, lift, modify, raise, ret; simpl;
  try (split; [reflexivity | exact Hl]);
  rewrite get_goals_held by exact Hl; simpl; (split; [reflexivity | exact Hl]).
Qed.

Lemma update_goal_from_stuck `{Builtins} (goal_id : pystr)
  (data : gmap pystr pyval) (gs : list goal) :
  Exists (fun g => id g = goal_id) gs ->
  forall (i : nat) (st : state),
    goals_lock st = true -> stuck (update_goal_from i gs goal_id data st).
Proof.
  induction gs as [| g gs IH]; intros Hex i st Hl; [by apply Exists_nil in Hex |].
  simpl. destruct (decide (id g = goal_id)) as [_ | Hne].
  - by apply update_goal_found_stuck.
  - apply Exists_cons in Hex as [Hex | Hex]; [done |]. by apply IH.
Qed.

(** For an id in the catalog, [update_goal] never gets to send
    [goals_update] or to return the goal: it ends in an exception from
    [int], or waits for ever in [get_goals] on the lock it holds. *)
Lemma update_goal_known_stuck `{Builtins} (goal_id : pystr)
  (data : gmap pystr pyval) (st : state) :
  goals_lock st = false ->
  Exists (fun g => id g = goal_id) (stream_goals st) ->
  match update_goal goal_id data st with
  | Returned _ _ _ => False
  | Raised _ s out => out = []
  | Blocked s out => out = [] /\ goals_lock s = true
  end.
Proof.
  destruct st as [l gs]; simpl; intros -> Hex.
  unfold update_goal, with_lock, acquire. simpl. unfold bind at 1. simpl.
  pose proof (update_goal_from_stuck goal_id data gs Hex 0
                {| goals_lock := true; stream_goals := gs |} eq_refl) as Hs.
  destruct (update_goal_from 0 gs goal_id data _) as [a s o | e s o | s o];
    simpl in *; [done | by destruct Hs as [-> _] | by destruct Hs as [-> ->]].
Qed.

(** C1, at the input [increment_goal("unknown-id", 5)] on the start-up
    catalog: no goal has that id and every goal is left as it was, but the
    call does publish: one [goals_update] event carrying the unchanged list
    is sent. *)
Theorem increment_goal_unknown_publishes :
  Forall (fun g => id g <> py "unknown-id") (stream_goals initial) /\
  increment_goal (py "unknown-id") 5 initial =
    Returned tt initial [goals_update (stream_goals initial)].
Proof.
  assert (H : Forall (fun g => id g <> py "unknown-id") (stream_goals initial)).
  { repeat constructor; vm_compute; discriminate. }
  split; [exact H |]. by apply increment_goal_unknown.
Qed.

(** C9, on the start-up catalog: with an unknown id [update_goal] returns
    [None], changes nothing and sends nothing; [update_goal("subs",
    {"target": 0})] stores [target = 1] in the goal, then waits for ever in
    [get_goals] for the lock it holds itself: nothing is published and the
    call does not return. *)
Theorem update_goal_subs_target_blocks (B : Builtins) :
  update_goal (py "no-such-goal") {[py "target" := VInt 0]} initial =
    Returned None initial [] /\
  update_goal (py "subs") {[py "target" := VInt 0]} initial =
    Blocked
      {| goals_lock := true;
         stream_goals :=
           [mk "followers" "Follower Goal" 0 50 true;
            mk "subs" "Sub Goal" 0 1 true;
            mk "donations" "Donation Goal" 0 100 false;
            mk "bits" "Bits Goal" 0 5000 false] |}
      [].
Proof. split; vm_compute; reflexivity. Qed.

End GoalsSpec.

(** ** The OBS control facade *)

Module ObsSpec.
Import Obs.

Definition local_cfg (proxy : bool) : config :=
  {| OBS_PROXY_VIA_FEBRUARY11 := proxy;
     FEBRUARY11_API_BASE_URL := py "http://127.0.0.1:3199" |}.






End ObsSpec.

(** ** White space: [split], [join] and [strip] *)

Module TextFacts.

(** A word: a non-empty run without white space. *)
Definition word (w : pystr) : Prop :=
  w <> [] /\ Forall (fun c => isspace c = false) w.

(** A tidy text: every white-space character in it is a space (U+0020)
    that stands between two characters that are not white space. So the
    text neither starts nor ends with white space, and its words are one
    space apart. *)
Definition tidy (s : pystr) : Prop :=
  forall (i : nat) (c : N),
    s !! i = Some c -> isspace c = true ->
    c = 0x20%N /\
    (exists j c', i = S j /\ s !! j = Some c' /\ isspace c' = false) /\
    (exists c', s !! S i = Some c' /\ isspace c' = false).

Lemma rstrip_snoc (s : pystr) (c : N) :
  rstrip (s ++ [c]) = if isspace c then rstrip s else s ++ [c].
Proof.
  induction s as [| a s IH]; simpl.
  - by destruct (isspace c).
  - rewrite IH. destruct (isspace c); [reflexivity |].
    by destruct s.
Qed.

Lemma rstrip_ends_nonspace (s : pystr) (c : N) :
  isspace c = false -> rstrip (s ++ [c]) = s ++ [c].
Proof. intros H. by rewrite rstrip_snoc, H. Qed.

Lemma rstrip_length (s : pystr) : length (rstrip s) <= length s.
Proof.
  induction s as [| a s IH]; simpl; [lia |].
  destruct (rstrip s); [destruct (isspace a) |]; simpl in *; lia.
Qed.

Lemma split_from_words (s : pystr) :
  forall acc : pystr,
    Forall (fun c => isspace c = false) acc -> Forall word (split_from acc s).
Proof.
  induction s as [| c s IH]; intros acc Hacc; simpl.
  - destruct acc as [| a acc]; [constructor |].
    constructor; [| constructor]. by split.
  - destruct (isspace c) eqn:Hc.
    + destruct acc as [| a acc]; [by apply IH |].
      constructor; [by split | by apply IH].
    + apply IH. apply Forall_app. split; [exact Hacc |]. by constructor.
Qed.

Lemma split_words (s : pystr) : Forall word (split s).
Proof. by apply split_from_words. Qed.

Lemma join_cons_cons (sep w w' : pystr) (ws : list pystr) :
  join sep (w :: w' :: ws) = w ++ sep ++ join sep (w' :: ws).
Proof. reflexivity. Qed.

(** A joined list of words starts with a character that is not white
    space. *)
Lemma join_words_head (w : pystr) (ws : list pystr) :
  word w ->
  exists c rest, join (py " ") (w :: ws) = c :: rest /\ isspace c = false.
Proof.
  intros [Hne Hw]. destruct w as [| c w]; [done |].
  apply Forall_cons in Hw as [Hc _].
  destruct ws as [| w' ws]; [by exists c, w |].
  rewrite join_cons_cons. by eexists c, _.
Qed.

Lemma word_lookup (w : pystr) (i : nat) (c : N) :
  word w -> w !! i = Some c -> isspace c = false.
Proof.
  intros [_ Hw] Hi. rewrite Forall_forall in Hw. apply Hw.
  by eapply list_elem_of_lookup_2.
Qed.

Lemma tidy_join (ws : list pystr) : Forall word ws -> tidy (join (py " ") ws).
Proof.
  induction 1 as [| w ws Hw Hws IH]; [intros i c Hi; by destruct i |].
  destruct ws as [| w' ws].
  { intros i c Hi Hc. simpl in Hi.
    rewrite (word_lookup w i c Hw Hi) in Hc. discriminate. }
  rewrite join_cons_cons.
  set (r := join (py " ") (w' :: ws)) in *.
  apply Forall_cons in Hws as [Hw' _].
  destruct (join_words_head w' ws Hw') as (c0 & rest & Hr & Hc0). fold r in Hr.
  intros i c Hi Hc.
  destruct (decide (i < length w)) as [Hlt | Hge].
  { rewrite lookup_app_l in Hi by exact Hlt.
    rewrite (word_lookup w i c Hw Hi) in Hc. discriminate. }
  rewrite lookup_app_r in Hi by lia.
  destruct (i - length w) as [| k] eqn:Hk; simpl in Hi.
  - (* the separator *)
    injection Hi as <-. split; [reflexivity |]. split.
    + destruct Hw as [Hne Hall].
      destruct (length w) as [| n] eqn:Hn; [by destruct w |].
      assert (Hlast : is_Some (w !! n)) by (apply lookup_lt_is_Some; lia).
      destruct Hlast as [c' Hc'].
      exists n, c'. split; [lia |]. split.
      * rewrite lookup_app_l by lia. exact Hc'.
      * eapply (word_lookup w); [by split | exact Hc'].
    + exists c0. split; [| exact Hc0].
      rewrite lookup_app_r by lia.
      replace (S i - length w) with 1 by lia. simpl. by rewrite Hr.
  - (* inside the rest *)
    destruct (IH k c Hi Hc) as (-> & (j & c' & -> & Hj & Hc') & (c'' & Hs & Hc'')).
    split; [reflexivity |]. split.
    + exists (length w + 1 + j), c'. split; [lia |]. split; [| exact Hc'].
      rewrite lookup_app_r by lia.
      replace (length w + 1 + j - length w) with (S j) by lia. exact Hj.
    + exists c''. split; [| exact Hc''].
      rewrite lookup_app_r by lia.
      replace (S i - length w) with (S (S (S j))) by lia. exact Hs.
Qed.

(** A tidy text is what [strip] leaves of it. *)
Lemma tidy_lstrip (s : pystr) : tidy s -> lstrip s = s.
Proof.
  intros Ht. destruct s as [| c s]; [reflexivity |]. simpl.
  destruct (isspace c) eqn:Hc; [| reflexivity].
  destruct (Ht 0 c eq_refl Hc) as (_ & (j & c' & Hj & _) & _). discriminate.
Qed.

Lemma tidy_rstrip (s : pystr) : tidy s -> rstrip s = s.
Proof.
  intros Ht. destruct (decide (s = [])) as [-> | Hne]; [reflexivity |].
  destruct (exists_last Hne) as (s' & c & ->).
  apply rstrip_ends_nonspace.
  destruct (isspace c) eqn:Hc; [| reflexivity].
  destruct (Ht (length s') c) as (_ & _ & (c' & Hs & _)); [| exact Hc |].
  - by rewrite lookup_app_r, Nat.sub_diag by lia.
  - apply lookup_lt_Some in Hs. rewrite length_app in Hs. simpl in Hs. lia.
Qed.

Lemma tidy_strip (s : pystr) : tidy s -> strip s = s.
Proof. intros Ht. unfold strip. by rewrite tidy_lstrip, tidy_rstrip. Qed.

(** Cutting a tidy text after [S k] characters and stripping the end: the
    cut stands, unless it ends on a separating space, which goes. *)
Lemma tidy_take_rstrip (s : pystr) (k : nat) (c : N) :
  tidy s -> s !! k = Some c ->
  rstrip (take (S k) s) = if decide (c = 0x20%N) then take k s else take (S k) s.
Proof.
  intros Ht Hk. rewrite (take_S_r s k c Hk), rstrip_snoc.
  destruct (isspace c) eqn:Hc.
  - destruct (Ht k c Hk Hc) as (-> & (j & c' & -> & Hj & Hc') & _).
    rewrite decide_True by reflexivity.
    rewrite (take_S_r s j c' Hj). by apply rstrip_ends_nonspace.
  - rewrite decide_False; [reflexivity |]. intros ->. discriminate.
Qed.

(** A tidy text cut just after a character that is not white space is
    tidy. *)
Lemma tidy_take (s : pystr) (k : nat) (c : N) :
  tidy s -> s !! k = Some c -> isspace c = false -> tidy (take (S k) s).
Proof.
  intros Ht Hk Hc i ch Hi Hch.
  apply lookup_take_Some in Hi as [Hi Hlt].
  destruct (Ht i ch Hi Hch) as (-> & (j & c' & -> & Hj & Hc') & (c'' & Hs & Hc'')).
  assert (S j <> k) by (intros <-; congruence).
  split; [reflexivity |]. split.
  - exists j, c'. split; [reflexivity |]. split; [| exact Hc'].
    rewrite lookup_take_lt by lia. exact Hj.
  - exists c''. split; [| exact Hc'']. rewrite lookup_take_lt by lia. exact Hs.
Qed.

End TextFacts.

(** ** The subtitle store *)

Module SubtitleSpec.
Import Subtitles TextFacts.

(** A line of 219 letters, a space, and 80 more letters. *)
Definition long_line : pystr :=
  replicate 219 0x61%N ++ [0x20%N] ++ replicate 80 0x62%N.

Section WithBuiltins.
Context {B : Builtins}.

Lemma normalized_tidy (text_ : pyval) : tidy (join (py " ") (split (py_str text_))).
Proof. apply tidy_join, split_words. Qed.

Lemma normalize_subtitle_eq (text_ : pyval) :
  normalize_subtitle text_ =
    let normalized := join (py " ") (split (py_str text_)) in
    if (220 <? length normalized)%nat then rstrip (take 220 normalized)
    else normalized.
Proof.
  unfold normalize_subtitle. by rewrite (tidy_strip _ (normalized_tidy text_)).
Qed.

End WithBuiltins.

(** C8 (amended): with the lock free, [set_subtitle_text] stores, returns
    and publishes the text obtained as follows. The input is normalized: its
    words joined by single spaces, with no white space at either end. A
    normalized text of at most 220 characters is stored as it is, the empty
    string included. A longer one is cut to its first 220 characters and
    white space at the end of the cut is removed: the stored text is the
    first 220 characters when the 220th is not a space, and the first 219
    when it is. The stored text is tidy and has at most 220 characters. *)
Theorem set_subtitle_text_stores
  (B : Builtins) (text_ final_value : pyval) (stamp : pystr) (st : state)
  (Hlock : subtitle_state_lock st = false) :
  let normalized := join (py " ") (split (py_str text_)) in
  let stored := normalize_subtitle text_ in
  let snapshot :=
    {| text := stored; final := py_bool final_value; updated_at := Some stamp |} in
  set_subtitle_text text_ final_value stamp st =
    Returned snapshot
      {| subtitle_state_lock := false; subtitle_state := snapshot;
         subtitle_settings := subtitle_settings st |}
      [subtitle_update snapshot] /\
  tidy normalized /\
  (length normalized <= 220 -> stored = normalized) /\
  (220 < length normalized -> normalized !! 219 <> Some 0x20%N ->
   stored = take 220 normalized) /\
  (220 < length normalized -> normalized !! 219 = Some 0x20%N ->
   stored = take 219 normalized) /\
  (py_str text_ = [] -> stored = []) /\
  tidy stored /\
  length stored <= 220.
Proof.
  intros normalized stored snapshot.
  pose proof (normalized_tidy text_) as Ht. fold normalized in Ht.
  assert (Hst : stored = if (220 <? length normalized)%nat
                         then rstrip (take 220 normalized) else normalized).
  { unfold stored. by rewrite normalize_subtitle_eq. }
  assert (Hcut : 220 < length normalized ->
                 exists c, normalized !! 219 = Some c /\
                   stored = if decide (c = 0x20%N) then take 219 normalized
                            else take 220 normalized).
  { intros Hlen. destruct (lookup_lt_is_Some_2 normalized 219) as [c Hc]; [lia |].
    exists c. split; [exact Hc |].
    rewrite Hst. destruct (Nat.ltb_spec 220 (length normalized)); [| lia].
    by apply tidy_take_rstrip. }
  split; [| split; [exact Ht | split; [| split; [| split; [| split; [| split]]]]]].
  - destruct st as [l ts ss]. simpl in Hlock. subst l. reflexivity.
  - intros Hlen. rewrite Hst.
    destruct (Nat.ltb_spec 220 (length normalized)); [lia | reflexivity].
  - intros Hlen Hns. destruct (Hcut Hlen) as (c & Hc & ->).
    rewrite decide_False; [reflexivity |]. intros ->. by apply Hns.
  - intros Hlen Hsp. destruct (Hcut Hlen) as (c & Hc & ->).
    rewrite Hsp in Hc. injection Hc as <-. by rewrite decide_True.
  - intros He. rewrite Hst. unfold normalized. rewrite He. reflexivity.
  - destruct (Nat.ltb_spec 220 (length normalized)) as [Hlen | Hlen].
    + destruct (Hcut Hlen) as (c & Hc & ->). destruct (decide (c = 0x20%N)) as [-> | Hne].
      * destruct (Ht 219 _ Hc eq_refl) as (_ & (j & c' & [= <-] & Hj & Hc') & _).
        by apply (tidy_take normalized 218 c').
      * apply (tidy_take normalized 219 c); [exact Ht | exact Hc |].
        destruct (isspace c) eqn:Hsp; [| reflexivity].
        by destruct (Ht 219 c Hc Hsp) as (-> & _).
    + rewrite Hst. destruct (Nat.ltb_spec 220 (length normalized)); [lia | exact Ht].
  - rewrite Hst. destruct (Nat.ltb_spec 220 (length normalized)) as [Hlen | Hlen]; [| lia].
    etrans; [apply rstrip_length |]. rewrite length_take. lia.
Qed.

Lemma set_subtitle_text_stores_witness :
  subtitle_state_lock initial = false /\
  normalize_subtitle (B := ascii_builtins) (VStr long_line) =
    take 219 (join (py " ") (split long_line)) /\
  length (normalize_subtitle (B := ascii_builtins) (VStr long_line)) <= 220.
Proof.
  pose proof (set_subtitle_text_stores ascii_builtins (VStr long_line) (VBool true)
                (py "2026-02-11T20:15:00.000000Z") initial eq_refl)
    as (_ & _ & _ & _ & Hcut & _ & _ & Hlen).
  split; [reflexivity |]. split; [| exact Hlen].
  apply Hcut.
  - vm_compute. lia.
  - vm_compute. reflexivity.
Defined.

(** C8 as stated fails: the cut is not a plain truncation. For a line whose
    normalized form has 300 characters, the 220th being a space, the stored
    text is the first 219 characters, not the first 220. *)
Lemma subtitle_cut_drops_trailing_space :
  let normalized := join (py " ") (split (py_str (B := ascii_builtins) (VStr long_line))) in
  let r := set_subtitle_text (B := ascii_builtins) (VStr long_line) (VBool true)
             (py "2026-02-11T20:15:00.000000Z") initial in
  length normalized = 300 /\
  text <$> returned r = Some (replicate 219 0x61%N) /\
  text (subtitle_state (state_after r)) = take 219 normalized /\
  text (subtitle_state (state_after r)) <> take 220 normalized /\
  length (text (subtitle_state (state_after r))) = 219.
Proof.
  split; [vm_compute; reflexivity |].
  split; [vm_compute; reflexivity |].
  split; [vm_compute; reflexivity |].
  split; [| vm_compute; reflexivity].
  intros H. apply (f_equal length) in H. vm_compute in H. discriminate.
Qed.

(** *** The styling invariant *)

(** The defaults of [config.py] with no environment variable set. *)
Definition stock_cfg : config :=
  {| SUBTITLE_DEFAULT_FONT_FAMILY := py "Inter, Segoe UI, sans-serif";
     SUBTITLE_DEFAULT_FONT_SIZE := 56;
     SUBTITLE_DEFAULT_TEXT_COLOR := py "#ffffff";
     SUBTITLE_DEFAULT_BG_COLOR := py "#000000";
     SUBTITLE_DEFAULT_BG_OPACITY := FFin (45 # 100) |}.

(** Two request bodies: one well formed though out of range, one
    malformed in every field. *)
Definition loud : gmap pystr pyval :=
  <[py "font_size_px" := VStr (py "900")]>
  (<[py "text_color" := VStr (py "  #FA0 ")]>
  (<[py "background_opacity" := VFloat (FFin (7 # 2))]> ∅)).

Definition garbage : gmap pystr pyval :=
  <[py "font_size_px" := VStr (py "huge")]>
  (<[py "text_color" := VStr (py "red")]>
  (<[py "background_color" := VInt 0]>
  (<[py "background_opacity" := VNone]> ∅))).

Definition lower_hex_digit (c : N) : Prop :=
  (0x30 <= c <= 0x39)%N \/ (0x61 <= c <= 0x66)%N.

(** A string that matches [^#([0-9a-f]{3}|[0-9a-f]{6})$]. *)
Definition hex_lower_color (v : pyval) : Prop :=
  exists ds, v = VStr (0x23%N :: ds) /\ Forall lower_hex_digit ds /\
             (length ds = 3 \/ length ds = 6).

Definition font_size_ok (v : pyval) : Prop :=
  exists z, v = VInt z /\ (18 <= z <= 140)%Z.

(** A finite float between 0 and 1 that is a whole number of hundredths. *)
Definition opacity_ok (v : pyval) : Prop :=
  exists q, v = VFloat (FFin q) /\ (0 <= q <= 1)%Q /\ exists k : Z, (q == k # 100)%Q.

Definition valid_settings (s : settings) : Prop :=
  font_size_ok (font_size_px s) /\ opacity_ok (background_opacity s) /\
  hex_lower_color (text_color s) /\ hex_lower_color (background_color s).

Lemma round_half_even_bounds (r : Q) (lo hi : Z) :
  (inject_Z lo <= r <= inject_Z hi)%Q -> (lo <= round_half_even r <= hi)%Z.
Proof.
  destruct r as [n d]. unfold Qle, round_half_even. simpl. intros [Hlo Hhi].
  rewrite Z.mul_1_r in Hlo, Hhi.
  set (D := Z.pos d) in *. assert (HD : (0 < D)%Z) by (subst D; lia).
  assert (Hf1 : (lo <= (2 * n + D) / (2 * D))%Z).
  { apply Z.div_le_lower_bound; nia. }
  assert (Hf2 : ((2 * n + D) / (2 * D) < hi + 1)%Z).
  { apply Z.div_lt_upper_bound; nia. }
  destruct (_ && _) eqn:Htie; [| lia].
  apply andb_true_iff in Htie as [Hmod _]. apply Z.eqb_eq in Hmod.
  pose proof (Z.div_mod (2 * n + D) (2 * D) ltac:(lia)) as Hdm.
  rewrite Hmod, Z.add_0_r in Hdm. nia.
Qed.

Lemma clamp_float_unit (f : pyfloat) :
  exists q, Subtitles.clamp_float f (FFin 0) (FFin 1) = FFin q /\ (0 <= q <= 1)%Q.
Proof.
  unfold Subtitles.clamp_float, float_max, float_min.
  destruct f as [| [] | x]; simpl.
  - exists 1%Q. split; [reflexivity | lra].
  - exists 0%Q. split; [reflexivity | lra].
  - exists 1%Q. split; [reflexivity | lra].
  - destruct (Qlt_le_dec x 1) as [H1 | H1]; simpl.
    + destruct (Qlt_le_dec 0 x) as [H0 | H0].
      * exists x. split; [reflexivity | lra].
      * exists 0%Q. split; [reflexivity | lra].
    + exists 1%Q. split; [reflexivity | lra].
Qed.

Lemma lower_hex (c : N) :
  is_hex_digit c = true ->
  lower_hex_digit (if ((0x41 <=? c) && (c <=? 0x5A))%N then (c + 0x20)%N else c).
Proof.
  unfold is_hex_digit, lower_hex_digit. intros H.
  repeat (apply orb_true_iff in H as [H | H]);
    apply andb_true_iff in H as [H1 H2];
    apply N.leb_le in H1; apply N.leb_le in H2.
  - replace ((0x41 <=? c)%N) with false by (symmetry; apply N.leb_gt; lia).
    simpl. lia.
  - replace ((0x41 <=? c)%N) with true by (symmetry; apply N.leb_le; lia).
    replace ((c <=? 0x5A)%N) with false by (symmetry; apply N.leb_gt; lia).
    simpl. lia.
  - replace ((0x41 <=? c)%N) with true by (symmetry; apply N.leb_le; lia).
    replace ((c <=? 0x5A)%N) with true by (symmetry; apply N.leb_le; lia).
    simpl. lia.
Qed.

Lemma hex_color_match_cons (c : N) (ds : pystr) :
  hex_color_match (c :: ds) = true ->
  c = 0x23%N /\ forallb is_hex_digit ds = true /\
  (Nat.eqb (length ds) 3 || Nat.eqb (length ds) 6) = true.
Proof.
  unfold hex_color_match. intros H.
  destruct c as [| p]; [discriminate |].
  repeat (destruct p as [p | p |]; try discriminate).
  apply andb_true_iff in H as [H1 H2]. auto.
Qed.

Lemma sanitize_hex_color_ok (value fallback : pyval) :
  hex_lower_color fallback -> hex_lower_color (sanitize_hex_color value fallback).
Proof.
  intros Hfb. destruct value as [| | | | s | |]; try exact Hfb.
  simpl. destruct (hex_color_match (strip s)) eqn:Hm; [| exact Hfb].
  destruct (strip s) as [| c ds]; [discriminate |].
  apply hex_color_match_cons in Hm as (-> & Hall & Hlen).
  exists (lower ds). split; [reflexivity |]. split.
  - unfold lower. apply Forall_forall. intros c Hc.
    apply list_elem_of_fmap in Hc as (c0 & -> & Hc0).
    apply lower_hex. rewrite forallb_forall in Hall. apply Hall.
    by apply list_elem_of_In.
  - unfold lower. rewrite length_map.
    apply orb_true_iff in Hlen as [H | H]; apply Nat.eqb_eq in H; auto.
Qed.

Section WithBuiltins.
Context {B : Builtins}.

Lemma sanitize_font_size_ok (value fallback : pyval) :
  font_size_ok fallback -> font_size_ok (sanitize_font_size value fallback).
Proof.
  intros Hfb. unfold sanitize_font_size.
  destruct (py_int value) as [z | e]; [| exact Hfb].
  eexists. split; [reflexivity |]. unfold Subtitles.clamp_int. lia.
Qed.

Lemma sanitize_opacity_ok (value fallback : pyval) :
  opacity_ok fallback -> opacity_ok (sanitize_opacity value fallback).
Proof.
  intros Hfb. unfold sanitize_opacity.
  destruct (py_float value) as [f | e]; [| exact Hfb].
  destruct (clamp_float_unit f) as (q & -> & Hq). simpl.
  pose proof (round_half_even_bounds (q * 100) 0 100) as Hk.
  destruct Hk as [Hk0 Hk1].
  { change (inject_Z 0) with 0%Q. change (inject_Z 100) with 100%Q. lra. }
  eexists. split; [reflexivity |]. split.
  - unfold Qle. simpl. lia.
  - by eexists.
Qed.

(** From a free lock both calls return, and leave the lock free. *)
Lemma update_subtitle_settings_eq (data : gmap pystr pyval) (stamp : pystr)
  (st : state) :
  subtitle_state_lock st = false ->
  exists new,
    update_subtitle_settings data stamp st =
      Returned new
        {| subtitle_state_lock := false; subtitle_state := subtitle_state st;
           subtitle_settings := new |}
        [subtitle_settings_event new] /\
    font_size_px new =
      sanitize_font_size
        (default (font_size_px (subtitle_settings st)) (data !! py "font_size_px"))
        (font_size_px (subtitle_settings st)) /\
    text_color new =
      sanitize_hex_color
        (default (text_color (subtitle_settings st)) (data !! py "text_color"))
        (text_color (subtitle_settings st)) /\
    background_color new =
      sanitize_hex_color
        (default (background_color (subtitle_settings st))
           (data !! py "background_color"))
        (background_color (subtitle_settings st)) /\
    background_opacity new =
      sanitize_opacity
        (default (background_opacity (subtitle_settings st))
           (data !! py "background_opacity"))
        (background_opacity (subtitle_settings st)).
Proof.
  destruct st as [l ts ss]. simpl. intros ->.
  eexists. split; [reflexivity |]. simpl. auto.
Qed.

Lemma update_preserves_valid (data : gmap pystr pyval) (stamp : pystr) (st : state) :
  subtitle_state_lock st = false ->
  valid_settings (subtitle_settings st) ->
  subtitle_state_lock (state_after (update_subtitle_settings data stamp st)) = false /\
  valid_settings
    (subtitle_settings (state_after (update_subtitle_settings data stamp st))).
Proof.
  intros Hl (Hf & Ho & Ht & Hb).
  destruct (update_subtitle_settings_eq data stamp st Hl)
    as (new & -> & Ef & Et & Eb & Eo).
  simpl. split; [reflexivity |]. unfold valid_settings.
  rewrite Ef, Et, Eb, Eo.
  auto using sanitize_font_size_ok, sanitize_opacity_ok, sanitize_hex_color_ok.
Qed.

Lemma serve_preserves_valid (updates : list (gmap pystr pyval * pystr)) (st : state) :
  subtitle_state_lock st = false ->
  valid_settings (subtitle_settings st) ->
  subtitle_state_lock (serve updates st) = false /\
  valid_settings (subtitle_settings (serve updates st)).
Proof.
  revert st. induction updates as [| [data stamp] updates IH]; intros st Hl Hv.
  - by split.
  - simpl. destruct (update_preserves_valid data stamp st Hl Hv) as [Hl' Hv'].
    by apply IH.
Qed.

Lemma init_valid (cfg : config) (stamp1 stamp2 : pystr) :
  exists st0,
    init_subtitle_defaults cfg stamp1 stamp2 initial = Returned tt st0 [] /\
    subtitle_state_lock st0 = false /\ valid_settings (subtitle_settings st0).
Proof.
  exists (state_after (init_subtitle_defaults cfg stamp1 stamp2 initial)).
  split; [reflexivity |]. split; [reflexivity |].
  unfold valid_settings.
  cbn -[sanitize_font_size sanitize_opacity sanitize_hex_color sanitize_font_family py].
  split; [| split; [| split]].
  - apply sanitize_font_size_ok. exists 56%Z. split; [reflexivity | lia].
  - apply sanitize_opacity_ok. exists (45 # 100)%Q. split; [reflexivity |].
    split; [split; unfold Qle; simpl; lia | by exists 45%Z].
  - apply sanitize_hex_color_ok. exists (replicate 6 0x66%N).
    split; [reflexivity |]. split; [| by right].
    apply Forall_replicate. right. lia.
  - apply sanitize_hex_color_ok. exists (replicate 6 0x30%N).
    split; [reflexivity |]. split; [| by right].
    apply Forall_replicate. left. lia.
Qed.

End WithBuiltins.

(** C10: after [init_subtitle_defaults] and any sequence of
    [update_subtitle_settings] calls, whatever their inputs, every call has
    returned and the settings satisfy: [font_size_px] is an integer between
    18 and 140, [background_opacity] is a finite number between 0 and 1 that
    is a whole number of hundredths, [text_color] and [background_color] are
    [#] followed by 3 or 6 lowercase hexadecimal digits. One more update
    returns the new settings, publishes them, keeps the invariant, and keeps
    the previous value of every field whose input is invalid: a font size
    or an opacity on which [int] or [float] raises, a colour that is not a
    string matching the pattern after stripping. *)
Theorem subtitle_settings_invariant
  (B : Builtins) (cfg : config) (stamp1 stamp2 : pystr)
  (updates : list (gmap pystr pyval * pystr))
  (data : gmap pystr pyval) (stamp : pystr) :
  let st0 := state_after (init_subtitle_defaults cfg stamp1 stamp2 initial) in
  let st := serve updates st0 in
  let cur := subtitle_settings st in
  let r := update_subtitle_settings data stamp st in
  let new := subtitle_settings (state_after r) in
  init_subtitle_defaults cfg stamp1 stamp2 initial = Returned tt st0 [] /\
  subtitle_state_lock st = false /\
  valid_settings cur /\
  r = Returned new (state_after r) [subtitle_settings_event new] /\
  valid_settings new /\
  (forall v e, data !! py "font_size_px" = Some v -> py_int v = Err e ->
     font_size_px new = font_size_px cur) /\
  (forall v e, data !! py "background_opacity" = Some v -> py_float v = Err e ->
     background_opacity new = background_opacity cur) /\
  (forall v, data !! py "text_color" = Some v ->
     (forall s, v = VStr s -> hex_color_match (strip s) = false) ->
     text_color new = text_color cur) /\
  (forall v, data !! py "background_color" = Some v ->
     (forall s, v = VStr s -> hex_color_match (strip s) = false) ->
     background_color new = background_color cur).
Proof.
  intros st0 st cur r new.
  destruct (init_valid cfg stamp1 stamp2) as (st0' & E0 & Hl0 & Hv0).
  assert (st0' = st0) as -> by (unfold st0; by rewrite E0).
  destruct (serve_preserves_valid updates st0 Hl0 Hv0) as [Hl Hv].
  fold st in Hl, Hv. fold cur in Hv.
  destruct (update_subtitle_settings_eq data stamp st Hl)
    as (new' & Er & Ef & Et & Eb & Eo).
  fold r in Er. fold cur in Ef, Et, Eb, Eo.
  assert (new' = new) as -> by (unfold new; by rewrite Er).
  assert (Hkeep : forall value fallback,
            (forall s, value = VStr s -> hex_color_match (strip s) = false) ->
            sanitize_hex_color value fallback = fallback).
  { intros value fallback Hbad. destruct value as [| | | | s | |]; try reflexivity.
    simpl. by rewrite (Hbad s eq_refl). }
  split; [exact E0 |]. split; [exact Hl |]. split; [exact Hv |].
  split; [by rewrite Er at 1 2 |].
  split; [apply (update_preserves_valid data stamp st Hl Hv) |].
  split; [| split; [| split]].
  - intros v e Hd He. rewrite Ef, Hd. simpl. unfold sanitize_font_size.
    by rewrite He.
  - intros v e Hd He. rewrite Eo, Hd. simpl. unfold sanitize_opacity.
    by rewrite He.
  - intros v Hd Hbad. rewrite Et, Hd. simpl. by apply Hkeep.
  - intros v Hd Hbad. rewrite Eb, Hd. simpl. by apply Hkeep.
Qed.

Lemma subtitle_settings_invariant_witness :
  let st := serve (B := ascii_builtins)
              [(loud, py "2026-02-11T20:15:00.000000Z")]
              (state_after (init_subtitle_defaults (B := ascii_builtins) stock_cfg
                              (py "2026-02-11T20:00:00.000000Z")
                              (py "2026-02-11T20:00:00.000001Z") initial)) in
  let new := subtitle_settings
               (state_after (update_subtitle_settings (B := ascii_builtins) garbage
                               (py "2026-02-11T20:16:00.000000Z") st)) in
  font_size_px (subtitle_settings st) = VInt 140 /\
  text_color (subtitle_settings st) = VStr (py "#fa0") /\
  background_opacity (subtitle_settings st) = VFloat (FFin (100 # 100)) /\
  valid_settings new /\
  font_size_px new = VInt 140 /\
  background_opacity new = VFloat (FFin (100 # 100)) /\
  text_color new = VStr (py "#fa0") /\
  background_color new = VStr (py "#000000").
Proof.
  intros st new.
  pose proof (subtitle_settings_invariant ascii_builtins stock_cfg
                (py "2026-02-11T20:00:00.000000Z") (py "2026-02-11T20:00:00.000001Z")
                [(loud, py "2026-02-11T20:15:00.000000Z")]
                garbage (py "2026-02-11T20:16:00.000000Z"))
    as (_ & _ & _ & _ & Hv & Hf & Ho & Ht & Hb).
  assert (E1 : font_size_px (subtitle_settings st) = VInt 140)
    by (vm_compute; reflexivity).
  assert (E2 : text_color (subtitle_settings st) = VStr (py "#fa0"))
    by (vm_compute; reflexivity).
  assert (E3 : background_opacity (subtitle_settings st) = VFloat (FFin (100 # 100)))
    by (vm_compute; reflexivity).
  split; [exact E1 |]. split; [exact E2 |]. split; [exact E3 |].
  split; [exact Hv |].
  split; [| split; [| split]].
  - rewrite <- E1. apply (Hf (VStr (py "huge")) ValueError); vm_compute; reflexivity.
  - rewrite <- E3. apply (Ho VNone TypeError); vm_compute; reflexivity.
  - rewrite <- E2. apply (Ht (VStr (py "red"))); [vm_compute; reflexivity |].
    intros s [= <-]. vm_compute. reflexivity.
  - transitivity (background_color (subtitle_settings st)); [| vm_compute; reflexivity].
    apply (Hb (VInt 0)); [vm_compute; reflexivity |]. intros s [=].
Defined.

End SubtitleSpec.

(** * Further properties of the code

    The rest of the file follows the same modules through the functions
    around them: runs of requests, the routes that call them, and the
    neighbouring helpers. *)

(** ** Runs of sound and chaos requests *)

Module CooldownRuns.
Import Soundboard Chaos CooldownGate.

Local Open Scope Q_scope.

(** A sound request: the slug, who asked, and the clock at that time. *)
Definition sound_request : Type := pystr * pystr * Q.

(** The granted requests of a run of [play_sound] calls, oldest first, each
    with its slug and its time. *)
Fixpoint sound_grants (rs : list sound_request) (st : Soundboard.state)
  : list (pystr * Q) :=
  match rs with
  | [] => []
  | (slug_, triggered_by, now) :: rs' =>
      let r := play_sound slug_ triggered_by now st in
      (if granted r then [(slug_, now)] else []) ++ sound_grants rs' (state_after r)
  end.

(** The state after a run of [play_sound] calls. *)
Fixpoint sound_serve (rs : list sound_request) (st : Soundboard.state)
  : Soundboard.state :=
  match rs with
  | [] => st
  | (slug_, triggered_by, now) :: rs' =>
      sound_serve rs' (state_after (play_sound slug_ triggered_by now st))
  end.

(** The times of the granted requests of a run of [trigger_chaos] calls. *)
Fixpoint chaos_grants (rs : list Chaos.request) (st : Chaos.state) : list Q :=
  match rs with
  | [] => []
  | (preset_slug, triggered_by, now) :: rs' =>
      let r := trigger_chaos preset_slug triggered_by now st in
      (if granted r then [now] else []) ++ chaos_grants rs' (state_after r)
  end.

Definition last_played (st : Soundboard.state) (slug_ : pystr) : Q :=
  default 0 (soundboard_cooldowns st !! slug_).

Definition last_chaos (st : Chaos.state) : Q :=
  default 0 (chaos_cooldown st !! global_key).

(** An evening at the sound board: the air horn three times, the second one
    too early, with a trombone and an unknown sound in between. *)
Definition evening : list sound_request :=
  [(py "airhorn", py "Dashboard", 1700000000);
   (py "sad-trombone", py "Chat: bob", 1700000001);
   (py "airhorn", py "Chat: bob", 1700000003);
   (py "vuvuzela", py "Chat: eve", 1700000004);
   (py "airhorn", py "Chat: eve", 1700000006)].

Definition mayhem : list Chaos.request :=
  [(py "disco", py "Dashboard", 1700000000);
   (py "earthquake", py "Chat: bob", 1700000010);
   (py "rave", py "Chat: eve", 1700000015)].

(** One [play_sound] call: either it is granted, the gate was open and the
    time is recorded, or the state is what it was. *)
Lemma play_sound_step slug_ by_ now st :
  (granted (play_sound slug_ by_ now st) = true /\
   5 <= now - last_played st slug_ /\
   state_after (play_sound slug_ by_ now st) = Soundboard.set_cooldown slug_ now st) \/
  (granted (play_sound slug_ by_ now st) = false /\
   state_after (play_sound slug_ by_ now st) = st).
Proof.
  rewrite play_sound_eq. unfold last_played.
  destruct (soundboard_lock st); [by right |].
  destruct (soundboard_sounds st !! slug_); [| by right].
  destruct (Qlt_le_dec _ _) as [| Hle]; [by right |].
  left. unfold SOUNDBOARD_COOLDOWN_SEC in Hle. by repeat split.
Qed.

Lemma trigger_chaos_step slug_ by_ now st :
  (granted (trigger_chaos slug_ by_ now st) = true /\
   15 <= now - last_chaos st /\
   state_after (trigger_chaos slug_ by_ now st) = Chaos.set_cooldown global_key now st) \/
  (granted (trigger_chaos slug_ by_ now st) = false /\
   state_after (trigger_chaos slug_ by_ now st) = st).
Proof.
  rewrite trigger_chaos_eq. unfold last_chaos.
  destruct (chaos_lock st); [by right |].
  destruct (CHAOS_PRESETS !! slug_); [| by right].
  destruct (Qlt_le_dec _ _) as [| Hle]; [by right |].
  left. unfold CHAOS_COOLDOWN_SEC in Hle. by repeat split.
Qed.

(** Every grant of a run comes a full window after the time the gate had
    on record when the run began. *)
Lemma sound_grants_after_last (rs : list sound_request) :
  forall (st : Soundboard.state) (slug_ : pystr) (t : Q),
    (slug_, t) ∈ sound_grants rs st -> last_played st slug_ + 5 <= t.
Proof.
  induction rs as [| [[s0 by0] t0] rs IH]; intros st slug_ t Hin; simpl in Hin.
  - by apply elem_of_nil in Hin.
  - destruct (play_sound_step s0 by0 t0 st) as [(Hg & Hopen & Hst) | (Hg & Hst)];
      rewrite Hg, Hst in Hin; simpl in Hin.
    + apply elem_of_cons in Hin as [[= -> ->] | Hin]; [lra |].
      apply IH in Hin. unfold last_played in *. simpl in Hin.
      destruct (decide (s0 = slug_)) as [-> | Hne].
      * rewrite lookup_insert_eq in Hin. simpl in Hin. lra.
      * by rewrite lookup_insert_ne in Hin.
    + by apply IH.
Qed.

Lemma chaos_grants_after_last (rs : list Chaos.request) :
  forall (st : Chaos.state) (t : Q),
    t ∈ chaos_grants rs st -> last_chaos st + 15 <= t.
Proof.
  induction rs as [| [[s0 by0] t0] rs IH]; intros st t Hin; simpl in Hin.
  - by apply elem_of_nil in Hin.
  - destruct (trigger_chaos_step s0 by0 t0 st) as [(Hg & Hopen & Hst) | (Hg & Hst)];
      rewrite Hg, Hst in Hin; simpl in Hin.
    + apply elem_of_cons in Hin as [-> | Hin]; [lra |].
      apply IH in Hin. unfold last_chaos in *. simpl in Hin.
      rewrite lookup_insert_eq in Hin. simpl in Hin. lra.
    + by apply IH.
Qed.

(** X1: in any run of [play_sound] calls, from any state, two granted
    requests for the same slug are at least 5 seconds apart, the later one
    after the earlier one. *)
Theorem sound_grants_spaced (rs : list sound_request) (st : Soundboard.state)
  (i j : nat) (slug_ : pystr) (t1 t2 : Q) :
  (i < j)%nat ->
  sound_grants rs st !! i = Some (slug_, t1) ->
  sound_grants rs st !! j = Some (slug_, t2) ->
  5 <= t2 - t1.
Proof.
  revert st i j. induction rs as [| [[s0 by0] t0] rs IH]; intros st i j Hij Hi Hj.
  - discriminate.
  - simpl in Hi, Hj.
    destruct (play_sound_step s0 by0 t0 st) as [(Hg & Hopen & Hst) | (Hg & Hst)];
      rewrite Hg, Hst in Hi, Hj; simpl in Hi, Hj.
    + destruct i as [| i]; destruct j as [| j]; try lia; simpl in Hi, Hj.
      * injection Hi as -> ->.
        apply list_elem_of_lookup_2, sound_grants_after_last in Hj.
        unfold last_played in Hj. simpl in Hj.
        rewrite lookup_insert_eq in Hj. simpl in Hj. lra.
      * eapply (IH _ i j); [lia | exact Hi | exact Hj].
    + by apply (IH st i j).
Qed.

(** X2: in any run of [trigger_chaos] calls, from any state, two granted
    requests are at least 15 seconds apart, whichever presets they name. *)
Theorem chaos_grants_spaced (rs : list Chaos.request) (st : Chaos.state)
  (i j : nat) (t1 t2 : Q) :
  (i < j)%nat ->
  chaos_grants rs st !! i = Some t1 ->
  chaos_grants rs st !! j = Some t2 ->
  15 <= t2 - t1.
Proof.
  revert st i j. induction rs as [| [[s0 by0] t0] rs IH]; intros st i j Hij Hi Hj.
  - discriminate.
  - simpl in Hi, Hj.
    destruct (trigger_chaos_step s0 by0 t0 st) as [(Hg & Hopen & Hst) | (Hg & Hst)];
      rewrite Hg, Hst in Hi, Hj; simpl in Hi, Hj.
    + destruct i as [| i]; destruct j as [| j]; try lia; simpl in Hi, Hj.
      * injection Hi as ->.
        apply list_elem_of_lookup_2, chaos_grants_after_last in Hj.
        unfold last_chaos in Hj. simpl in Hj.
        rewrite lookup_insert_eq in Hj. simpl in Hj. lra.
      * eapply (IH _ i j); [lia | exact Hi | exact Hj].
    + by apply (IH st i j).
Qed.

Lemma sound_grants_spaced_witness :
  sound_grants evening board0 =
    [(py "airhorn", 1700000000); (py "sad-trombone", 1700000001);
     (py "airhorn", 1700000006)] /\
  5 <= 1700000006 - 1700000000.
Proof.
  assert (E : sound_grants evening board0 =
    [(py "airhorn", 1700000000); (py "sad-trombone", 1700000001);
     (py "airhorn", 1700000006)]) by (vm_compute; reflexivity).
  split; [exact E |].
  apply (sound_grants_spaced evening board0 0 2 (py "airhorn")); [lia | |];
    rewrite E; reflexivity.
Defined.

Lemma chaos_grants_spaced_witness :
  chaos_grants mayhem chaos0 = [1700000000; 1700000015] /\
  15 <= 1700000015 - 1700000000.
Proof.
  assert (E : chaos_grants mayhem chaos0 = [1700000000; 1700000015])
    by (vm_compute; reflexivity).
  split; [exact E |].
  apply (chaos_grants_spaced mayhem chaos0 0 1); [lia | |]; rewrite E; reflexivity.
Defined.

Lemma sound_serve_app (rs1 rs2 : list sound_request) (st : Soundboard.state) :
  sound_serve (rs1 ++ rs2) st = sound_serve rs2 (sound_serve rs1 st).
Proof.
  revert st. induction rs1 as [| [[s0 by0] t0] rs1 IH]; intros st; [reflexivity |].
  simpl. apply IH.
Qed.

(** X3: a run of [play_sound] calls never touches the catalog, and records
    times under known slugs only: every key of [soundboard_cooldowns] after
    the run was a key before it or is a slug of [soundboard_sounds]. A
    request for an unknown slug returns [None] and leaves no trace. *)
Theorem sound_cooldown_keys_known (rs : list sound_request) (st : Soundboard.state) :
  soundboard_sounds (sound_serve rs st) = soundboard_sounds st /\
  dom (soundboard_cooldowns (sound_serve rs st)) ⊆
    dom (soundboard_cooldowns st) ∪ dom (soundboard_sounds st) /\
  forall slug_ by_ now,
    soundboard_lock st = false ->
    soundboard_sounds st !! slug_ = None ->
    play_sound slug_ by_ now st = Returned None st [].
Proof.
  split; [| split].
  - revert st. induction rs as [| [[s0 by0] t0] rs IH]; intros st; [reflexivity |].
    simpl. rewrite IH.
    by destruct (play_sound_step s0 by0 t0 st) as [(_ & _ & ->) | (_ & ->)].
  - revert st. induction rs as [| [[s0 by0] t0] rs IH]; intros st; simpl.
    + set_solver.
    + etrans; [apply IH |].
      pose proof (play_sound_eq s0 by0 t0 st) as E.
      destruct (play_sound_step s0 by0 t0 st) as [(Hg & _ & Hst) | (_ & Hst)];
        rewrite Hst; [| done].
      assert (Hk : is_Some (soundboard_sounds st !! s0)).
      { rewrite E in Hg. destruct (soundboard_lock st); [done |].
        by destruct (soundboard_sounds st !! s0). }
      apply elem_of_dom in Hk. simpl. rewrite dom_insert_L.
      intros x Hx. apply elem_of_union in Hx as [Hx | Hx]; [| by apply elem_of_union_r].
      apply elem_of_union in Hx as [Hx | Hx]; [| by apply elem_of_union_l].
      apply elem_of_singleton in Hx as ->. by apply elem_of_union_r.
  - intros slug_ by_ now Hl Hs. by apply play_sound_unknown.
Qed.

Lemma sound_cooldown_keys_known_witness :
  play_sound (py "vuvuzela") (py "Chat: eve") 1700000004 board0 =
    Returned None board0 [] /\
  dom (soundboard_cooldowns (sound_serve evening board0)) =
    {[py "airhorn"; py "sad-trombone"]}.
Proof.
  split.
  - apply (proj2 (proj2 (sound_cooldown_keys_known [] board0))); vm_compute; reflexivity.
  - vm_compute. reflexivity.
Defined.

(** While the gate of a slug is closed, requests leave its record alone. *)
Lemma sound_serve_closed (rs : list sound_request) (slug_ : pystr) (t : Q) :
  forall st : Soundboard.state,
    soundboard_lock st = false ->
    soundboard_cooldowns st !! slug_ = Some t ->
    Forall (fun '(s, _, now) => s = slug_ -> now - t < 5) rs ->
    soundboard_lock (sound_serve rs st) = false /\
    soundboard_sounds (sound_serve rs st) = soundboard_sounds st /\
    soundboard_cooldowns (sound_serve rs st) !! slug_ = Some t.
Proof.
  induction rs as [| [[s0 by0] t0] rs IH]; intros st Hl Hc Hrs; [done |].
  apply Forall_cons in Hrs as [Hr Hrs]. simpl.
  destruct (play_sound_step s0 by0 t0 st) as [(_ & Hopen & ->) | (_ & ->)].
  - destruct (decide (s0 = slug_)) as [-> | Hne].
    + unfold last_played in Hopen. rewrite Hc in Hopen. simpl in Hopen.
      specialize (Hr eq_refl). lra.
    + destruct (IH (Soundboard.set_cooldown s0 t0 st)) as (H1 & H2 & H3);
        [exact Hl | by simpl; rewrite lookup_insert_ne | exact Hrs |].
      by repeat split.
  - by apply IH.
Qed.

(** X4: rejected requests do not extend a cooldown. After [play_sound] has
    granted a slug at time [t], and whatever requests follow, as long as
    those for this slug come less than 5 seconds after [t], a request for
    the slug at a time [t'] with [t' - t >= 5] is granted. *)
Theorem sound_gate_reopens
  (slug_ by1 by2 : pystr) (t t' : Q) (st st1 : Soundboard.state)
  (pl : Soundboard.payload) (out : list Soundboard.event)
  (between : list sound_request) :
  play_sound slug_ by1 t st = Returned (Some pl) st1 out ->
  Forall (fun '(s, _, now) => s = slug_ -> now - t < 5) between ->
  5 <= t' - t ->
  granted (play_sound slug_ by2 t' (sound_serve between st1)) = true.
Proof.
  intros H1 Hb Ht.
  pose proof H1 as Hk. rewrite play_sound_eq in Hk.
  apply play_sound_granted_inv in H1 as (Hl & _ & ->).
  rewrite Hl in Hk. destruct (soundboard_sounds st !! slug_) as [snd_ |] eqn:Hs;
    [clear Hk | discriminate].
  destruct (sound_serve_closed between slug_ t (Soundboard.set_cooldown slug_ t st))
    as (Hl' & Hs' & Hc'); [exact Hl | by simpl; rewrite lookup_insert_eq | exact Hb |].
  rewrite play_sound_eq, Hl', Hs'. simpl. rewrite Hs, Hc'. simpl.
  destruct (Qlt_le_dec _ _) as [Hlt |]; [| reflexivity].
  unfold SOUNDBOARD_COOLDOWN_SEC in Hlt. lra.
Qed.

Lemma sound_gate_reopens_witness :
  granted (play_sound (py "airhorn") (py "Dashboard") 1700000000 board0) = true /\
  granted (play_sound (py "airhorn") (py "Chat: eve") 1700000005
             (sound_serve (take 3 (drop 1 evening))
                (state_after (play_sound (py "airhorn") (py "Dashboard")
                                1700000000 board0)))) = true.
Proof.
  split; [vm_compute; reflexivity |].
  eapply (sound_gate_reopens (py "airhorn") (py "Dashboard") (py "Chat: eve")
            1700000000 1700000005 board0).
  - vm_compute. reflexivity.
  - repeat constructor; intros H; try (vm_compute in H; discriminate); lra.
  - lra.
Defined.

End CooldownRuns.

(** ** Runs of chat messages through the clip detector *)

Module ClipRuns.
Import ClipDetector PyFacts ClipSpec.

Local Open Scope Q_scope.

(** The times at which a run of messages fires, oldest first. *)
Fixpoint fire_times (msgs : list (pystr * Q)) (st : state) : list Q :=
  match msgs with
  | [] => []
  | (content, now) :: rest =>
      let r := event_message content now st in
      (if fires r then [now] else []) ++ fire_times rest (state_of r)
  end.

(** The newest [n] entries of a list. *)
Definition newest {A} (n : nat) (l : list A) : list A := drop (length l - n) l.

(** Twelve minutes of lively chat: a trigger word every half second. *)
Definition lively : list (pystr * Q) :=
  map (fun i : nat => (py "LUL", (3400000000 + Z.of_nat i) # 2)) (seq 0 1500).

(** [check_clip_trigger] leaves the recorded times alone. *)
Lemma check_times (message_text : pystr) (now : Q) (st : state) :
  clip_message_times (state_of (check_clip_trigger message_text now st)) =
  clip_message_times st.
Proof.
  unfold check_clip_trigger.
  destruct (Qlt_le_dec _ _); [reflexivity |].
  destruct (negb _); [reflexivity |].
  by destruct (_ <=? _)%nat.
Qed.

Lemma event_message_times (content : pystr) (now : Q) (st : state) :
  clip_message_times (state_of (event_message content now st)) =
  deque_append 100 now (clip_message_times st).
Proof. unfold event_message. by rewrite check_times. Qed.

Lemma newest_all {A} (n : nat) (l : list A) : (length l <= n)%nat -> newest n l = l.
Proof. intros H. unfold newest. by replace (length l - n)%nat with 0%nat by lia. Qed.

Lemma newest_length {A} (n : nat) (l : list A) : (length (newest n l) <= n)%nat.
Proof. unfold newest. rewrite length_drop. lia. Qed.

Lemma deque_append_newest {A} (n : nat) (x : A) (l : list A) :
  deque_append n x (newest n l) = newest n (l ++ [x]).
Proof.
  unfold deque_append, newest.
  rewrite !length_app, length_drop. simpl.
  destruct (decide (length l <= n)%nat) as [Hle | Hgt].
  - replace (length l - n)%nat with 0%nat by lia. rewrite drop_0.
    by replace (length l - 0 + 1 - n)%nat with (length l + 1 - n)%nat by lia.
  - rewrite <- drop_app_le by lia. rewrite drop_drop. f_equal. lia.
Qed.

Lemma observe_all_newest (msgs : list (pystr * Q)) :
  forall (st : state) (all : list Q),
    clip_message_times st = newest 100 all ->
    clip_message_times (observe_all msgs st) = newest 100 (all ++ map snd msgs).
Proof.
  induction msgs as [| [m t] msgs IH]; intros st all Hst; simpl.
  - by rewrite app_nil_r.
  - rewrite (IH _ (all ++ [t])).
    + by rewrite <- (assoc_L (++)).
    + by rewrite event_message_times, Hst, deque_append_newest.
Qed.

(** X5: the arrival buffer is a ring of 100: after any run of messages,
    from a buffer of at most 100 times, [clip_message_times] holds the
    newest 100 of the times it held and the arrival times of the run, in
    order; so it never holds more than 100. *)
Theorem clip_times_ring (msgs : list (pystr * Q)) (st : state) :
  (length (clip_message_times st) <= 100)%nat ->
  clip_message_times (observe_all msgs st) =
    newest 100 (clip_message_times st ++ map snd msgs) /\
  (length (clip_message_times (observe_all msgs st)) <= 100)%nat.
Proof.
  intros Hlen. rewrite (observe_all_newest msgs st (clip_message_times st)).
  - split; [reflexivity | apply newest_length].
  - symmetry. by apply newest_all.
Qed.

Lemma clip_times_ring_witness :
  (length (clip_message_times initial) <= 100)%nat /\
  (length (clip_message_times (observe_all lively initial)) <= 100)%nat.
Proof.
  split; [simpl; lia |].
  apply (clip_times_ring lively initial). simpl. lia.
Defined.

(** One message: either it fires, the quiet period was over and the time
    is recorded, or only the arrival is recorded. *)
Lemma event_message_step (content : pystr) (now : Q) (st : state) :
  let arrived := {| clip_message_times := deque_append 100 now (clip_message_times st);
                    last_clip_time := last_clip_time st |} in
  (fires (event_message content now st) = true /\
   30 <= now - last_clip_time st /\
   state_of (event_message content now st) = set_last_clip_time now arrived) \/
  (fires (event_message content now st) = false /\
   state_of (event_message content now st) = arrived).
Proof.
  intros arrived. unfold event_message. fold arrived. unfold check_clip_trigger.
  change (last_clip_time arrived) with (last_clip_time st).
  destruct (Qlt_le_dec _ _) as [| Hle]; [by right |].
  destruct (negb _); [by right |].
  destruct (_ <=? _)%nat; [left | by right]. by repeat split.
Qed.

(** Every fire of a run comes 30 seconds or more after the last-action time
    the run started with. *)
Lemma fire_times_after_last (msgs : list (pystr * Q)) :
  forall (st : state) (t : Q),
    t ∈ fire_times msgs st -> last_clip_time st + 30 <= t.
Proof.
  induction msgs as [| [m t0] msgs IH]; intros st t Hin; cbn [fire_times] in Hin.
  - by apply elem_of_nil in Hin.
  - destruct (event_message_step m t0 st) as [(Hf & Hq & Hst) | (Hf & Hst)];
      rewrite Hf, Hst in Hin.
    + cbn [app] in Hin. apply elem_of_cons in Hin as [-> | Hin]; [lra |].
      apply IH in Hin. cbn [set_last_clip_time last_clip_time] in Hin. lra.
    + apply IH in Hin. cbn [last_clip_time] in Hin. exact Hin.
Qed.

(** X6: in any run of chat messages, from any detector state, two fires are
    at least 30 seconds apart, the later one after the earlier one. *)
Theorem clip_fires_spaced (msgs : list (pystr * Q)) (st : state)
  (i j : nat) (t1 t2 : Q) :
  (i < j)%nat ->
  fire_times msgs st !! i = Some t1 ->
  fire_times msgs st !! j = Some t2 ->
  30 <= t2 - t1.
Proof.
  revert st i j. induction msgs as [| [m t0] msgs IH]; intros st i j Hij Hi Hj.
  - discriminate.
  - cbn [fire_times] in Hi, Hj.
    destruct (event_message_step m t0 st) as [(Hf & Hq & Hst) | (Hf & Hst)];
      rewrite Hf, Hst in Hi, Hj.
    + cbn [app] in Hi, Hj. destruct i as [| i]; destruct j as [| j]; try lia;
        cbn [lookup list_lookup] in Hi, Hj.
      * injection Hi as ->.
        apply list_elem_of_lookup_2, fire_times_after_last in Hj.
        cbn [set_last_clip_time last_clip_time] in Hj. lra.
      * eapply (IH _ i j); [lia | exact Hi | exact Hj].
    + by eapply (IH _ i j).
Qed.

Lemma clip_fires_spaced_witness :
  fire_times (take 100 lively) initial = [3400000014 # 2; 3400000074 # 2] /\
  30 <= (3400000074 # 2) - (3400000014 # 2).
Proof.
  assert (E : fire_times (take 100 lively) initial =
              [3400000014 # 2; 3400000074 # 2]) by (vm_compute; reflexivity).
  split; [exact E |].
  apply (clip_fires_spaced (take 100 lively) initial 0 1); [lia | |];
    rewrite E; reflexivity.
Defined.

End ClipRuns.

(** ** The goal routes, and a goal tracker with its lock taken *)

Module GoalsRoutes.
Import Goals GoalsSpec.

(** [for g in stream_goals: g["current"] = 0] *)
Definition zero_all (st : state) : state :=
  {| goals_lock := goals_lock st;
     stream_goals := map (set_current 0) (stream_goals st) |}.

(** [api_goals_reset()]; the result is the list of the JSON answer. *)
Definition api_goals_reset : M event state (list goal) :=
  with_lock the_lock (modify zero_all) ;;;
  snapshot <- get_goals ;;
  emit (goals_update snapshot) ;;;
  ret snapshot.

(** [api_goals()] *)
Definition api_goals : M event state (list goal) := get_goals.

(** X7: with the lock free, [api_goals_reset] returns and publishes: every
    goal's progress becomes 0 while its id, type, title, target and enabled
    flag stay, and one [goals_update] event carries the list that is
    returned. A second reset changes nothing more. *)
Theorem api_goals_reset_zeroes (st : state) :
  goals_lock st = false ->
  let snapshot := map (set_current 0) (stream_goals st) in
  let st' := {| goals_lock := false; stream_goals := snapshot |} in
  api_goals_reset st = Returned snapshot st' [goals_update snapshot] /\
  length snapshot = length (stream_goals st) /\
  (forall i g, stream_goals st !! i = Some g ->
     exists g', snapshot !! i = Some g' /\ current g' = 0%Z /\
       id g' = id g /\ type g' = type g /\ title g' = title g /\
       target g' = target g /\ enabled g' = enabled g) /\
  state_after (api_goals_reset st') = st'.
Proof.
  intros Hl snapshot st'.
  assert (E : forall s, goals_lock s = false ->
            api_goals_reset s =
              Returned (map (set_current 0) (stream_goals s))
                {| goals_lock := false;
                   stream_goals := map (set_current 0) (stream_goals s) |}
                [goals_update (map (set_current 0) (stream_goals s))]).
  { intros [l gs]. simpl. intros ->. reflexivity. }
  split; [by apply E |]. split; [unfold snapshot; by rewrite length_map |]. split.
  - intros i g Hi. exists (set_current 0 g). split; [| by repeat split].
    unfold snapshot. by rewrite list_lookup_fmap, Hi.
  - rewrite E by reflexivity. simpl. unfold st', snapshot. f_equal.
    rewrite <- list_fmap_compose. by apply list_fmap_ext.
Qed.

Lemma api_goals_reset_zeroes_witness :
  goals_lock initial = false /\
  api_goals_reset (alter_goal 1 (set_current 7) initial) =
    Returned (stream_goals initial) initial [goals_update (stream_goals initial)].
Proof.
  split; [reflexivity |].
  exact (proj1 (api_goals_reset_zeroes (alter_goal 1 (set_current 7) initial) eq_refl)).
Defined.

(** The loop of [increment_goal] up to the first goal with the wanted id:
    its progress is raised, and the snapshot that follows never comes. *)
Lemma increment_goal_from_known (goal_id : pystr) (amount : Z) (gs : list goal) :
  forall (k i0 : nat) (g : goal) (st : state),
    goals_lock st = true ->
    gs !! k = Some g -> id g = goal_id ->
    (forall j g', (j < k)%nat -> gs !! j = Some g' -> id g' <> goal_id) ->
    increment_goal_from i0 gs goal_id amount st =
      Blocked (alter_goal (i0 + k) (fun g => set_current (current g + amount) g) st) [].
Proof.
  induction gs as [| g0 gs IH]; intros k i0 g st Hl Hk Hid Hfirst; [discriminate |].
  destruct k as [| k]; simpl in Hk.
  - injection Hk as ->. simpl. rewrite decide_True by exact Hid.
    unfold bind, modify. simpl. rewrite get_goals_held by exact Hl.
    simpl. by rewrite Nat.add_0_r.
  - simpl. rewrite decide_False by (apply (Hfirst 0%nat g0); [lia | reflexivity]).
    unfold bind at 1. simpl.
    rewrite (IH k (S i0) g st Hl Hk Hid).
    + simpl. by replace (i0 + S k)%nat with (S (i0 + k)) by lia.
    + intros j g' Hj Hg'. apply (Hfirst (S j) g'); [lia | exact Hg'].
Qed.

(** [increment_goal] as a whole, for an id of the catalog. *)
Lemma increment_goal_known_blocks_aux
  (goal_id : pystr) (amount : Z) (st : state) (i : nat) (g : goal) :
  goals_lock st = false ->
  stream_goals st !! i = Some g ->
  id g = goal_id ->
  (forall j g', (j < i)%nat -> stream_goals st !! j = Some g' -> id g' <> goal_id) ->
  increment_goal goal_id amount st =
    Blocked {| goals_lock := true;
               stream_goals :=
                 <[i := set_current (current g + amount) g]> (stream_goals st) |}
            [].
Proof.
  destruct st as [l gs]. simpl. intros -> Hi Hid Hfirst.
  unfold increment_goal, bind at 1, with_lock, acquire. simpl.
  unfold bind at 1. simpl.
  rewrite (increment_goal_from_known goal_id amount gs i 0 g
             {| goals_lock := true; stream_goals := gs |} eq_refl Hi Hid Hfirst).
  simpl. unfold alter_goal. simpl. f_equal. f_equal.
  clear -Hi. revert i Hi. induction gs as [| g0 gs IH]; intros [| i] Hi;
    simpl in *; try discriminate.
  - by injection Hi as ->.
  - f_equal. by apply IH.
Qed.

(** X8: with the lock free and an id that is in the catalog,
    [increment_goal] adds the amount to the progress of the first goal with
    that id, then waits for ever in [get_goals] on the lock it holds: the
    new progress is stored, nothing is published, and [goals_lock] stays
    taken. *)
Theorem increment_goal_known_blocks
  (goal_id : pystr) (amount : Z) (st : state) (i : nat) (g : goal) :
  goals_lock st = false ->
  stream_goals st !! i = Some g ->
  id g = goal_id ->
  (forall j g', (j < i)%nat -> stream_goals st !! j = Some g' -> id g' <> goal_id) ->
  increment_goal goal_id amount st =
    Blocked {| goals_lock := true;
               stream_goals :=
                 <[i := set_current (current g + amount) g]> (stream_goals st) |}
            [].
Proof. apply increment_goal_known_blocks_aux. Qed.

Lemma increment_goal_known_blocks_witness :
  goals_lock initial = false /\
  increment_goal (py "followers") 1 initial =
    Blocked {| goals_lock := true;
               stream_goals :=
                 [mk "followers" "Follower Goal" 1 50 true;
                  mk "subs" "Sub Goal" 0 10 true;
                  mk "donations" "Donation Goal" 0 100 false;
                  mk "bits" "Bits Goal" 0 5000 false] |}
            [].
Proof.
  split; [reflexivity |].
  apply (increment_goal_known_blocks (py "followers") 1 initial 0
           (mk "followers" "Follower Goal" 0 50 true)); try reflexivity.
  intros j g' Hj. lia.
Defined.

(** With [goals_lock] taken, every goal operation waits at its first
    acquire. *)
Lemma goals_held_blocks `{Builtins} (st : state) :
  goals_lock st = true ->
  get_goals st = Blocked st [] /\
  api_goals st = Blocked st [] /\
  api_goals_reset st = Blocked st [] /\
  (forall goal_id amount, increment_goal goal_id amount st = Blocked st []) /\
  (forall goal_id data, update_goal goal_id data st = Blocked st []).
Proof.
  intros Hl.
  assert (Hg : get_goals st = Blocked st []) by by apply get_goals_held.
  split; [exact Hg |]. split; [exact Hg |]. split; [| split].
  - unfold api_goals_reset, bind at 1, with_lock, acquire. simpl. by rewrite Hl.
  - intros goal_id amount.
    unfold increment_goal, bind at 1, with_lock, acquire. simpl. by rewrite Hl.
  - intros goal_id data. unfold update_goal, with_lock, acquire. simpl. by rewrite Hl.
Qed.

(** X9: one [increment_goal] for a goal of the catalog takes the tracker
    down for good. In the state it leaves, [get_goals] (so also the goal
    list of [api_goals] and of a new overlay connection),
    [api_goals_reset], and every later [increment_goal] and [update_goal]
    wait for ever, without changing a goal or publishing anything. *)
Theorem goals_lock_never_released
  (B : Builtins) (goal_id : pystr) (amount : Z) (st : state) :
  goals_lock st = false ->
  Exists (fun g => id g = goal_id) (stream_goals st) ->
  let st' := state_after (increment_goal goal_id amount st) in
  goals_lock st' = true /\
  get_goals st' = Blocked st' [] /\
  api_goals st' = Blocked st' [] /\
  api_goals_reset st' = Blocked st' [] /\
  (forall goal_id' amount', increment_goal goal_id' amount' st' = Blocked st' []) /\
  (forall goal_id' data, update_goal goal_id' data st' = Blocked st' []).
Proof.
  intros Hl Hex st'.
  assert (Hheld : goals_lock st' = true).
  { assert (Hfirst : exists i g, stream_goals st !! i = Some g /\ id g = goal_id /\
              forall j g', (j < i)%nat -> stream_goals st !! j = Some g' ->
                           id g' <> goal_id).
    { clear -Hex. induction Hex as [g gs Hg | g gs Hex IH].
      - exists 0%nat, g. split; [reflexivity |]. split; [exact Hg |]. intros; lia.
      - destruct (decide (id g = goal_id)) as [Hg | Hg].
        + exists 0%nat, g. split; [reflexivity |]. split; [exact Hg |]. intros; lia.
        + destruct IH as (i & g1 & Hi & Hid & Hfirst).
          exists (S i), g1. split; [exact Hi |]. split; [exact Hid |].
          intros [| j] g' Hj Hg'; simpl in Hg'.
          * by injection Hg' as <-.
          * apply (Hfirst j g'); [lia | exact Hg']. }
    destruct Hfirst as (i & g & Hi & Hid & Hfirst). unfold st'.
    by rewrite (increment_goal_known_blocks_aux goal_id amount st i g Hl Hi Hid Hfirst). }
  split; [exact Hheld |]. by apply goals_held_blocks.
Qed.

Lemma goals_lock_never_released_witness :
  goals_lock initial = false /\
  get_goals (state_after (increment_goal (py "followers") 1 initial)) =
    Blocked (state_after (increment_goal (py "followers") 1 initial)) [].
Proof.
  split; [reflexivity |].
  apply (goals_lock_never_released ascii_builtins (py "followers") 1 initial).
  - reflexivity.
  - apply Exists_cons_hd. reflexivity.
Defined.

End GoalsRoutes.

(** ** More on the subtitle store *)

Module SubtitleMore.
Import Subtitles TextFacts SubtitleSpec.

Lemma split_from_nonempty (s acc : pystr) : acc <> [] -> split_from acc s <> [].
Proof.
  revert acc. induction s as [| c s IH]; intros acc Hacc; simpl.
  - by destruct acc.
  - destruct (isspace c); [by destruct acc |].
    apply IH. by destruct acc.
Qed.

Lemma join_cons_nonempty (sep w : pystr) (ws : list pystr) :
  ws <> [] -> join sep (w :: ws) = w ++ sep ++ join sep ws.
Proof. by destruct ws. Qed.

(** What follows a separating space of a tidy text is tidy, and starts
    with a character that is not white space. *)
Lemma tidy_after_space (acc s : pystr) (c : N) :
  tidy (acc ++ c :: s) -> isspace c = true ->
  c = 0x20%N /\ acc <> [] /\ tidy s /\
  exists c' s', s = c' :: s' /\ isspace c' = false.
Proof.
  intros Ht Hc.
  assert (Hat : (acc ++ c :: s) !! length acc = Some c).
  { by rewrite lookup_app_r, Nat.sub_diag by lia. }
  destruct (Ht _ c Hat Hc) as (-> & (j & c1 & Hj & _ & _) & (c2 & Hs & Hc2)).
  split; [reflexivity |]. split; [by destruct acc |].
  rewrite lookup_app_r in Hs by lia.
  replace (S (length acc) - length acc) with 1 in Hs by lia. simpl in Hs.
  split; [| destruct s as [| c' s']; [discriminate |];
            injection Hs as ->; by exists c2, s'].
  intros i ch Hi Hch.
  assert (Hi' : (acc ++ 0x20%N :: s) !! (length acc + 1 + i) = Some ch).
  { rewrite lookup_app_r by lia.
    by replace (length acc + 1 + i - length acc) with (S i) by lia. }
  destruct (Ht _ ch Hi' Hch) as (-> & (j' & c' & Hj' & Hl & Hc') & (c'' & Hs' & Hc'')).
  split; [reflexivity |]. split.
  - destruct i as [| i].
    + assert (c2 = 0x20%N) as -> by (destruct s; simpl in *; congruence).
      vm_compute in Hc2. discriminate Hc2.
    + exists i, c'. split; [reflexivity |]. split; [| exact Hc'].
      rewrite lookup_app_r in Hl by lia.
      by replace (j' - length acc) with (S i) in Hl by lia.
  - exists c''. split; [| exact Hc''].
    rewrite lookup_app_r in Hs' by lia.
    by replace (S (length acc + 1 + i) - length acc) with (S (S i)) in Hs' by lia.
Qed.

(** Splitting a tidy text at white space and joining the words with single
    spaces gives the text back. *)
Lemma join_split_from_tidy (s : pystr) :
  forall acc : pystr, tidy (acc ++ s) -> join (py " ") (split_from acc s) = acc ++ s.
Proof.
  induction s as [| c s IH]; intros acc Ht; cbn [split_from].
  - rewrite app_nil_r. by destruct acc.
  - destruct (isspace c) eqn:Hc.
    + destruct (tidy_after_space acc s c Ht Hc) as (-> & Hacc & Hts & c' & s' & -> & Hc').
      destruct acc as [| a acc]; [done |].
      pose proof (IH [] Hts) as Hrest. rewrite app_nil_l in Hrest.
      rewrite join_cons_nonempty; [by rewrite Hrest |].
      cbn [split_from]. rewrite Hc'. by apply split_from_nonempty.
    + rewrite (IH (acc ++ [c])); rewrite <- (assoc_L (++)); [reflexivity | exact Ht].
Qed.

Lemma join_split_tidy (s : pystr) : tidy s -> join (py " ") (split s) = s.
Proof. intros Ht. by apply (join_split_from_tidy s []). Qed.

Section WithBuiltins.
Context {B : Builtins}.

(** The stored text is tidy and has at most 220 characters. *)
Lemma normalize_subtitle_tidy (text_ : pyval) :
  tidy (normalize_subtitle text_) /\ length (normalize_subtitle text_) <= 220.
Proof.
  rewrite normalize_subtitle_eq. cbv zeta.
  pose proof (normalized_tidy text_) as Ht.
  set (normalized := join (py " ") (split (py_str text_))) in *.
  destruct (Nat.ltb_spec 220 (length normalized)) as [Hlen | Hlen]; [| by split].
  destruct (lookup_lt_is_Some_2 normalized 219) as [c Hc]; [lia |].
  rewrite (tidy_take_rstrip normalized 219 c Ht Hc).
  destruct (decide (c = 0x20%N)) as [-> | Hne].
  - destruct (Ht 219 _ Hc eq_refl) as (_ & (j & c' & [= <-] & Hj & Hc') & _).
    split; [by apply (tidy_take normalized 218 c') |]. rewrite length_take. lia.
  - split; [| rewrite length_take; lia].
    apply (tidy_take normalized 219 c); [exact Ht | exact Hc |].
    destruct (isspace c) eqn:Hsp; [| reflexivity].
    by destruct (Ht 219 c Hc Hsp) as (-> & _).
Qed.

(** A tidy text of at most 220 characters is stored as it is. *)
Lemma normalize_subtitle_fixed (s : pystr) :
  tidy s -> length s <= 220 -> normalize_subtitle (VStr s) = s.
Proof.
  intros Ht Hlen. rewrite normalize_subtitle_eq. cbv zeta. cbn [py_str].
  rewrite (join_split_tidy s Ht).
  by destruct (Nat.ltb_spec 220 (length s)); [lia |].
Qed.

End WithBuiltins.

(** X10: storing is idempotent. With the lock free, the text that
    [set_subtitle_text] has stored, pushed again, is stored unchanged; more
    generally every tidy text of at most 220 characters is stored as it
    is. *)
Theorem set_subtitle_text_idempotent
  (B : Builtins) (text_ final1 final2 : pyval) (stamp1 stamp2 : pystr)
  (st : state) (s : pystr) :
  subtitle_state_lock st = false ->
  let st1 := state_after (set_subtitle_text text_ final1 stamp1 st) in
  let stored := text (subtitle_state st1) in
  text (subtitle_state
          (state_after (set_subtitle_text (VStr stored) final2 stamp2 st1))) = stored /\
  (tidy s -> length s <= 220 ->
   text (subtitle_state (state_after (set_subtitle_text (VStr s) final1 stamp1 st))) = s).
Proof.
  intros Hl st1 stored.
  assert (E : forall t f sp s0, subtitle_state_lock s0 = false ->
            state_after (set_subtitle_text t f sp s0) =
              {| subtitle_state_lock := false;
                 subtitle_state := {| text := normalize_subtitle t; final := py_bool f;
                                      updated_at := Some sp |};
                 subtitle_settings := subtitle_settings s0 |}).
  { intros t f sp [l ts ss]. simpl. intros ->. reflexivity. }
  split.
  - unfold stored, st1. rewrite (E _ _ _ st Hl). rewrite E by reflexivity. simpl.
    destruct (normalize_subtitle_tidy text_) as [Ht Hlen].
    by apply normalize_subtitle_fixed.
  - intros Ht Hlen. rewrite (E _ _ _ st Hl). simpl. by apply normalize_subtitle_fixed.
Qed.

Lemma set_subtitle_text_idempotent_witness :
  subtitle_state_lock initial = false /\
  text (subtitle_state
          (state_after (set_subtitle_text (B := ascii_builtins)
                          (VStr (py "good  game,   everyone ")) (VBool true)
                          (py "2026-02-11T20:15:00.000000Z") initial))) =
    py "good game, everyone" /\
  text (subtitle_state
          (state_after (set_subtitle_text (B := ascii_builtins)
                          (VStr (py "good game, everyone")) (VBool true)
                          (py "2026-02-11T20:15:00.000000Z") initial))) =
    py "good game, everyone".
Proof.
  split; [reflexivity |]. split; [vm_compute; reflexivity |].
  apply (proj2 (set_subtitle_text_idempotent ascii_builtins VNone (VBool true)
                  (VBool true) (py "2026-02-11T20:15:00.000000Z") []
                  initial (py "good game, everyone") eq_refl)).
  - intros i c Hi Hc.
    assert (Hi' : i < 19) by (apply lookup_lt_Some in Hi; exact Hi).
    do 19 (destruct i as [| i]; [vm_compute in Hi; injection Hi as <-;
      first [discriminate Hc | (split; [reflexivity |]; split;
        [eexists _, _; split; [reflexivity |]; split; reflexivity
        | eexists; split; reflexivity])] |]).
    lia.
  - vm_compute. lia.
Defined.

End SubtitleMore.

(** ** Subtitle styling: what the sanitizers keep and what they change *)

Module SubtitleStyle.
Import Subtitles TextFacts SubtitleSpec SubtitleMore.

Lemma round_half_even_exact (r : Q) (k : Z) :
  (r == inject_Z k)%Q -> round_half_even r = k.
Proof.
  intros H. destruct (round_half_even_bounds r k k); [| lia].
  rewrite H. split; apply Qle_refl.
Qed.

(** Rounding moves a number by at most one half. *)
Lemma round_half_even_near (r : Q) :
  (-(1 # 2) <= inject_Z (round_half_even r) - r <= 1 # 2)%Q.
Proof.
  destruct r as [n d]. unfold round_half_even. cbn [Qnum Qden].
  set (D := Z.pos d). assert (HD : (0 < D)%Z) by (subst D; lia).
  pose proof (Z.div_mod (2 * n + D) (2 * D) ltac:(lia)) as Hdm.
  pose proof (Z.mod_pos_bound (2 * n + D) (2 * D) ltac:(lia)) as Hm.
  set (f := ((2 * n + D) / (2 * D))%Z) in *.
  set (m := ((2 * n + D) mod (2 * D))%Z) in *.
  assert (Hgoal : forall k : Z, (- D <= 2 * k * D - 2 * n <= D)%Z ->
            (-(1 # 2) <= inject_Z k - (n # d) <= 1 # 2)%Q).
  { intros k Hk. unfold Qle, Qminus, Qplus, Qopp, inject_Z. cbn [Qnum Qden].
    fold D. rewrite !Pos2Z.inj_mul. fold D. nia. }
  apply Hgoal.
  destruct ((m =? 0)%Z && Z.odd f) eqn:Htie.
  - apply andb_true_iff in Htie as [Hm0 _]. apply Z.eqb_eq in Hm0. nia.
  - nia.
Qed.

Lemma clamp_float_in_unit (q : Q) :
  (0 <= q <= 1)%Q ->
  exists x, clamp_float (FFin q) (FFin 0) (FFin 1) = FFin x /\ (x == q)%Q.
Proof.
  intros [H0 H1]. unfold clamp_float, float_max, float_min. simpl.
  destruct (Qlt_le_dec q 1) as [Hq | Hq]; simpl.
  - destruct (Qlt_le_dec 0 q) as [Hp | Hp].
    + exists q. by split.
    + exists 0%Q. split; [reflexivity | lra].
  - exists 1%Q. split; [reflexivity | lra].
Qed.

Lemma lower_hex_digit_nonspace (c : N) : lower_hex_digit c -> isspace c = false.
Proof.
  unfold lower_hex_digit. intros H.
  destruct (isspace c) eqn:E; [exfalso | reflexivity].
  unfold isspace in E.
  repeat rewrite ?orb_true_iff, ?andb_true_iff, ?N.leb_le, ?N.eqb_eq in E. lia.
Qed.

Lemma lower_hex_digit_hex (c : N) : lower_hex_digit c -> is_hex_digit c = true.
Proof.
  unfold lower_hex_digit, is_hex_digit. intros H.
  repeat rewrite ?orb_true_iff, ?andb_true_iff, ?N.leb_le. lia.
Qed.

Lemma lower_hex_digit_lower (ds : pystr) : Forall lower_hex_digit ds -> lower ds = ds.
Proof.
  unfold lower. induction 1 as [| c ds Hc Hds IH]; [reflexivity |].
  cbn [map]. rewrite IH. f_equal.
  destruct ((0x41 <=? c)%N && (c <=? 0x5A)%N) eqn:E; [exfalso | reflexivity].
  rewrite andb_true_iff, !N.leb_le in E. unfold lower_hex_digit in Hc. lia.
Qed.

(** A text without white space is tidy. *)
Lemma nonspace_tidy (s : pystr) : Forall (fun c => isspace c = false) s -> tidy s.
Proof.
  intros H i c Hi Hc. rewrite Forall_forall in H.
  rewrite (H c) in Hc; [discriminate | by eapply list_elem_of_lookup_2].
Qed.

(** A colour that the sanitizer has produced passes it unchanged. *)
Lemma sanitize_hex_color_fixed (v fallback : pyval) :
  hex_lower_color v -> sanitize_hex_color v fallback = v.
Proof.
  intros (ds & -> & Hds & Hlen).
  assert (Hns : Forall (fun c => isspace c = false) (0x23%N :: ds)).
  { constructor; [reflexivity |].
    eapply Forall_impl; [exact Hds | apply lower_hex_digit_nonspace]. }
  unfold sanitize_hex_color. cbv zeta.
  rewrite (tidy_strip _ (nonspace_tidy _ Hns)).
  assert (Hm : hex_color_match (0x23%N :: ds) = true).
  { cbn [hex_color_match]. apply andb_true_iff. split.
    - apply forallb_forall. intros c Hc. apply lower_hex_digit_hex.
      rewrite Forall_forall in Hds. apply Hds. by apply list_elem_of_In.
    - destruct Hlen as [-> | ->]; reflexivity. }
  rewrite Hm. f_equal.
  change (0x23%N :: ds) with ([0x23%N] ++ ds) at 1. unfold lower.
  rewrite map_app. fold (lower ds). by rewrite (lower_hex_digit_lower ds Hds).
Qed.

Lemma initial_settings_valid : valid_settings (subtitle_settings initial).
Proof.
  split; [| split; [| split]].
  - exists 56%Z. split; [reflexivity | lia].
  - exists (45 # 100)%Q. split; [reflexivity |].
    split; [split; unfold Qle; simpl; lia | by exists 45%Z].
  - exists (replicate 6 0x66%N). split; [reflexivity |]. split; [| by right].
    apply Forall_replicate. right. lia.
  - exists (replicate 6 0x30%N). split; [reflexivity |]. split; [| by right].
    apply Forall_replicate. left. lia.
Qed.

Section WithBuiltins.
Context {B : Builtins}.

Lemma sanitize_font_size_fixed (v fallback : pyval) :
  font_size_ok v -> sanitize_font_size v fallback = v.
Proof.
  intros (z & -> & Hz). unfold sanitize_font_size. cbn [py_int].
  f_equal. unfold clamp_int. lia.
Qed.

Lemma sanitize_opacity_fixed (v fallback : pyval) :
  opacity_ok v ->
  exists q q', v = VFloat (FFin q) /\
               sanitize_opacity v fallback = VFloat (FFin q') /\ (q' == q)%Q.
Proof.
  intros (q & -> & Hq & k & Hk). unfold sanitize_opacity. cbn [py_float].
  destruct (clamp_float_in_unit q Hq) as (x & -> & Hx). cbn [round2].
  exists q. eexists. split; [reflexivity |]. split; [reflexivity |].
  rewrite (round_half_even_exact (x * 100) k).
  - by rewrite Hk.
  - rewrite Hx, Hk. unfold Qeq, inject_Z. simpl. lia.
Qed.

Lemma update_subtitle_settings_state (data : gmap pystr pyval) (stamp : pystr)
  (st : state) :
  subtitle_state_lock st = false ->
  let st' := state_after (update_subtitle_settings data stamp st) in
  subtitle_state_lock st' = false /\
  subtitle_state st' = subtitle_state st /\
  settings_updated_at (subtitle_settings st') = Some stamp /\
  font_family (subtitle_settings st') =
    sanitize_font_family
      (default (font_family (subtitle_settings st)) (data !! py "font_family"))
      (font_family (subtitle_settings st)).
Proof. destruct st as [l ts ss]. simpl. intros ->. auto. Qed.

End WithBuiltins.

(** X11: an update leaves alone what it does not mention. With the lock
    free and the settings valid, [update_subtitle_settings] keeps the font
    size and both colours exactly, and the opacity as a number, for every
    key that [data] lacks; it never touches the subtitle text, and it
    stamps the settings with the time of the call. *)
Theorem update_subtitle_settings_keeps_absent
  (B : Builtins) (data : gmap pystr pyval) (stamp : pystr) (st : state) :
  subtitle_state_lock st = false ->
  valid_settings (subtitle_settings st) ->
  let old := subtitle_settings st in
  let st' := state_after (update_subtitle_settings data stamp st) in
  let new := subtitle_settings st' in
  (data !! py "font_size_px" = None -> font_size_px new = font_size_px old) /\
  (data !! py "text_color" = None -> text_color new = text_color old) /\
  (data !! py "background_color" = None ->
     background_color new = background_color old) /\
  (data !! py "background_opacity" = None ->
     exists q q', background_opacity old = VFloat (FFin q) /\
                  background_opacity new = VFloat (FFin q') /\ (q' == q)%Q) /\
  subtitle_state st' = subtitle_state st /\
  settings_updated_at new = Some stamp.
Proof.
  intros Hl (Hf & Ho & Ht & Hb) old st' new.
  destruct (update_subtitle_settings_eq data stamp st Hl)
    as (new' & Er & Ef & Et & Eb & Eo).
  assert (new' = new) as -> by (unfold new, st'; by rewrite Er).
  destruct (update_subtitle_settings_state data stamp st Hl) as (_ & Hs & Hu & _).
  fold old in Ef, Et, Eb, Eo.
  split; [| split; [| split; [| split; [| split]]]].
  - intros Hd. rewrite Ef, Hd. by apply sanitize_font_size_fixed.
  - intros Hd. rewrite Et, Hd. by apply sanitize_hex_color_fixed.
  - intros Hd. rewrite Eb, Hd. by apply sanitize_hex_color_fixed.
  - intros Hd. rewrite Eo, Hd. by apply sanitize_opacity_fixed.
  - exact Hs.
  - exact Hu.
Qed.

Lemma update_subtitle_settings_keeps_absent_witness :
  subtitle_state_lock initial = false /\
  valid_settings (subtitle_settings initial) /\
  let new := subtitle_settings
               (state_after (update_subtitle_settings (B := ascii_builtins) loud
                               (py "2026-02-11T20:15:00.000000Z") initial)) in
  font_size_px new = VInt 140 /\
  background_color new = VStr (py "#000000").
Proof.
  split; [reflexivity |]. split; [exact initial_settings_valid |].
  split; [vm_compute; reflexivity |].
  apply (update_subtitle_settings_keeps_absent ascii_builtins loud
           (py "2026-02-11T20:15:00.000000Z") initial eq_refl initial_settings_valid).
  vm_compute. reflexivity.
Defined.

(** *** The font family *)

Lemma Forall_join (P : N -> Prop) (sep : pystr) (ws : list pystr) :
  Forall P sep -> Forall (Forall P) ws -> Forall P (join sep ws).
Proof.
  intros Hsep. induction 1 as [| w ws Hw Hws IH]; [constructor |].
  destruct ws as [| w' ws]; [exact Hw |].
  rewrite join_cons_cons. apply Forall_app. split; [exact Hw |].
  apply Forall_app. by split.
Qed.

Lemma Forall_split_from (P : N -> Prop) (s : pystr) :
  forall acc : pystr,
    Forall P acc -> Forall P s -> Forall (Forall P) (split_from acc s).
Proof.
  induction s as [| c s IH]; intros acc Hacc Hs; cbn [split_from].
  - destruct acc as [| a acc]; [constructor |].
    constructor; [exact Hacc | constructor].
  - apply Forall_cons in Hs as [Hc Hs]. destruct (isspace c).
    + destruct acc as [| a acc]; [by apply IH |].
      constructor; [exact Hacc | by apply IH].
    + apply IH; [| exact Hs]. apply Forall_app. split; [exact Hacc |].
      constructor; [exact Hc | constructor].
Qed.

Lemma filter_all {A} (f : A -> bool) (l : list A) :
  Forall (fun x => f x = true) l -> List.filter f l = l.
Proof.
  induction 1 as [| x l Hx Hl IH]; [reflexivity |].
  cbn [List.filter]. by rewrite Hx, IH.
Qed.

Lemma Forall_filter_self {A} (f : A -> bool) (l : list A) :
  Forall (fun x => f x = true) (List.filter f l).
Proof.
  apply Forall_forall. intros x Hx. apply list_elem_of_In in Hx.
  by apply filter_In in Hx as [_ Hx].
Qed.

Lemma lstrip_head (c : N) (s : pystr) : isspace c = false -> lstrip (c :: s) = c :: s.
Proof. intros H. cbn [lstrip]. by rewrite H. Qed.

Lemma tidy_head (c : N) (s : pystr) : tidy (c :: s) -> isspace c = false.
Proof.
  intros Ht. destruct (isspace c) eqn:Hc; [| reflexivity].
  by destruct (Ht 0 c eq_refl Hc) as (_ & (j & c' & Hj & _) & _).
Qed.

Section WithBuiltins.
Context {B : Builtins}.

Lemma font_char_space : font_char 0x20%N = true.
Proof. unfold font_char. by destruct (isalnum 0x20%N). Qed.

(** The sanitizer looks at its input only through [strip]. *)
Lemma sanitize_font_family_strip (x y : pystr) (fallback : pyval) :
  strip x = strip y ->
  sanitize_font_family (VStr x) fallback = sanitize_font_family (VStr y) fallback.
Proof. intros E. unfold sanitize_font_family. by rewrite E. Qed.

(** The text that is cut to 96 characters is tidy and made of the
    characters the sanitizer keeps. *)
Lemma font_family_safe (trimmed : pystr) :
  let safe := join (py " ") (split (List.filter font_char trimmed)) in
  tidy safe /\ Forall (fun c => font_char c = true) safe.
Proof.
  split.
  - apply tidy_join, split_words.
  - apply Forall_join; [repeat constructor; apply font_char_space |].
    apply Forall_split_from; [constructor | apply Forall_filter_self].
Qed.

(** On a tidy text of kept characters the sanitizer only cuts. *)
Lemma sanitize_font_family_tidy (s : pystr) (fallback : pyval) :
  tidy s -> s <> [] -> Forall (fun c => font_char c = true) s ->
  sanitize_font_family (VStr s) fallback = VStr (take 96 s).
Proof.
  intros Ht Hne Hfc. unfold sanitize_font_family.
  pose proof (tidy_strip s Ht) as E1.
  pose proof (filter_all font_char s Hfc) as E2.
  pose proof (join_split_tidy s Ht) as E3.
  rewrite E1. destruct s as [| c s]; [done |].
  cbv beta iota zeta. rewrite E2, E3. reflexivity.
Qed.

End WithBuiltins.

(** X12: what [sanitize_font_family] returns. It is the fallback, or a
    string of 1 to 96 characters, each of them alphanumeric, a space, a
    comma, a hyphen or a quote mark, that is tidy (words one space apart,
    no white space at either end) except that a string of exactly 96
    characters may end in one space. A tidy, non-empty string of at most 96
    such characters is returned as it is. *)
Theorem sanitize_font_family_shape
  (B : Builtins) (value fallback : pyval) (s : pystr) :
  (sanitize_font_family value fallback = fallback \/
   exists r t,
     sanitize_font_family value fallback = VStr r /\
     r <> [] /\ length r <= 96 /\ Forall (fun c => font_char c = true) r /\
     tidy t /\ (r = t \/ (r = t ++ [0x20%N] /\ length r = 96))) /\
  (tidy s -> s <> [] -> length s <= 96 ->
   Forall (fun c => font_char c = true) s ->
   sanitize_font_family (VStr s) fallback = VStr s).
Proof.
  split.
  - destruct value as [| | | | v | |]; try (by left).
    unfold sanitize_font_family.
    destruct (strip v) as [| c0 tr] eqn:Es; [by left |].
    cbv beta iota zeta.
    destruct (font_family_safe (c0 :: tr)) as [Ht Hfc]. cbv zeta in Ht, Hfc.
    set (safe := join (py " ") (split (List.filter font_char (c0 :: tr)))) in *.
    destruct safe as [| a sf] eqn:Esafe; [by left |]. right.
    rewrite <- Esafe in *.
    assert (Hne : take 96 safe <> []) by (by rewrite Esafe).
    assert (Hlen : length (take 96 safe) <= 96) by (rewrite length_take; lia).
    assert (Hall : Forall (fun c => font_char c = true) (take 96 safe))
      by (by apply Forall_take).
    destruct (decide (length safe <= 96)) as [Hshort | Hlong].
    + exists (take 96 safe), safe. rewrite (take_ge safe 96 Hshort) in *.
      do 4 (split; [assumption || reflexivity |]). split; [exact Ht | by left].
    + destruct (lookup_lt_is_Some_2 safe 95) as [c Hc]; [lia |].
      destruct (isspace c) eqn:Hsp.
      * destruct (Ht 95 c Hc Hsp) as (-> & (j & c' & [= <-] & Hj & Hc') & _).
        exists (take 96 safe), (take 95 safe).
        do 4 (split; [assumption || reflexivity |]).
        split; [by apply (tidy_take safe 94 c') |].
        right. split; [by apply take_S_r |]. rewrite length_take. lia.
      * exists (take 96 safe), (take 96 safe).
        do 4 (split; [assumption || reflexivity |]).
        split; [by apply (tidy_take safe 95 c) | by left].
  - intros Ht Hne Hlen Hfc.
    rewrite (sanitize_font_family_tidy s fallback Ht Hne Hfc).
    by rewrite take_ge.
Qed.

Lemma sanitize_font_family_shape_witness :
  sanitize_font_family (B := ascii_builtins)
    (VStr (py "  Comic <Sans>;   MS,cursive ")) VNone = VStr (py "Comic Sans MS,cursive") /\
  sanitize_font_family (B := ascii_builtins)
    (VStr (py "Comic Sans MS,cursive")) VNone = VStr (py "Comic Sans MS,cursive").
Proof.
  split; [vm_compute; reflexivity |].
  apply (sanitize_font_family_shape ascii_builtins VNone VNone
           (py "Comic Sans MS,cursive")).
  - apply (tidy_join [py "Comic"; py "Sans"; py "MS,cursive"]).
    repeat constructor; discriminate.
  - discriminate.
  - vm_compute. lia.
  - repeat constructor.
Defined.

(** X13: the cut is not stable. When a tidy family name of kept characters
    has a space as its 96th character, an update that sets it stores the
    first 96 characters, space included; the next update, even one that
    does not mention the font family, strips that space and stores the
    first 95. *)
Theorem font_family_cut_loses_space
  (B : Builtins) (s stamp1 stamp2 : pystr) (data : gmap pystr pyval) (st : state) :
  subtitle_state_lock st = false ->
  tidy s -> Forall (fun c => font_char c = true) s -> s !! 95 = Some 0x20%N ->
  data !! py "font_family" = None ->
  let st1 := state_after
               (update_subtitle_settings {[ py "font_family" := VStr s ]} stamp1 st) in
  let st2 := state_after (update_subtitle_settings data stamp2 st1) in
  font_family (subtitle_settings st1) = VStr (take 96 s) /\
  font_family (subtitle_settings st2) = VStr (take 95 s) /\
  take 95 s <> take 96 s.
Proof.
  intros Hl Ht Hfc H95 Hd st1 st2.
  pose proof (lookup_lt_Some _ _ _ H95) as Hlen.
  assert (Hne : s <> []) by (intros ->; discriminate).
  destruct (update_subtitle_settings_state
              {[ py "font_family" := VStr s ]} stamp1 st Hl) as (Hl1 & _ & _ & E1).
  fold st1 in Hl1, E1. rewrite lookup_singleton_eq in E1. cbn [default] in E1.
  rewrite (sanitize_font_family_tidy s _ Ht Hne Hfc) in E1.
  destruct (update_subtitle_settings_state data stamp2 st1 Hl1) as (_ & _ & _ & E2).
  fold st2 in E2. rewrite Hd, E1 in E2. cbn [default] in E2.
  destruct (Ht 95 _ H95 eq_refl) as (_ & (j & c' & [= <-] & Hj & Hc') & _).
  assert (Ht95 : tidy (take 95 s)) by (by apply (tidy_take s 94 c')).
  assert (Hstrip : strip (take 96 s) = strip (take 95 s)).
  { rewrite (tidy_strip _ Ht95). unfold strip.
    destruct s as [| c s]; [done |].
    change (take 96 (c :: s)) with (c :: take 95 s) at 1.
    rewrite (lstrip_head c _ (tidy_head c s Ht)).
    change (c :: take 95 s) with (take 96 (c :: s)).
    by rewrite (tidy_take_rstrip (c :: s) 95 _ Ht H95). }
  rewrite (sanitize_font_family_strip _ _ _ Hstrip) in E2.
  rewrite sanitize_font_family_tidy in E2.
  - split; [exact E1 |]. split.
    + rewrite E2. f_equal. rewrite take_take. f_equal.
    + intros E. apply (f_equal length) in E. rewrite !length_take in E. lia.
  - exact Ht95.
  - intros E. apply (f_equal length) in E. rewrite length_take in E.
    cbn [length] in E. lia.
  - by apply Forall_take.
Qed.

Definition verdanas : pystr := join (py " ") (replicate 13 (py "Verdana")).

Lemma font_family_cut_loses_space_witness :
  let st1 := state_after
               (update_subtitle_settings (B := ascii_builtins)
                  {[ py "font_family" := VStr verdanas ]}
                  (py "2026-02-11T20:15:00.000000Z") initial) in
  let st2 := state_after
               (update_subtitle_settings (B := ascii_builtins) ∅
                  (py "2026-02-11T20:16:00.000000Z") st1) in
  length verdanas = 103 /\
  font_family (subtitle_settings st1) = VStr (take 96 verdanas) /\
  font_family (subtitle_settings st2) = VStr (take 95 verdanas).
Proof.
  intros st1 st2. split; [vm_compute; reflexivity |].
  assert (Ht : tidy verdanas).
  { apply tidy_join, Forall_replicate. split; [discriminate | by repeat constructor]. }
  assert (Hfc : Forall (fun c => font_char (B := ascii_builtins) c = true) verdanas).
  { apply Forall_join; [by repeat constructor |].
    apply Forall_replicate. by repeat constructor. }
  destruct (font_family_cut_loses_space ascii_builtins verdanas
              (py "2026-02-11T20:15:00.000000Z") (py "2026-02-11T20:16:00.000000Z")
              ∅ initial eq_refl Ht Hfc eq_refl (lookup_empty _)) as (E1 & E2 & _).
  by split.
Defined.

(** *** The opacity *)

(** X14: [sanitize_opacity] never falls back on a [float]. The result is a
    whole number [k] of hundredths between 0 and 1: not-a-number and plus
    infinity give 1, minus infinity gives 0, a finite number at or below 0
    gives 0 and one at or above 1 gives 1, and a number in between is moved
    by at most half a hundredth. *)
Theorem sanitize_opacity_float (B : Builtins) (f : pyfloat) (fallback : pyval) :
  exists k : Z,
    sanitize_opacity (VFloat f) fallback = VFloat (FFin (k # 100)) /\
    (0 <= k <= 100)%Z /\
    match f with
    | FNan | FInf false => k = 100%Z
    | FInf true => k = 0%Z
    | FFin x =>
        ((x <= 0)%Q -> k = 0%Z) /\ ((1 <= x)%Q -> k = 100%Z) /\
        ((0 <= x <= 1)%Q -> (-(1 # 2) <= inject_Z k - x * 100 <= 1 # 2)%Q)
    end.
Proof.
  unfold sanitize_opacity. cbn [py_float].
  destruct f as [| [] | x].
  - exists 100%Z. split; [vm_compute; reflexivity |]. split; [lia | reflexivity].
  - exists 0%Z. split; [vm_compute; reflexivity |]. split; [lia | reflexivity].
  - exists 100%Z. split; [vm_compute; reflexivity |]. split; [lia | reflexivity].
  - unfold clamp_float, float_max, float_min. cbn [float_lt].
    destruct (Qlt_le_dec x 1) as [H1 | H1]; cbn [float_lt].
    + destruct (Qlt_le_dec 0 x) as [H0 | H0].
      * exists (round_half_even (x * 100)). split; [reflexivity |].
        split; [apply round_half_even_bounds;
                change (inject_Z 0) with 0%Q; change (inject_Z 100) with 100%Q; lra |].
        split; [intros ?; lra |]. split; [intros ?; lra |].
        intros _. apply round_half_even_near.
      * exists 0%Z. split; [vm_compute; reflexivity |]. split; [lia |].
        split; [reflexivity |]. split; [intros ?; lra |].
        intros [? ?]. change (inject_Z 0) with 0%Q. lra.
    + exists 100%Z. split; [vm_compute; reflexivity |]. split; [lia |].
      split; [intros ?; lra |]. split; [reflexivity |].
      intros [? ?]. change (inject_Z 100) with 100%Q. lra.
Qed.

Lemma sanitize_opacity_float_witness :
  sanitize_opacity (B := ascii_builtins) (VFloat FNan) VNone = VFloat (FFin (100 # 100)) /\
  exists k : Z,
    sanitize_opacity (B := ascii_builtins) (VFloat (FFin (3333 # 10000))) VNone =
      VFloat (FFin (k # 100)) /\
    (-(1 # 2) <= inject_Z k - (3333 # 10000) * 100 <= 1 # 2)%Q.
Proof.
  split; [vm_compute; reflexivity |].
  destruct (sanitize_opacity_float ascii_builtins (FFin (3333 # 10000)) VNone)
    as (k & E & _ & _ & _ & Hnear).
  exists k. split; [exact E |]. apply Hnear. split; unfold Qle; simpl; lia.
Defined.

End SubtitleStyle.

(** ** The subtitle routes *)

Module SubtitleRoutes.
Import Subtitles TextFacts SubtitleSpec SubtitleMore.

(** What a route answers: the error bodies go with status 400, the others
    with 200. *)
Inductive response :=
| Invalid_payload
| Text_required
| Ok_subtitle (payload : text_state)
| Ok_settings (payload : settings).

Definition status_code (r : response) : Z :=
  match r with
  | Invalid_payload | Text_required => 400
  | Ok_subtitle _ | Ok_settings _ => 200
  end.

(** What a route sends: the socket events of the subtitle store, and the
    row that [log_event("subtitle", data={"text": .., "final": ..})]
    writes. *)
Inductive event :=
| socket (e : Subtitles.event)
| log_subtitle (text_ : pystr) (final_ : bool).

(** A call into the subtitle store from a route. *)
Definition via {A} (m : M Subtitles.event state A) : M event state A := fun st =>
  match m st with
  | Returned a s out => Returned a s (map socket out)
  | Raised e s out => Raised e s (map socket out)
  | Blocked s out => Blocked s (map socket out)
  end.

(** [d.get(key, dflt)] on the items of a dict, which hold each key once. *)
Definition dict_get (key : pystr) (items : list (pystr * pyval)) (dflt : pyval)
  : pyval :=
  match find (fun kv => bool_decide (kv.1 = key)) items with
  | Some kv => kv.2
  | None => dflt
  end.

(** [request.json or {}] *)
Definition json_or_empty (body : pyval) : pyval :=
  if py_bool body then body else VDict [].

Section WithBuiltins.
Context {B : Builtins}.

(** [api_subtitle_push()]; [body] is [request.json] and [stamp] the
    reading of [now_iso()]. *)
Definition api_subtitle_push (body : pyval) (stamp : pystr) : M event state response :=
  match json_or_empty body with
  | VDict data =>
      let raw_text := py_str (dict_get (py "text") data (VStr [])) in
      let text_value := strip raw_text in
      let final_value := py_bool (dict_get (py "final") data (VBool true)) in
      match text_value with
      | [] => ret Text_required
      | _ =>
          payload <- via (set_subtitle_text (VStr text_value) (VBool final_value) stamp) ;;
          emit (log_subtitle (text payload) (final payload)) ;;;
          ret (Ok_subtitle payload)
      end
  | _ => ret Invalid_payload
  end.

(** [api_subtitle_clear()] *)
Definition api_subtitle_clear (stamp : pystr) : M event state response :=
  payload <- via (set_subtitle_text (VStr []) (VBool true) stamp) ;;
  ret (Ok_subtitle payload).


End WithBuiltins.

Lemma lstrip_head_nonspace (s : pystr) (c : N) (r : pystr) :
  lstrip s = c :: r -> isspace c = false.
Proof.
  induction s as [| a s IH]; [discriminate |]. cbn [lstrip].
  destruct (isspace a) eqn:Ha; [exact IH |]. by intros [= <- _].
Qed.

Lemma rstrip_head (c : N) (s : pystr) :
  isspace c = false -> exists r, rstrip (c :: s) = c :: r.
Proof.
  intros Hc. cbn [rstrip]. destruct (rstrip s) as [| a r].
  - rewrite Hc. by exists [].
  - by exists (a :: r).
Qed.

Lemma strip_head_nonspace (s : pystr) (c : N) (r : pystr) :
  strip s = c :: r -> isspace c = false.
Proof.
  unfold strip. destruct (lstrip s) as [| a l] eqn:El; [discriminate |].
  pose proof (lstrip_head_nonspace s a l El) as Ha.
  destruct (rstrip_head a l Ha) as (r' & ->). by intros [= <- _].
Qed.

(** The first word of a split starts with the run that was being read. *)
Lemma split_from_head (s : pystr) :
  forall acc : pystr, acc <> [] ->
    exists t ws, split_from acc s = (acc ++ t) :: ws.
Proof.
  induction s as [| c s IH]; intros acc Hacc; cbn [split_from].
  - destruct acc; [done |]. exists [], []. by rewrite app_nil_r.
  - destruct (isspace c).
    + destruct acc; [done |]. exists [], (split_from [] s). by rewrite app_nil_r.
    + destruct (IH (acc ++ [c])) as (t & ws & ->); [by destruct acc |].
      exists (c :: t), ws. by rewrite <- (assoc_L (++)).
Qed.

Section WithBuiltins.
Context {B : Builtins}.

(** A text that starts with a character that is not white space is never
    stored as the empty text. *)
Lemma normalize_subtitle_nonempty (c : N) (r : pystr) :
  isspace c = false -> normalize_subtitle (VStr (c :: r)) <> [].
Proof.
  intros Hc. rewrite normalize_subtitle_eq. cbv zeta. cbn [py_str].
  assert (Hn : exists rest, join (py " ") (split (c :: r)) = c :: rest).
  { unfold split. cbn [split_from]. rewrite Hc. cbn [app].
    destruct (split_from_head r [c]) as (t & ws & ->); [done |].
    destruct ws as [| w ws]; [by exists t |].
    rewrite join_cons_cons. by eexists. }
  destruct Hn as (rest & ->).
  destruct (220 <? length (c :: rest))%nat; [| done].
  change (take 220 (c :: rest)) with (c :: take 219 rest).
  by destruct (rstrip_head c (take 219 rest) Hc) as (r' & ->).
Qed.

Lemma set_subtitle_text_free (text_ final_value : pyval) (stamp : pystr) (st : state) :
  subtitle_state_lock st = false ->
  let p := {| text := normalize_subtitle text_; final := py_bool final_value;
              updated_at := Some stamp |} in
  set_subtitle_text text_ final_value stamp st =
    Returned p
      {| subtitle_state_lock := false; subtitle_state := p;
         subtitle_settings := subtitle_settings st |}
      [subtitle_update p].
Proof. destruct st as [l ts ss]. simpl. by intros ->. Qed.

Lemma set_subtitle_text_held (text_ final_value : pyval) (stamp : pystr) (st : state) :
  subtitle_state_lock st = true ->
  set_subtitle_text text_ final_value stamp st = Blocked st [].
Proof. destruct st as [l ts ss]. simpl. by intros ->. Qed.

End WithBuiltins.

(** X15: [api_subtitle_push] never raises, and a push never stores an empty
    subtitle. An answer with status 400 changes nothing and sends nothing,
    and is given whether the lock is held or not: a body that is not a dict
    is always answered [Invalid payload], and a dict whose text is blank
    always [text is required]. With a text that is not blank, the call
    blocks when the lock is held, and otherwise answers with status 200: the
    answer carries the stored line, which is the normalised text with the
    truth value of [final] and the time of the call, is tidy, has 1 to 220
    characters, is published once and logged once, and leaves the settings
    alone and the lock free. So the call blocks exactly when the lock is
    held and the text is not blank. Only [api_subtitle_clear] stores the
    empty text, and it blocks whenever the lock is held. *)
Theorem api_subtitle_push_outcome
  (B : Builtins) (body : pyval) (stamp : pystr) (st : state) :
  match api_subtitle_push body stamp st with
  | Returned resp st' out =>
      match resp with
      | Ok_subtitle p =>
          subtitle_state_lock st = false /\
          st' = {| subtitle_state_lock := false; subtitle_state := p;
                   subtitle_settings := subtitle_settings st |} /\
          text p <> [] /\ tidy (text p) /\ length (text p) <= 220 /\
          updated_at p = Some stamp /\
          out = [socket (subtitle_update p); log_subtitle (text p) (final p)]
      | Ok_settings _ => False
      | Invalid_payload | Text_required => st' = st /\ out = []
      end
  | Blocked st' out => subtitle_state_lock st = true /\ st' = st /\ out = []
  | Raised _ _ _ => False
  end /\
  (subtitle_state_lock st = false ->
   returned (api_subtitle_push body stamp st) <> None /\
   exists p, api_subtitle_clear stamp st =
               Returned (Ok_subtitle p)
                 {| subtitle_state_lock := false; subtitle_state := p;
                    subtitle_settings := subtitle_settings st |}
                 [socket (subtitle_update p)] /\
             text p = [] /\ final p = true) /\
  ((forall data, json_or_empty body <> VDict data) ->
   api_subtitle_push body stamp st = Returned Invalid_payload st []) /\
  (forall data, json_or_empty body = VDict data ->
   let text_value := strip (py_str (dict_get (py "text") data (VStr []))) in
   let final_value := py_bool (dict_get (py "final") data (VBool true)) in
   let p := {| text := normalize_subtitle (VStr text_value); final := final_value;
               updated_at := Some stamp |} in
   (text_value = [] ->
    api_subtitle_push body stamp st = Returned Text_required st []) /\
   (text_value <> [] -> subtitle_state_lock st = true ->
    api_subtitle_push body stamp st = Blocked st []) /\
   (text_value <> [] -> subtitle_state_lock st = false ->
    api_subtitle_push body stamp st =
      Returned (Ok_subtitle p)
        {| subtitle_state_lock := false; subtitle_state := p;
           subtitle_settings := subtitle_settings st |}
        [socket (subtitle_update p); log_subtitle (text p) (final p)])) /\
  (api_subtitle_push body stamp st = Blocked st [] <->
   subtitle_state_lock st = true /\
   exists data, json_or_empty body = VDict data /\
                strip (py_str (dict_get (py "text") data (VStr []))) <> []) /\
  (subtitle_state_lock st = true -> api_subtitle_clear stamp st = Blocked st []).
Proof.
  assert (Hpush :
    forall data, json_or_empty body = VDict data ->
    forall c r, strip (py_str (dict_get (py "text") data (VStr []))) = c :: r ->
    api_subtitle_push body stamp st =
      (payload <- via (set_subtitle_text (VStr (c :: r))
                         (VBool (py_bool (dict_get (py "final") data (VBool true))))
                         stamp) ;;
       emit (log_subtitle (text payload) (final payload)) ;;;
       ret (Ok_subtitle payload)) st).
  { intros data Ed c r Es. unfold api_subtitle_push. rewrite Ed. cbv zeta.
    by rewrite Es. }
  assert (Hbad : (forall data, json_or_empty body <> VDict data) ->
                 api_subtitle_push body stamp st = Returned Invalid_payload st []).
  { intros Hn. unfold api_subtitle_push.
    destruct (json_or_empty body) as [| | | | | | data]; try reflexivity.
    by destruct (Hn data). }
  assert (Hblank : forall data, json_or_empty body = VDict data ->
            strip (py_str (dict_get (py "text") data (VStr []))) = [] ->
            api_subtitle_push body stamp st = Returned Text_required st []).
  { intros data Ed Es. unfold api_subtitle_push. rewrite Ed. cbv zeta.
    by rewrite Es. }
  assert (Hheld : forall data, json_or_empty body = VDict data ->
            strip (py_str (dict_get (py "text") data (VStr []))) <> [] ->
            subtitle_state_lock st = true ->
            api_subtitle_push body stamp st = Blocked st []).
  { intros data Ed Es Hl.
    destruct (strip (py_str (dict_get (py "text") data (VStr [])))) as [| c r] eqn:E;
      [done |].
    rewrite (Hpush data Ed c r E). unfold bind, via.
    by rewrite set_subtitle_text_held by exact Hl. }
  split.
  - destruct (json_or_empty body) as [| | | | | | data] eqn:Ed;
      try (unfold api_subtitle_push; rewrite Ed; by split).
    destruct (strip (py_str (dict_get (py "text") data (VStr [])))) as [| c r] eqn:Es.
    { unfold api_subtitle_push. rewrite Ed. cbv zeta. rewrite Es. by split. }
    rewrite (Hpush data eq_refl c r Es).
    pose proof (strip_head_nonspace _ c r Es) as Hc.
    destruct (subtitle_state_lock st) eqn:Hl.
    + unfold bind, via. rewrite set_subtitle_text_held by exact Hl. by split.
    + unfold bind, via. rewrite set_subtitle_text_free by exact Hl.
      cbv zeta. cbn [map emit ret app text final updated_at].
      destruct (normalize_subtitle_tidy (VStr (c :: r))) as [Ht Hlen].
      split; [reflexivity |]. split; [reflexivity |].
      split; [by apply normalize_subtitle_nonempty |].
      split; [exact Ht |]. split; [exact Hlen |]. split; reflexivity.
  - split; [| split; [exact Hbad | split; [| split]]].
    + intros Hl. split.
      * destruct (json_or_empty body) as [| | | | | | data] eqn:Ed;
          try (unfold api_subtitle_push; rewrite Ed; discriminate).
        destruct (strip (py_str (dict_get (py "text") data (VStr [])))) as [| c r] eqn:Es.
        { unfold api_subtitle_push. rewrite Ed. cbv zeta. rewrite Es. discriminate. }
        rewrite (Hpush data eq_refl c r Es).
        unfold bind, via. rewrite set_subtitle_text_free by exact Hl. discriminate.
      * unfold api_subtitle_clear, bind, via.
        rewrite set_subtitle_text_free by exact Hl. cbv zeta.
        eexists. split; [reflexivity |]. split; [| reflexivity].
        cbn [text]. rewrite normalize_subtitle_eq. reflexivity.
    + intros data Ed text_value final_value p.
      split; [exact (Hblank data Ed) |]. split; [exact (Hheld data Ed) |].
      intros Hne Hl. subst p final_value text_value.
      destruct (strip (py_str (dict_get (py "text") data (VStr [])))) as [| c r] eqn:E;
        [done |].
      rewrite (Hpush data Ed c r E). unfold bind, via.
      rewrite set_subtitle_text_free by exact Hl. reflexivity.
    + split.
      * intros Eb.
        destruct (json_or_empty body) as [| | | | | | data] eqn:Ed;
          try (rewrite Hbad in Eb by discriminate; discriminate Eb).
        destruct (strip (py_str (dict_get (py "text") data (VStr [])))) as [| c r] eqn:Es.
        { rewrite (Hblank data eq_refl Es) in Eb. discriminate Eb. }
        destruct (subtitle_state_lock st) eqn:Hl.
        -- split; [reflexivity |]. exists data. split; [reflexivity |].
           by rewrite Es.
        -- rewrite (Hpush data eq_refl c r Es) in Eb. unfold bind, via in Eb.
           rewrite set_subtitle_text_free in Eb by exact Hl. discriminate Eb.
      * intros (Hl & data & Ed & Hne). by apply (Hheld data).
    + intros Hl. unfold api_subtitle_clear, bind, via.
      by rewrite set_subtitle_text_held by exact Hl.
Qed.

Lemma api_subtitle_push_outcome_witness :
  let stamp := py "2026-02-11T20:15:00.000000Z" in
  let held := {| subtitle_state_lock := true;
                 subtitle_state := subtitle_state initial;
                 subtitle_settings := subtitle_settings initial |} in
  let hello := VDict [(py "text", VStr (py "  hello   chat  ")); (py "final", VInt 0)] in
  let line := {| text := py "hello chat"; final := false; updated_at := Some stamp |} in
  api_subtitle_push (B := ascii_builtins) (VList [VInt 1]) stamp held =
    Returned Invalid_payload held [] /\
  api_subtitle_push (B := ascii_builtins) (VDict [(py "text", VStr (py "   "))]) stamp held =
    Returned Text_required held [] /\
  api_subtitle_push (B := ascii_builtins) hello stamp held = Blocked held [] /\
  api_subtitle_push (B := ascii_builtins) hello stamp initial =
    Returned (Ok_subtitle line)
      {| subtitle_state_lock := false; subtitle_state := line;
         subtitle_settings := subtitle_settings initial |}
      [socket (subtitle_update line); log_subtitle (py "hello chat") false] /\
  api_subtitle_clear (B := ascii_builtins) stamp held = Blocked held [] /\
  returned (api_subtitle_push (B := ascii_builtins) (VList [VInt 1]) stamp initial) <> None.
Proof.
  intros stamp held hello line.
  split.
  { pose proof (api_subtitle_push_outcome ascii_builtins (VList [VInt 1]) stamp held)
      as (_ & _ & Hbad & _).
    apply Hbad. intros data. vm_compute. discriminate. }
  split.
  { pose proof (api_subtitle_push_outcome ascii_builtins
                  (VDict [(py "text", VStr (py "   "))]) stamp held)
      as (_ & _ & _ & Hd & _).
    destruct (Hd [(py "text", VStr (py "   "))] eq_refl) as (Hblank & _).
    apply Hblank. vm_compute. reflexivity. }
  split.
  { pose proof (api_subtitle_push_outcome ascii_builtins hello stamp held)
      as (_ & _ & _ & Hd & _).
    destruct (Hd [(py "text", VStr (py "  hello   chat  ")); (py "final", VInt 0)]
                eq_refl) as (_ & Hheld & _).
    apply Hheld; [vm_compute; discriminate | reflexivity]. }
  split.
  { pose proof (api_subtitle_push_outcome ascii_builtins hello stamp initial)
      as (_ & _ & _ & Hd & _).
    destruct (Hd [(py "text", VStr (py "  hello   chat  ")); (py "final", VInt 0)]
                eq_refl) as (_ & _ & Hok).
    rewrite Hok; [vm_compute; reflexivity | vm_compute; discriminate | reflexivity]. }
  split.
  { pose proof (api_subtitle_push_outcome ascii_builtins (VList [VInt 1]) stamp held)
      as (_ & _ & _ & _ & _ & Hclear).
    apply Hclear. reflexivity. }
  pose proof (api_subtitle_push_outcome ascii_builtins (VList [VInt 1]) stamp initial)
    as (_ & Hfree & _).
  apply Hfree. reflexivity.
Defined.



End SubtitleRoutes.

(** ** Creating a clip ([create_twitch_clip]) *)

Module TwitchClip.

(** [config.py] *)
Record config := {
  TWITCH_CLIENT_ID : pystr;
  TWITCH_OAUTH_TOKEN : pystr;
  TWITCH_CHANNEL : pystr
}.

(** The values of [config.py] when the environment sets none of them. *)
Definition unconfigured : config :=
  {| TWITCH_CLIENT_ID := py "YOUR_CLIENT_ID";
     TWITCH_OAUTH_TOKEN := py "oauth:YOUR_OAUTH_TOKEN";
     TWITCH_CHANNEL := py "YOUR_CHANNEL_NAME" |}.

(** The two calls of [http_requests], with the [Client-ID] and
    [Authorization] headers and the query parameter. *)
Inductive request :=
| get_users (client_id authorization login : pystr)
| post_clips (client_id authorization : pystr) (broadcaster_id : pyval).

(** What a call gives: it raises, or it returns a response with its
    [status_code], what [json()] returns (nothing when it raises) and its
    [text]. *)
Inductive reply :=
| Fails
| Reply (status_code : Z) (json : option pyval) (text_ : pystr).

(** What [create_twitch_clip] returns when it does not return [None]; the
    two fields are whatever the answer of Twitch holds. *)
Record clip := { clip_id : pyval; edit_url : pyval }.

(** [v[key]] for a string [key]; nothing when it raises. *)
Definition item (key : pystr) (v : pyval) : option pyval :=
  match v with
  | VDict items => snd <$> find (fun kv => bool_decide (kv.1 = key)) items
  | _ => None
  end.

(** [v[0]]; nothing when it raises. *)
Definition item_0 (v : pyval) : option pyval :=
  match v with
  | VList (x :: _) => Some x
  | VStr (c :: _) => Some (VStr [c])
  | _ => None
  end.

(** [v.get(key, dflt)]; nothing when [v] has no such method. *)
Definition get_method (key : pystr) (dflt : pyval) (v : pyval) : option pyval :=
  match v with
  | VDict items => Some (SubtitleRoutes.dict_get key items dflt)
  | _ => None
  end.

(** [user_resp.json()["data"][0]["id"]] *)
Definition broadcaster_id_of (json : option pyval) : option pyval :=
  j ← json; d ← item (py "data") j; u ← item_0 d; item (py "id") u.

(** [clip_resp.json().get("data", [{}])[0]] *)
Definition clip_data_of (json : option pyval) : option pyval :=
  j ← json; d ← get_method (py "data") (VList [VDict []]) j; item_0 d.

(** The token without its [oauth:] prefix. *)
Definition oauth (cfg : config) : pystr :=
  if startswith (py "oauth:") (TWITCH_OAUTH_TOKEN cfg)
  then drop 6 (TWITCH_OAUTH_TOKEN cfg)
  else TWITCH_OAUTH_TOKEN cfg.

(** [create_twitch_clip()]: the result and the calls of [http_requests]
    that were made, in order. [net] is what the network answers. Every
    exception inside the [try] ends in [return None]. *)
Definition create_twitch_clip (cfg : config) (net : request -> reply)
  : option clip * list request :=
  if contains (py "YOUR_") (TWITCH_CLIENT_ID cfg) || contains (py "YOUR_") (oauth cfg)
  then (None, [])
  else
    let authorization := py "Bearer " ++ oauth cfg in
    let users := get_users (TWITCH_CLIENT_ID cfg) authorization (TWITCH_CHANNEL cfg) in
    match net users with
    | Fails => (None, [users])
    | Reply status_code json _ =>
        if negb (status_code =? 200)%Z then (None, [users])
        else
          match broadcaster_id_of json with
          | None => (None, [users])
          | Some broadcaster_id =>
              let clips :=
                post_clips (TWITCH_CLIENT_ID cfg) authorization broadcaster_id in
              match net clips with
              | Fails => (None, [users; clips])
              | Reply status_code json _ =>
                  if ((status_code =? 200) || (status_code =? 202))%Z then
                    match clip_data_of json with
                    | Some (VDict clip_data) =>
                        (Some {| clip_id := SubtitleRoutes.dict_get (py "id") clip_data
                                              (VStr (py "unknown"));
                                 edit_url := SubtitleRoutes.dict_get (py "edit_url")
                                               clip_data (VStr []) |},
                         [users; clips])
                    | _ => (None, [users; clips])
                    end
                  else (None, [users; clips])
              end
          end
    end.

(** A network that answers as Twitch does for a live channel. *)
Definition live (r : request) : reply :=
  match r with
  | get_users _ _ _ =>
      Reply 200 (Some (VDict [(py "data", VList [VDict [(py "id", VStr (py "141981764"))]])])) []
  | post_clips _ _ _ =>
      Reply 202
        (Some (VDict [(py "data",
           VList [VDict [(py "id", VStr (py "FiveWordsForClipSlug"));
                         (py "edit_url",
                          VStr (py "https://clips.twitch.tv/FiveWordsForClipSlug/edit"))]])]))
        []
  end.

Definition streamer : config :=
  {| TWITCH_CLIENT_ID := py "uo6dggojyb8d6soh92zknwmi5ej1q2";
     TWITCH_OAUTH_TOKEN := py "oauth:cfabdegwdoklmawdzdo98xt2fo512y";
     TWITCH_CHANNEL := py "twitchdev" |}.

(** X17: which calls [create_twitch_clip] makes. With the placeholder
    [YOUR_] in the client id or in the token it returns [None] without any
    call, so with the shipped defaults. Otherwise it always makes a first
    call, which asks for the channel's user with the configured client id
    and the token without its [oauth:] prefix; a second call is made exactly
    after an answer with status 200 whose JSON holds [data[0].id], and it
    posts that id with the same headers; without such an answer the result
    is [None] after the one call; there is no third call. A clip is returned
    exactly when the second answer has status 200 or 202 and its JSON is a
    dict whose [data[0]] (an empty dict when [data] is missing) is a dict;
    the clip then holds that dict's [id] and [edit_url], or [unknown] and
    the empty string. *)
Theorem create_twitch_clip_calls (cfg : config) (net : request -> reply) :
  let authorization := py "Bearer " ++ oauth cfg in
  let users := get_users (TWITCH_CLIENT_ID cfg) authorization (TWITCH_CHANNEL cfg) in
  let clips := post_clips (TWITCH_CLIENT_ID cfg) authorization in
  let out := create_twitch_clip cfg net in
  (contains (py "YOUR_") (TWITCH_CLIENT_ID cfg) = true \/
   contains (py "YOUR_") (oauth cfg) = true -> out = (None, [])) /\
  create_twitch_clip unconfigured net = (None, []) /\
  (out.2 = [] \/ out.2 = [users] \/
   exists j t b, out.2 = [users; clips b] /\ net users = Reply 200 j t /\
     broadcaster_id_of j = Some b) /\
  (forall c, out.1 = Some c ->
     exists b status j t clip_data,
       out.2 = [users; clips b] /\ net (clips b) = Reply status j t /\
       (status = 200 \/ status = 202)%Z /\
       clip_data_of j = Some (VDict clip_data) /\
       clip_id c = SubtitleRoutes.dict_get (py "id") clip_data (VStr (py "unknown")) /\
       edit_url c = SubtitleRoutes.dict_get (py "edit_url") clip_data (VStr [])) /\
  (contains (py "YOUR_") (TWITCH_CLIENT_ID cfg) = false ->
   contains (py "YOUR_") (oauth cfg) = false ->
   (exists rest, out.2 = users :: rest) /\
   (forall j t b, net users = Reply 200 j t -> broadcaster_id_of j = Some b ->
      out.2 = [users; clips b]) /\
   ((forall j t b, net users = Reply 200 j t -> broadcaster_id_of j <> Some b) ->
      out = (None, [users])) /\
   (forall j1 t1 b status j t clip_data,
      net users = Reply 200 j1 t1 -> broadcaster_id_of j1 = Some b ->
      net (clips b) = Reply status j t ->
      (status = 200 \/ status = 202)%Z ->
      clip_data_of j = Some (VDict clip_data) ->
      out = (Some {| clip_id := SubtitleRoutes.dict_get (py "id") clip_data
                                  (VStr (py "unknown"));
                     edit_url := SubtitleRoutes.dict_get (py "edit_url") clip_data
                                   (VStr []) |},
             [users; clips b]))).
Proof.
  intros authorization users clips out.
  split; [| split; [reflexivity |]].
  { intros H. unfold out, create_twitch_clip.
    destruct H as [-> | ->]; [reflexivity | by rewrite orb_true_r]. }
  assert (Hcfg : contains (py "YOUR_") (TWITCH_CLIENT_ID cfg) = false ->
                 contains (py "YOUR_") (oauth cfg) = false ->
    out =
      match net users with
      | Fails => (None, [users])
      | Reply status_code json _ =>
          if negb (status_code =? 200)%Z then (None, [users])
          else
            match broadcaster_id_of json with
            | None => (None, [users])
            | Some broadcaster_id =>
                match net (clips broadcaster_id) with
                | Fails => (None, [users; clips broadcaster_id])
                | Reply status_code json _ =>
                    if ((status_code =? 200) || (status_code =? 202))%Z then
                      match clip_data_of json with
                      | Some (VDict clip_data) =>
                          (Some {| clip_id := SubtitleRoutes.dict_get (py "id") clip_data
                                                (VStr (py "unknown"));
                                   edit_url := SubtitleRoutes.dict_get (py "edit_url")
                                                 clip_data (VStr []) |},
                           [users; clips broadcaster_id])
                      | _ => (None, [users; clips broadcaster_id])
                      end
                    else (None, [users; clips broadcaster_id])
                end
            end
      end).
  { intros H1 H2. unfold out, create_twitch_clip. by rewrite H1, H2. }
  split; [| split].
  - unfold out, create_twitch_clip.
    destruct (contains _ _ || contains _ _); [by left |].
    fold authorization. fold users.
    destruct (net users) as [| s1 j1 t1] eqn:E1; [right; by left |].
    destruct (Z.eqb_spec s1 200) as [-> | Hs1]; [| right; by left].
    cbn [negb].
    destruct (broadcaster_id_of j1) as [b |] eqn:Eb; [| right; by left].
    fold (clips b).
    assert (Hcalls : exists j t b0, [users; clips b] = [users; clips b0] /\
              Reply 200 j1 t1 = Reply 200 j t /\ broadcaster_id_of j = Some b0)
      by (by exists j1, t1, b).
    destruct (net (clips b)) as [| s2 j2 t2]; [right; right; exact Hcalls |].
    destruct ((s2 =? 200) || (s2 =? 202))%Z; [| right; right; exact Hcalls].
    destruct (clip_data_of j2) as [[| | | | | | clip_data] |];
      right; right; exact Hcalls.
  - unfold out, create_twitch_clip.
    destruct (contains _ _ || contains _ _); [discriminate |].
    fold authorization. fold users.
    destruct (net users) as [| s1 j1 t1] eqn:E1; [discriminate |].
    destruct (Z.eqb_spec s1 200) as [-> | Hs1]; [| discriminate].
    cbn [negb].
    destruct (broadcaster_id_of j1) as [b |] eqn:Eb; [| discriminate].
    fold (clips b).
    destruct (net (clips b)) as [| s2 j2 t2] eqn:E2; [discriminate |].
    destruct ((s2 =? 200) || (s2 =? 202))%Z eqn:Es2; [| discriminate].
    assert (Hs2 : (s2 = 200 \/ s2 = 202)%Z).
    { apply orb_true_iff in Es2 as [H | H]; apply Z.eqb_eq in H; auto. }
    destruct (clip_data_of j2) as [[| | | | | | clip_data] |] eqn:Ed;
      try discriminate.
    intros c [= <-]. exists b, s2, j2, t2, clip_data.
    split; [reflexivity |]. split; [exact E2 |]. split; [exact Hs2 |].
    split; [exact Ed |]. by split.
  - intros H1 H2. specialize (Hcfg H1 H2). split; [| split; [| split]].
    + rewrite Hcfg. destruct (net users) as [| s1 j1 t1]; [by eexists |].
      destruct (negb _); [by eexists |].
      destruct (broadcaster_id_of j1) as [b |]; [| by eexists].
      destruct (net (clips b)) as [| s2 j2 t2]; [by eexists |].
      destruct (_ || _)%Z; [| by eexists].
      destruct (clip_data_of j2) as [[| | | | | | clip_data] |]; by eexists.
    + intros j t b E1 Eb. rewrite Hcfg, E1. cbn [Z.eqb Pos.eqb negb]. rewrite Eb.
      destruct (net (clips b)) as [| s2 j2 t2]; [reflexivity |].
      destruct (_ || _)%Z; [| reflexivity].
      by destruct (clip_data_of j2) as [[| | | | | | clip_data] |].
    + intros Hno. rewrite Hcfg. destruct (net users) as [| s1 j1 t1]; [reflexivity |].
      destruct (Z.eqb_spec s1 200) as [-> | Hs1]; [| reflexivity].
      cbn [negb]. destruct (broadcaster_id_of j1) as [b |] eqn:Eb; [| reflexivity].
      by destruct (Hno j1 t1 b).
    + intros j1 t1 b status j t clip_data E1 Eb E2 Hs Ed.
      rewrite Hcfg, E1. cbn [Z.eqb Pos.eqb negb]. rewrite Eb, E2.
      assert (((status =? 200) || (status =? 202))%Z = true) as ->
        by (destruct Hs as [-> | ->]; reflexivity).
      by rewrite Ed.
Qed.

Lemma create_twitch_clip_calls_witness :
  let users := get_users (py "uo6dggojyb8d6soh92zknwmi5ej1q2")
                 (py "Bearer cfabdegwdoklmawdzdo98xt2fo512y") (py "twitchdev") in
  let clips := post_clips (py "uo6dggojyb8d6soh92zknwmi5ej1q2")
                 (py "Bearer cfabdegwdoklmawdzdo98xt2fo512y") (VStr (py "141981764")) in
  contains (py "YOUR_") (oauth unconfigured) = true /\
  create_twitch_clip unconfigured live = (None, []) /\
  contains (py "YOUR_") (TWITCH_CLIENT_ID streamer) = false /\
  contains (py "YOUR_") (oauth streamer) = false /\
  create_twitch_clip streamer live =
    (Some {| clip_id := VStr (py "FiveWordsForClipSlug");
             edit_url := VStr (py "https://clips.twitch.tv/FiveWordsForClipSlug/edit") |},
     [users; clips]) /\
  create_twitch_clip streamer (fun _ => Fails) = (None, [users]).
Proof.
  intros users clips.
  assert (H1 : contains (py "YOUR_") (TWITCH_CLIENT_ID streamer) = false)
    by (vm_compute; reflexivity).
  assert (H2 : contains (py "YOUR_") (oauth streamer) = false)
    by (vm_compute; reflexivity).
  split; [vm_compute; reflexivity |]. split; [| split; [exact H1 | split; [exact H2 |]]].
  - apply (proj1 (create_twitch_clip_calls unconfigured live)).
    right. vm_compute. reflexivity.
  - split.
    + pose proof (create_twitch_clip_calls streamer live) as (_ & _ & _ & _ & Hc).
      destruct (Hc H1 H2) as (_ & _ & _ & Hclip).
      exact (Hclip _ _ (VStr (py "141981764")) 202%Z _ _
               [(py "id", VStr (py "FiveWordsForClipSlug"));
                (py "edit_url",
                 VStr (py "https://clips.twitch.tv/FiveWordsForClipSlug/edit"))]
               eq_refl eq_refl eq_refl (or_intror eq_refl) eq_refl).
    + pose proof (create_twitch_clip_calls streamer (fun _ => Fails))
        as (_ & _ & _ & _ & Hc).
      destruct (Hc H1 H2) as (_ & _ & Hnone & _).
      apply Hnone. intros j t b E. discriminate E.
Defined.

End TwitchClip.

(** ** OBS after start-up: scene lists, and the session that is never
    renewed *)

Module ObsScenes.
Import Obs.

(** How the outside answers a scene-list request: [obs_client.call] gives
    a response with its [datain] dict, or raises; [http_requests.get] gives
    a response with a status and what [json()] returns or the text of the
    exception it raises, or raises itself. *)
Inductive list_answer :=
| ListReturns (datain : list (pystr * pyval))
| ListFails (why : pystr).

Inductive get_answer :=
| GetResponse (status_code : Z) (json : pyval + pystr)
| GetFails (why : pystr).

(** The requests sent out: those of a scene switch, and the two of a scene
    list. *)
Inductive event :=
| switching (e : Obs.event)
| obs_call_GetSceneList
| http_get (url : pystr).

Definition type_name (v : pyval) : pystr :=
  match v with
  | VNone => py "NoneType"
  | VBool _ => py "bool"
  | VInt _ => py "int"
  | VFloat _ => py "float"
  | VStr _ => py "str"
  | VList _ => py "list"
  | VDict _ => py "dict"
  end.

(** [[s["sceneName"] for s in datain.get("scenes", [])]]; nothing when it
    raises. Iterating a string gives strings and iterating a dict gives its
    keys, which have no item ["sceneName"]. *)
Definition scene_names (datain : list (pystr * pyval)) : option (list pyval) :=
  match SubtitleRoutes.dict_get (py "scenes") datain (VList []) with
  | VList items => mapM (TwitchClip.item (py "sceneName")) items
  | VStr [] | VDict [] => Some []
  | _ => None
  end.

Section WithConfig.
Variable cfg : config.

Definition fallback_get_scenes (http : get_answer) : M event state (list pyval) :=
  if negb (OBS_PROXY_VIA_FEBRUARY11 cfg) then ret []
  else
    emit (http_get (FEBRUARY11_API_BASE_URL cfg ++ py "/api/obs/scenes")) ;;;
    let failed status_code :=
      modify (set_last_error
                (py "FEBRUARY11 scene list failed (" ++ str_of_Z status_code ++ py ")")) ;;;
      ret [] in
    let unavailable why :=
      modify (set_last_error (py "FEBRUARY11 scene list unavailable: " ++ why)) ;;;
      ret [] in
    match http with
    | GetResponse status_code json =>
        if ((200 <=? status_code) && (status_code <? 300))%Z then
          match json with
          | inl (VDict payload) =>
              match SubtitleRoutes.dict_get (py "scenes") payload (VList []) with
              | VList scenes =>
                  modify (set_mode "february11-fallback" None) ;;;
                  ret scenes
              | _ => failed status_code
              end
          | inl payload =>
              unavailable (py "'" ++ type_name payload ++
                           py "' object has no attribute 'get'")
          | inr why => unavailable why
          end
        else failed status_code
    | GetFails why => unavailable why
    end.

Definition obs_get_scenes (primary : list_answer) (http : get_answer)
  : M event state (list pyval) :=
  st <- get ;;
  match obs_client st with
  | None => fallback_get_scenes http
  | Some _ =>
      emit obs_call_GetSceneList ;;;
      match primary with
      | ListReturns datain =>
          match scene_names datain with
          | Some scenes => modify (set_mode "direct" None) ;;; ret scenes
          | None => fallback_get_scenes http
          end
      | ListFails _ => fallback_get_scenes http
      end
  end.

(** What the server does with OBS once [main] has called [connect_obs]:
    scene switches and scene lists, from the routes and from the [!scene]
    command. *)
Inductive op :=
| Switch (scene_name : pystr) (primary : call_answer) (http : http_answer)
| Scenes (primary : list_answer) (http : get_answer).

Inductive result :=
| Switched (ok : bool)
| Listed (scenes : list pyval).

Definition step (o : op) : M event state result := fun st =>
  match o with
  | Switch scene_name primary http =>
      match obs_switch_scene cfg scene_name primary http st with
      | Returned ok s out => Returned (Switched ok) s (map switching out)
      | Raised e s out => Raised e s (map switching out)
      | Blocked s out => Blocked s (map switching out)
      end
  | Scenes primary http =>
      match obs_get_scenes primary http st with
      | Returned scenes s out => Returned (Listed scenes) s out
      | Raised e s out => Raised e s out
      | Blocked s out => Blocked s out
      end
  end.

(** The operations one after the other. *)
Fixpoint run (ops : list op) (st : state) : list (outcome event state result) :=
  match ops with
  | [] => []
  | o :: rest => let r := step o st in r :: run rest (state_after r)
  end.

Fixpoint final (ops : list op) (st : state) : state :=
  match ops with
  | [] => st
  | o :: rest => final rest (state_after (step o st))
  end.

End WithConfig.

(** The body of the [/api/scenes] answer: the list is fetched first, then
    the mode and the error are read. *)
Record scenes_body := {
  b_scenes : list pyval;
  b_obs_mode : string;
  b_obs_last_error : option pystr
}.

Definition api_get_scenes (cfg : config) (primary : list_answer) (http : get_answer)
  : M event state scenes_body :=
  scenes <- obs_get_scenes cfg primary http ;;
  st <- get ;;
  ret {| b_scenes := scenes; b_obs_mode := obs_mode st;
         b_obs_last_error := obs_last_error st |}.

(** X19: [/api/scenes] always answers, and a list that is not empty comes
    with the mode that names its source and with no error: it is either the
    [sceneName] of every entry of the scene list of OBS, under mode
    [direct], or, when there is no session or the direct request failed or
    its entries could not be read, the [scenes] list of a 2xx answer of
    FEBRUARY11 as it came, under mode [february11-fallback]. *)
Theorem api_get_scenes_source
  (cfg : config) (primary : list_answer) (http : get_answer) (st : state) :
  exists body st' out,
    api_get_scenes cfg primary http st = Returned body st' out /\
    b_obs_mode body = obs_mode st' /\ b_obs_last_error body = obs_last_error st' /\
    (b_scenes body <> [] ->
     b_obs_last_error body = None /\
     ((b_obs_mode body = "direct"%string /\ obs_client st <> None /\
       exists datain, primary = ListReturns datain /\
                      scene_names datain = Some (b_scenes body)) \/
      (b_obs_mode body = "february11-fallback"%string /\
       OBS_PROXY_VIA_FEBRUARY11 cfg = true /\
       exists code payload,
         http = GetResponse code (inl (VDict payload)) /\ (200 <= code < 300)%Z /\
         SubtitleRoutes.dict_get (py "scenes") payload (VList []) =
           VList (b_scenes body)))).
Proof.
  destruct st as [client mode err].
  unfold api_get_scenes, obs_get_scenes, fallback_get_scenes, bind, get, emit,
    modify, ret.
  cbn [obs_client].
  assert (Hfb : forall code payload scenes,
            ((200 <=? code) && (code <? 300))%Z = true ->
            SubtitleRoutes.dict_get (py "scenes") payload (VList []) = VList scenes ->
            exists code' payload',
              GetResponse code (inl (VDict payload)) =
                GetResponse code' (inl (VDict payload')) /\
              (200 <= code' < 300)%Z /\
              SubtitleRoutes.dict_get (py "scenes") payload' (VList []) = VList scenes).
  { intros code payload scenes Hc Hs. exists code, payload.
    split; [reflexivity |]. split; [lia | exact Hs]. }
  destruct client as [c |], (OBS_PROXY_VIA_FEBRUARY11 cfg) eqn:Hp;
    try destruct primary as [datain | why];
    try destruct (scene_names datain) as [names |] eqn:En;
    try destruct http as [code [[| | | | | | payload] | why'] | why'];
    try destruct ((200 <=? code) && (code <? 300))%Z eqn:Hcode;
    try destruct (SubtitleRoutes.dict_get (py "scenes") payload (VList []))
      as [| | | | | scenes |] eqn:Es;
    cbn; eexists _, _, _; (split; [reflexivity |]); (split; [reflexivity |]);
    (split; [reflexivity |]); cbn; intros Hne; try done;
    (split; [reflexivity |]);
    first
      [ left; split; [reflexivity |]; split; [done |];
        eexists; split; [reflexivity | exact En]
      | right; split; [reflexivity |]; split; [reflexivity |];
        by apply Hfb ].
Qed.

Lemma api_get_scenes_source_witness :
  exists body st' out,
    api_get_scenes (ObsSpec.local_cfg true) (ListFails (py "not connected"))
      (GetResponse 200
         (inl (VDict [(py "scenes", VList [VStr (py "Gameplay"); VStr (py "BRB")])])))
      initial = Returned body st' out /\
    b_scenes body = [VStr (py "Gameplay"); VStr (py "BRB")] /\
    b_obs_mode body = "february11-fallback"%string /\
    b_obs_last_error body = None.
Proof.
  destruct (api_get_scenes_source (ObsSpec.local_cfg true) (ListFails (py "not connected"))
              (GetResponse 200
                 (inl (VDict [(py "scenes",
                               VList [VStr (py "Gameplay"); VStr (py "BRB")])])))
              initial) as (body & st' & out & E & _ & _ & Hsrc).
  exists body, st', out. split; [exact E |].
  vm_compute in E. injection E as <- <- <-.
  split; [reflexivity |]. split; [reflexivity |].
  apply Hsrc. discriminate.
Defined.

(** A request that goes to OBS itself. *)
Definition direct_call (e : event) : bool :=
  match e with
  | switching (obs_call_SetCurrentProgramScene _) | obs_call_GetSceneList => true
  | _ => false
  end.

Definition sent {A} (r : outcome event state A) : list event :=
  match r with
  | Returned _ _ out | Raised _ _ out | Blocked _ out => out
  end.

(** One operation: it returns, keeps the session, and changes the mode
    only to one of the two success modes, clearing the error. *)
Lemma step_spec (cfg : config) (o : op) (st : state) :
  exists res st' out,
    step cfg o st = Returned res st' out /\
    obs_client st' = obs_client st /\
    (obs_mode st' = obs_mode st \/
     obs_last_error st' = None /\
     (obs_mode st' = "direct"%string /\ obs_client st <> None \/
      obs_mode st' = "february11-fallback"%string /\
      OBS_PROXY_VIA_FEBRUARY11 cfg = true)) /\
    (obs_client st = None -> forallb (fun e => negb (direct_call e)) out = true) /\
    (obs_client st <> None -> exists e rest, out = e :: rest /\ direct_call e = true) /\
    (obs_client st = None -> OBS_PROXY_VIA_FEBRUARY11 cfg = false ->
     st' = st /\ out = [] /\ (res = Switched false \/ res = Listed [])).
Proof.
  destruct st as [client mode err]. destruct o as [scene primary http | primary http].
  - unfold step, obs_switch_scene, fallback_switch_scene, bind, get, emit, modify, ret.
    cbn [obs_client].
    destruct client as [c |], (OBS_PROXY_VIA_FEBRUARY11 cfg) eqn:Hp;
      try destruct primary as [| why];
      try destruct http as [code | why'];
      try destruct ((200 <=? code) && (code <? 300))%Z;
      cbn; eexists _, _, _; (split; [reflexivity |]); (split; [reflexivity |]);
      (split; [first [by left | right; split; [reflexivity |]; first
                 [by left | by right]] |]);
      (split; [first [discriminate | reflexivity | done] |]);
      (split; [first [done | by eexists _, _] |]);
      first [done | intros _ _; auto].
  - unfold step, obs_get_scenes, fallback_get_scenes, bind, get, emit, modify, ret.
    cbn [obs_client].
    destruct client as [c |], (OBS_PROXY_VIA_FEBRUARY11 cfg) eqn:Hp;
      try destruct primary as [datain | why];
      try destruct (scene_names datain) as [names |];
      try destruct http as [code [[| | | | | | payload] | why'] | why'];
      try destruct ((200 <=? code) && (code <? 300))%Z;
      try destruct (SubtitleRoutes.dict_get (py "scenes") payload (VList []))
        as [| | | | | scenes |];
      cbn; eexists _, _, _; (split; [reflexivity |]); (split; [reflexivity |]);
      (split; [first [by left | right; split; [reflexivity |]; first
                 [by left | by right]] |]);
      (split; [first [discriminate | reflexivity | done] |]);
      (split; [first [done | by eexists _, _] |]);
      first [done | intros _ _; auto].
Qed.

(** X18: the OBS session is fixed at start-up. [connect_obs] runs once, in
    [main]; the scene switches and scene lists that follow all return, and
    none of them opens, renews or drops the session. So a session that
    exists is tried first by every operation, whatever failed before; and
    when the connection was refused at start-up, no request ever goes to
    OBS, and with the FEBRUARY11 fallback disabled every switch returns
    [False], every list is empty, nothing is sent and the state never
    changes. *)
Theorem obs_session_fixed_at_startup
  (cfg : config) (answer : connect_answer) (ops : list op) :
  let st0 := state_after (connect_obs cfg answer initial) in
  obs_client (final cfg ops st0) = obs_client st0 /\
  Forall (fun r => returned r <> None) (run cfg ops st0) /\
  ((forall c, answer <> Connects c) ->
   obs_client (final cfg ops st0) = None /\
   Forall (fun r => forallb (fun e => negb (direct_call e)) (sent r) = true)
     (run cfg ops st0) /\
   (OBS_PROXY_VIA_FEBRUARY11 cfg = false ->
    final cfg ops st0 = st0 /\
    Forall (fun r => sent r = [] /\
                     (returned r = Some (Switched false) \/
                      returned r = Some (Listed [])))
      (run cfg ops st0))) /\
  ((exists c, answer = Connects c) ->
   Forall (fun r => exists e rest, sent r = e :: rest /\ direct_call e = true)
     (run cfg ops st0)).
Proof.
  intros st0.
  assert (Hkeep : forall ops st, obs_client (final cfg ops st) = obs_client st).
  { clear. induction ops as [| o ops IH]; intros st; [reflexivity |].
    cbn [final]. rewrite IH.
    by destruct (step_spec cfg o st) as (res & st' & out & -> & Hc & _). }
  assert (Hret : forall ops st, Forall (fun r => returned r <> None) (run cfg ops st)).
  { clear. induction ops as [| o ops IH]; intros st; [constructor |].
    cbn [run]. constructor; [| apply IH].
    by destruct (step_spec cfg o st) as (res & st' & out & -> & _). }
  split; [apply Hkeep |]. split; [apply Hret |]. split.
  - intros Hno.
    assert (H0 : obs_client st0 = None).
    { unfold st0. destruct answer as [c | | why]; [by destruct (Hno c) | done | done]. }
    split; [by rewrite Hkeep |]. split.
    + generalize st0 H0. clear. induction ops as [| o ops IH]; intros st Hst;
        [constructor |].
      cbn [run]. destruct (step_spec cfg o st)
        as (res & st' & out & E & Hc & _ & Hnone & _).
      constructor; [rewrite E; by apply Hnone |].
      apply IH. rewrite E. cbn [state_after]. by rewrite Hc.
    + intros Hp. generalize st0 H0. clear - Hp.
      induction ops as [| o ops IH]; intros st Hst; [split; [done | constructor] |].
      cbn [run final].
      destruct (step_spec cfg o st) as (res & st' & out & E & _ & _ & _ & _ & Hoff).
      destruct (Hoff Hst Hp) as (-> & -> & Hres). rewrite E. cbn [state_after].
      destruct (IH st Hst) as [IH1 IH2]. split; [exact IH1 |].
      constructor; [| exact IH2]. split; [reflexivity |].
      destruct Hres as [-> | ->]; [by left | by right].
  - intros [c ->].
    assert (H0 : obs_client st0 <> None) by done.
    generalize st0 H0. clear. induction ops as [| o ops IH]; intros st Hst;
      [constructor |].
    cbn [run]. destruct (step_spec cfg o st)
      as (res & st' & out & E & Hc & _ & _ & Hsome & _).
    constructor; [rewrite E; by apply Hsome |].
    apply IH. rewrite E. cbn [state_after]. by rewrite Hc.
Qed.

Definition evening : list op :=
  [Switch (py "Gameplay") CallReturns (RequestFails (py "timed out"));
   Scenes (ListReturns [(py "scenes", VList [])]) (GetResponse 503 (inr []));
   Switch (py "BRB") (CallFails (py "socket is already closed")) (Response 200)].

Lemma obs_session_fixed_at_startup_witness :
  let cfg := ObsSpec.local_cfg false in
  let st0 := state_after
               (connect_obs cfg (ConnectFails (py "[Errno 111] Connection refused"))
                  initial) in
  obs_mode st0 = "disconnected"%string /\
  final cfg evening st0 = st0 /\
  Forall (fun r => sent r = [] /\
                   (returned r = Some (Switched false) \/ returned r = Some (Listed [])))
    (run cfg evening st0).
Proof.
  intros cfg st0. split; [reflexivity |].
  apply (proj1 (proj2 (proj2 (obs_session_fixed_at_startup cfg
           (ConnectFails (py "[Errno 111] Connection refused")) evening)))).
  - intros c. discriminate.
  - reflexivity.
Defined.

End ObsScenes.

(** ** The keyboard overlay ([normalize_keyboard_key], the press and
    release handlers) *)

Module Keyboard.

(** What the handlers read of a [pynput] key: [char] and [name] when the
    attribute is there and holds a string, and [str(key)]. *)
Record key := { char : option pystr; name : option pystr; str_ : pystr }.

(** What is taken from CPython as given: [s.upper()], [s.lower()],
    [s.title()] and [s.isdigit()]. *)
Class KeyText := {
  upper : pystr -> pystr;
  str_lower : pystr -> pystr;
  title : pystr -> pystr;
  isdigit : pystr -> bool
}.

Definition key_map : list (pystr * pystr) :=
  [(py "space", py "Space"); (py "esc", py "Escape"); (py "escape", py "Escape");
   (py "enter", py "Enter"); (py "return", py "Enter"); (py "tab", py "Tab");
   (py "backspace", py "Backspace"); (py "caps_lock", py "CapsLock");
   (py "shift", py "Shift"); (py "shift_l", py "Shift"); (py "shift_r", py "Shift");
   (py "ctrl", py "Ctrl"); (py "ctrl_l", py "Ctrl"); (py "ctrl_r", py "Ctrl");
   (py "alt", py "Alt"); (py "alt_l", py "Alt"); (py "alt_r", py "Alt");
   (py "cmd", py "Meta"); (py "cmd_l", py "Meta"); (py "cmd_r", py "Meta");
   (py "super_l", py "Meta"); (py "super_r", py "Meta"); (py "menu", py "Menu");
   (py "left", py "ArrowLeft"); (py "right", py "ArrowRight");
   (py "up", py "ArrowUp"); (py "down", py "ArrowDown");
   (py "insert", py "Insert"); (py "delete", py "Delete"); (py "home", py "Home");
   (py "end", py "End"); (py "page_up", py "PageUp"); (py "page_down", py "PageDown")].

(** [s.replace("_", " ")] *)
Definition underscores_to_spaces (s : pystr) : pystr :=
  map (fun c => if (c =? 0x5F)%N then 0x20%N else c) s.

Section WithKeyText.
Context {T : KeyText}.

(** The part of [normalize_keyboard_key] that starts at [key_map]. *)
Definition normalize_name (name_ : pystr) : pystr :=
  match snd <$> find (fun kv => bool_decide (kv.1 = name_)) key_map with
  | Some shown => shown
  | None =>
      if Nat.eqb (length name_) 2 && startswith (py "f") name_ &&
         isdigit (take 1 (drop 1 name_))
      then upper name_
      else if startswith (py "f") name_ && isdigit (drop 1 name_)
      then upper name_
      else title (underscores_to_spaces name_)
  end.

Definition normalize_keyboard_key (k : key) : pystr :=
  match char k with
  | Some (c :: cs) =>
      if bool_decide (c :: cs = py " ") then py "Space"
      else if Nat.eqb (length (c :: cs)) 1 then upper (c :: cs)
      else c :: cs
  | _ =>
      match name k with
      | Some (n :: ns) => normalize_name (n :: ns)
      | _ =>
          let raw := str_ k in
          if startswith (py "Key.") raw then normalize_name (drop 4 raw) else raw
      end
  end.

End WithKeyText.

Record state := {
  keyboard_state_lock : bool;
  pressed_keyboard_keys : gset (list N)
}.

Definition initial : state :=
  {| keyboard_state_lock := false; pressed_keyboard_keys := ∅ |}.

(** The [keyboard_event] payload. *)
Inductive event :=
| keyboard_event (action key_name at_ : pystr).

Definition the_lock : lock state := {|
  held := keyboard_state_lock;
  set_held b st := {| keyboard_state_lock := b;
                      pressed_keyboard_keys := pressed_keyboard_keys st |}
|}.

Definition set_pressed (f : gset (list N) -> gset (list N)) (st : state) : state :=
  {| keyboard_state_lock := keyboard_state_lock st;
     pressed_keyboard_keys := f (pressed_keyboard_keys st) |}.

(** [emit_keyboard_event(action, key_name)]; [stamp] is the reading of
    [now_iso()]. *)
Definition emit_keyboard_event (action key_name stamp : pystr) : M event state unit :=
  if bool_decide (action = py "down") || bool_decide (action = py "up")
  then emit (keyboard_event action key_name stamp)
  else ret tt.

Section WithKeyText.
Context {T : KeyText}.

Definition handle_keyboard_press (k : key) (stamp : pystr) : M event state unit :=
  let key_name := normalize_keyboard_key k in
  match key_name with
  | [] => ret tt
  | _ =>
      repeated <- with_lock the_lock (
        st <- get ;;
        if bool_decide (key_name ∈ pressed_keyboard_keys st) then ret true
        else modify (set_pressed (fun keys => {[ key_name ]} ∪ keys)) ;;; ret false) ;;
      if repeated : bool then ret tt
      else emit_keyboard_event (py "down") key_name stamp
  end.

Definition handle_keyboard_release (k : key) (stamp : pystr) : M event state unit :=
  let key_name := normalize_keyboard_key k in
  match key_name with
  | [] => ret tt
  | _ =>
      with_lock the_lock (
        st <- get ;;
        if bool_decide (key_name ∈ pressed_keyboard_keys st)
        then modify (set_pressed (fun keys => keys ∖ {[ key_name ]}))
        else ret tt) ;;;
      emit_keyboard_event (py "up") key_name stamp
  end.

(** [api_keyboard_test()] for a body that is a dict or is falsy; [data] is
    the dict [request.json or {}]. The result is the action and the key of
    the answer. *)
Definition api_keyboard_test {B : Builtins} (data : list (pystr * pyval)) (stamp : pystr)
  : M event state (pystr * pystr) :=
  let key_name :=
    match strip (py_str (SubtitleRoutes.dict_get (py "key") data (VStr []))) with
    | [] => py "A"
    | s => s
    end in
  let action :=
    str_lower (strip (py_str (SubtitleRoutes.dict_get (py "action") data
                                (VStr (py "down"))))) in
  let action :=
    if bool_decide (action = py "down") || bool_decide (action = py "up")
    then action else py "down" in
  emit_keyboard_event action key_name stamp ;;;
  ret (action, key_name).

(** What the listener reports: a key goes down or up at some time. *)
Inductive input :=
| Press (k : key) (stamp : pystr)
| Release (k : key) (stamp : pystr).

Definition handle (i : input) : M event state unit :=
  match i with
  | Press k stamp => handle_keyboard_press k stamp
  | Release k stamp => handle_keyboard_release k stamp
  end.

Definition sent {A} (r : outcome event state A) : list event :=
  match r with
  | Returned _ _ out | Raised _ _ out | Blocked _ out => out
  end.

(** The inputs handled one after the other: the events sent, and the state
    at the end. *)
Fixpoint trace (inputs : list input) (st : state) : list event :=
  match inputs with
  | [] => []
  | i :: rest => sent (handle i st) ++ trace rest (state_after (handle i st))
  end.

Fixpoint final (inputs : list input) (st : state) : state :=
  match inputs with
  | [] => st
  | i :: rest => final rest (state_after (handle i st))
  end.

End WithKeyText.

(** What an overlay makes of the events: the keys it shows as held. It
    has lost track ([None]) when a key that it shows as held goes down
    again. *)
Fixpoint replay (shown : gset (list N)) (out : list event) : option (gset (list N)) :=
  match out with
  | [] => Some shown
  | keyboard_event action key_name _ :: rest =>
      if bool_decide (action = py "down") then
        if bool_decide (key_name ∈ shown) then None
        else replay ({[ key_name ]} ∪ shown) rest
      else replay (shown ∖ {[ key_name ]}) rest
  end.

(** *** A reference choice of the text functions, on ASCII *)

Definition ascii_upper (s : pystr) : pystr :=
  map (fun c => if ((0x61 <=? c) && (c <=? 0x7A))%N then (c - 0x20)%N else c) s.

Definition ascii_letter (c : N) : bool :=
  ((0x41 <=? c) && (c <=? 0x5A) || (0x61 <=? c) && (c <=? 0x7A))%N.

(** Each letter that follows a letter is lowered, each other letter is
    raised. *)
Fixpoint ascii_title_from (after_letter : bool) (s : pystr) : pystr :=
  match s with
  | [] => []
  | c :: s' =>
      (if after_letter
       then (if ((0x41 <=? c) && (c <=? 0x5A))%N then (c + 0x20)%N else c)
       else (if ((0x61 <=? c) && (c <=? 0x7A))%N then (c - 0x20)%N else c))
      :: ascii_title_from (ascii_letter c) s'
  end.

Definition ascii_isdigit (s : pystr) : bool :=
  match s with
  | [] => false
  | _ => forallb (fun c => ((0x30 <=? c) && (c <=? 0x39))%N) s
  end.

Definition ascii_text : KeyText :=
  {| upper := ascii_upper; str_lower := lower; title := ascii_title_from false;
     isdigit := ascii_isdigit |}.

Definition named (n : string) : key :=
  {| char := None; name := Some (py n); str_ := py "Key." ++ py n |}.

Definition typed (c : string) : key :=
  {| char := Some (py c); name := None; str_ := py "'" ++ py c ++ py "'" |}.

End Keyboard.

Module KeyboardSpec.
Import Keyboard.

Section WithKeyText.
Context {T : KeyText}.

(** A press with the lock free: nothing for a key without a name or one
    that is held, else the name is added and one [down] is sent. *)
Lemma handle_keyboard_press_free (k : key) (stamp : pystr) (st : state) :
  keyboard_state_lock st = false ->
  let key_name := normalize_keyboard_key k in
  handle_keyboard_press k stamp st =
    if bool_decide (key_name = []) || bool_decide (key_name ∈ pressed_keyboard_keys st)
    then Returned tt st []
    else Returned tt
           {| keyboard_state_lock := false;
              pressed_keyboard_keys := {[ key_name ]} ∪ pressed_keyboard_keys st |}
           [keyboard_event (py "down") key_name stamp].
Proof.
  destruct st as [l keys]. cbn [keyboard_state_lock]. intros ->. cbv zeta.
  unfold handle_keyboard_press.
  destruct (normalize_keyboard_key k) as [| c cs] eqn:En; [reflexivity |].
  rewrite bool_decide_eq_false_2 by discriminate. cbn [orb].
  unfold bind, with_lock, acquire, get, modify, ret. cbn.
  destruct (bool_decide (c :: cs ∈ keys)); reflexivity.
Qed.

(** A release with the lock free: nothing for a key without a name, else
    the name is removed and one [up] is sent, held or not. *)
Lemma handle_keyboard_release_free (k : key) (stamp : pystr) (st : state) :
  keyboard_state_lock st = false ->
  let key_name := normalize_keyboard_key k in
  handle_keyboard_release k stamp st =
    if bool_decide (key_name = []) then Returned tt st []
    else Returned tt
           {| keyboard_state_lock := false;
              pressed_keyboard_keys := pressed_keyboard_keys st ∖ {[ key_name ]} |}
           [keyboard_event (py "up") key_name stamp].
Proof.
  destruct st as [l keys]. cbn [keyboard_state_lock]. intros ->. cbv zeta.
  unfold handle_keyboard_release.
  destruct (normalize_keyboard_key k) as [| c cs] eqn:En; [reflexivity |].
  rewrite bool_decide_eq_false_2 by discriminate.
  unfold bind, with_lock, acquire, get, modify, ret. cbn.
  destruct (bool_decide (c :: cs ∈ keys)) eqn:Hin; cbn; [reflexivity |].
  apply bool_decide_eq_false_1 in Hin. do 2 f_equal.
  symmetry. apply difference_disjoint_L. by apply disjoint_singleton_r.
Qed.

Lemma handle_free (i : input) (st : state) :
  keyboard_state_lock st = false ->
  keyboard_state_lock (state_after (handle i st)) = false /\
  replay (pressed_keyboard_keys st) (sent (handle i st)) =
    Some (pressed_keyboard_keys (state_after (handle i st))).
Proof.
  intros Hl. destruct i as [k stamp | k stamp]; cbn [handle].
  - rewrite (handle_keyboard_press_free k stamp st Hl). cbv zeta.
    destruct (bool_decide (normalize_keyboard_key k = [])); [by split |].
    cbn [orb].
    destruct (bool_decide (normalize_keyboard_key k ∈ pressed_keyboard_keys st)) eqn:Hin;
      [by split |].
    split; [reflexivity |]. cbn [sent state_after replay pressed_keyboard_keys].
    rewrite bool_decide_eq_true_2 by reflexivity. by rewrite Hin.
  - rewrite (handle_keyboard_release_free k stamp st Hl). cbv zeta.
    destruct (bool_decide (normalize_keyboard_key k = [])); [by split |].
    split; [reflexivity |]. cbn [sent state_after replay pressed_keyboard_keys].
    by rewrite bool_decide_eq_false_2 by discriminate.
Qed.

Lemma replay_app (shown : gset (list N)) (out1 out2 : list event) :
  replay shown (out1 ++ out2) =
    match replay shown out1 with
    | Some shown' => replay shown' out2
    | None => None
    end.
Proof.
  revert shown. induction out1 as [| [a k t] out1 IH]; intros shown; [reflexivity |].
  cbn [app replay].
  destruct (bool_decide (a = py "down")); [| apply IH].
  destruct (bool_decide (k ∈ shown)); [reflexivity | apply IH].
Qed.

End WithKeyText.

(** X20: the overlay and the server agree on the keys that are held. From a
    free lock, whatever keys go down and up in whatever order, every
    handler returns and leaves the lock free, and replaying the events that
    were sent, starting from the set of held keys, never meets a [down]
    for a key that is shown as held (a repeated press sends nothing) and
    ends with exactly the server's set [pressed_keyboard_keys]. *)
Theorem keyboard_events_track_pressed
  (T : KeyText) (inputs : list input) (st : state) :
  keyboard_state_lock st = false ->
  keyboard_state_lock (final inputs st) = false /\
  replay (pressed_keyboard_keys st) (trace inputs st) =
    Some (pressed_keyboard_keys (final inputs st)).
Proof.
  revert st. induction inputs as [| i inputs IH]; intros st Hl; [by split |].
  cbn [trace final]. destruct (handle_free i st Hl) as [Hl' Hr].
  destruct (IH _ Hl') as [IHl IHr]. split; [exact IHl |].
  by rewrite replay_app, Hr.
Qed.

Lemma keyboard_events_track_pressed_witness :
  let inputs := [Press (typed "w") (py "t1"); Press (named "shift_l") (py "t2");
                 Press (typed "w") (py "t3"); Release (typed "w") (py "t4");
                 Release (named "f5") (py "t5")] in
  trace (T := ascii_text) inputs initial =
    [keyboard_event (py "down") (py "W") (py "t1");
     keyboard_event (py "down") (py "Shift") (py "t2");
     keyboard_event (py "up") (py "W") (py "t4");
     keyboard_event (py "up") (py "F5") (py "t5")] /\
  replay ∅ (trace (T := ascii_text) inputs initial) =
    Some (pressed_keyboard_keys (final (T := ascii_text) inputs initial)).
Proof.
  intros inputs. split; [vm_compute; reflexivity |].
  apply (keyboard_events_track_pressed ascii_text inputs initial). reflexivity.
Defined.

(** X21: keys are tracked by the name they are shown under, not one by
    one. When two keys have the same name, as the left and the right
    [shift] have, and neither is held: pressing both sends one [down];
    releasing the first sends [up] and forgets the name although the
    second is still down; releasing the second sends a second [up]. *)
Theorem keyboard_same_name_shared
  (T : KeyText) (k1 k2 : key) (t1 t2 t3 t4 : pystr) (st : state) :
  keyboard_state_lock st = false ->
  normalize_keyboard_key k1 = normalize_keyboard_key k2 ->
  normalize_keyboard_key k1 <> [] ->
  normalize_keyboard_key k1 ∉ pressed_keyboard_keys st ->
  let key_name := normalize_keyboard_key k1 in
  trace [Press k1 t1; Press k2 t2; Release k1 t3] st =
    [keyboard_event (py "down") key_name t1; keyboard_event (py "up") key_name t3] /\
  (key_name ∉
     pressed_keyboard_keys (final [Press k1 t1; Press k2 t2; Release k1 t3] st)) /\
  trace [Release k2 t4] (final [Press k1 t1; Press k2 t2; Release k1 t3] st) =
    [keyboard_event (py "up") key_name t4].
Proof.
  intros Hl E Hne Hnot key_name.
  assert (Hb : bool_decide (key_name = []) = false) by (by apply bool_decide_eq_false_2).
  cbn [trace final handle].
  rewrite (handle_keyboard_press_free k1 t1 st Hl). cbv zeta. fold key_name.
  rewrite Hb, (bool_decide_eq_false_2 _ Hnot). cbn [orb sent state_after].
  rewrite handle_keyboard_press_free by reflexivity. cbv zeta.
  rewrite <- E. fold key_name. cbn [pressed_keyboard_keys].
  rewrite Hb, (bool_decide_eq_true_2 (key_name ∈ ({[key_name]} ∪ _)))
    by (apply elem_of_union; left; by apply elem_of_singleton).
  cbn [orb sent state_after].
  rewrite handle_keyboard_release_free by reflexivity. cbv zeta. fold key_name.
  rewrite Hb. cbn [sent state_after pressed_keyboard_keys app].
  rewrite handle_keyboard_release_free by reflexivity. cbv zeta.
  rewrite <- E. fold key_name. rewrite Hb. cbn [sent app].
  split; [reflexivity |]. split; [| reflexivity].
  intros H. apply elem_of_difference in H as [_ H]. apply H.
  by apply elem_of_singleton.
Qed.

(** X22: a test event goes out without being recorded. Whatever the
    body, [api_keyboard_test] takes no lock, leaves [pressed_keyboard_keys]
    as it is and sends exactly one event, whose action is [down] or [up]
    ([down] for anything else) and whose key is not empty ([A] for a
    missing or blank one). So a test [down] for a key that is held is a
    second [down] for the overlay, which the listener's handlers never
    send. *)
Theorem api_keyboard_test_not_recorded
  (B : Builtins) (T : KeyText) (data : list (pystr * pyval)) (stamp : pystr)
  (st : state) :
  exists action key_name,
    api_keyboard_test data stamp st =
      Returned (action, key_name) st [keyboard_event action key_name stamp] /\
    (action = py "down" \/ action = py "up") /\
    key_name <> [] /\
    (action = py "down" -> (key_name ∈ pressed_keyboard_keys st) ->
     replay (pressed_keyboard_keys st) (sent (api_keyboard_test data stamp st)) = None).
Proof.
  unfold api_keyboard_test. cbv zeta.
  set (key_name :=
         match strip (py_str (SubtitleRoutes.dict_get (py "key") data (VStr []))) with
         | [] => py "A"
         | s => s
         end).
  set (a := str_lower (strip (py_str (SubtitleRoutes.dict_get (py "action") data
                                        (VStr (py "down")))))).
  set (action := if bool_decide (a = py "down") || bool_decide (a = py "up")
                 then a else py "down").
  assert (Ha : action = py "down" \/ action = py "up").
  { unfold action. destruct (bool_decide (a = py "down")) eqn:E1.
    - left. by apply bool_decide_eq_true_1 in E1.
    - destruct (bool_decide (a = py "up")) eqn:E2; [| by left].
      right. by apply bool_decide_eq_true_1 in E2. }
  assert (Hk : key_name <> []) by (unfold key_name; by destruct (strip _)).
  clearbody action key_name.
  assert (E : emit_keyboard_event action key_name stamp st =
              Returned tt st [keyboard_event action key_name stamp]).
  { unfold emit_keyboard_event.
    by destruct Ha as [-> | ->]. }
  exists action, key_name. unfold bind. rewrite E.
  split; [reflexivity |]. split; [exact Ha |]. split; [exact Hk |].
  intros -> Hin. unfold ret. cbn [sent replay app].
  rewrite bool_decide_eq_true_2 by reflexivity.
  by rewrite bool_decide_eq_true_2.
Qed.

Lemma api_keyboard_test_not_recorded_witness :
  let st := final (T := ascii_text) [Press (typed "w") (py "t1")] initial in
  let r := api_keyboard_test (B := ascii_builtins) (T := ascii_text)
             [(py "key", VStr (py " W ")); (py "action", VStr (py "DOWN"))]
             (py "t2") st in
  r = Returned (py "down", py "W") st [keyboard_event (py "down") (py "W") (py "t2")] /\
  replay (pressed_keyboard_keys st) (sent r) = None.
Proof.
  intros st r.
  destruct (api_keyboard_test_not_recorded ascii_builtins ascii_text
              [(py "key", VStr (py " W ")); (py "action", VStr (py "DOWN"))]
              (py "t2") st) as (action & key_name & E & _ & _ & Hrep).
  fold r in E, Hrep.
  assert (E' : r = Returned (py "down", py "W") st
                 [keyboard_event (py "down") (py "W") (py "t2")])
    by (vm_compute; reflexivity).
  split; [exact E' |].
  rewrite E' in E.
  assert (Ha : action = py "down") by congruence.
  assert (Hk : key_name = py "W") by congruence.
  apply Hrep; [exact Ha |]. rewrite Hk.
  apply elem_of_union. left. by apply elem_of_singleton.
Defined.

Lemma keyboard_same_name_shared_witness :
  trace (T := ascii_text)
    [Press (named "shift_l") (py "t1"); Press (named "shift_r") (py "t2");
     Release (named "shift_l") (py "t3")] initial =
    [keyboard_event (py "down") (py "Shift") (py "t1");
     keyboard_event (py "up") (py "Shift") (py "t3")].
Proof.
  refine (proj1 (keyboard_same_name_shared ascii_text (named "shift_l") (named "shift_r")
                   (py "t1") (py "t2") (py "t3") (py "t4") initial
                   eq_refl eq_refl _ _)).
  - discriminate.
  - apply not_elem_of_empty.
Defined.

End KeyboardSpec.

(** ** The avatar settings ([api_avatar_settings]) *)

Module Avatar.

(** The dictionary [avatar_settings]. *)
Record settings := {
  vrmPath : pystr;
  webcamEnabled : bool;
  idleBreathingSpeed : pyfloat;
  idleSwayAmount : pyfloat;
  autoLookAround : bool;
  blinkInterval : Z;
  lerpAmount : pyfloat;
  lerpAmountFace : pyfloat;
  cameraPosition : list (pystr * pyval);
  cameraLookAt : list (pystr * pyval);
  updated_at : option pystr
}.

Record state := {
  avatar_settings_lock : bool;
  avatar_settings : settings
}.

Definition initial : state :=
  {| avatar_settings_lock := false;
     avatar_settings :=
       {| vrmPath := py "/static/VRMs/lalo.vrm";
          webcamEnabled := true;
          idleBreathingSpeed := FFin (12 # 10);
          idleSwayAmount := FFin (8 # 1000);
          autoLookAround := true;
          blinkInterval := 3500;
          lerpAmount := FFin (6 # 10);
          lerpAmountFace := FFin (7 # 10);
          cameraPosition := [(py "x", VInt 0); (py "y", VFloat (FFin (135 # 100)));
                             (py "z", VFloat (FFin (35 # 10)))];
          cameraLookAt := [(py "x", VInt 0); (py "y", VFloat (FFin (12 # 10)));
                           (py "z", VInt 0)];
          updated_at := None |} |}.

Inductive event :=
| avatar_settings_event (snapshot : settings).

Definition the_lock : lock state := {|
  held := avatar_settings_lock;
  set_held b st := {| avatar_settings_lock := b; avatar_settings := avatar_settings st |}
|}.

Definition set_settings (f : settings -> settings) (st : state) : state :=
  {| avatar_settings_lock := avatar_settings_lock st;
     avatar_settings := f (avatar_settings st) |}.

Definition lift {A} (r : res A) : M event state A :=
  match r with
  | Ok a => ret a
  | Err e => raise e
  end.

(** [if key in data: avatar_settings[key] = convert(data[key])] *)
Definition assign {A} (data : list (pystr * pyval)) (key : pystr)
  (convert : pyval -> res A) (store : A -> settings -> settings)
  : M event state unit :=
  match TwitchClip.item key (VDict data) with
  | Some v => x <- lift (convert v) ;; modify (set_settings (store x))
  | None => ret tt
  end.

(** [if key in data and isinstance(data[key], str)], and the same with
    [dict]. *)
Definition if_str (v : pyval) : res (option pystr) :=
  Ok (match v with VStr s => Some s | _ => None end).

Definition if_dict (v : pyval) : res (option (list (pystr * pyval))) :=
  Ok (match v with VDict d => Some d | _ => None end).

Section WithBuiltins.
Context {B : Builtins}.

(** The assignments of [api_avatar_settings], in the order of the source. *)
Definition assignments (data : list (pystr * pyval)) : M event state unit :=
  assign data (py "vrmPath") if_str (fun x s =>
    match x with
    | Some p =>
        {| vrmPath := p; webcamEnabled := webcamEnabled s;
           idleBreathingSpeed := idleBreathingSpeed s;
           idleSwayAmount := idleSwayAmount s; autoLookAround := autoLookAround s;
           blinkInterval := blinkInterval s; lerpAmount := lerpAmount s;
           lerpAmountFace := lerpAmountFace s; cameraPosition := cameraPosition s;
           cameraLookAt := cameraLookAt s; updated_at := updated_at s |}
    | None => s
    end) ;;;
  assign data (py "webcamEnabled") (fun v => Ok (py_bool v)) (fun x s =>
    {| vrmPath := vrmPath s; webcamEnabled := x;
       idleBreathingSpeed := idleBreathingSpeed s;
       idleSwayAmount := idleSwayAmount s; autoLookAround := autoLookAround s;
       blinkInterval := blinkInterval s; lerpAmount := lerpAmount s;
       lerpAmountFace := lerpAmountFace s; cameraPosition := cameraPosition s;
       cameraLookAt := cameraLookAt s; updated_at := updated_at s |}) ;;;
  assign data (py "idleBreathingSpeed") py_float (fun x s =>
    {| vrmPath := vrmPath s; webcamEnabled := webcamEnabled s;
       idleBreathingSpeed := x;
       idleSwayAmount := idleSwayAmount s; autoLookAround := autoLookAround s;
       blinkInterval := blinkInterval s; lerpAmount := lerpAmount s;
       lerpAmountFace := lerpAmountFace s; cameraPosition := cameraPosition s;
       cameraLookAt := cameraLookAt s; updated_at := updated_at s |}) ;;;
  assign data (py "idleSwayAmount") py_float (fun x s =>
    {| vrmPath := vrmPath s; webcamEnabled := webcamEnabled s;
       idleBreathingSpeed := idleBreathingSpeed s;
       idleSwayAmount := x; autoLookAround := autoLookAround s;
       blinkInterval := blinkInterval s; lerpAmount := lerpAmount s;
       lerpAmountFace := lerpAmountFace s; cameraPosition := cameraPosition s;
       cameraLookAt := cameraLookAt s; updated_at := updated_at s |}) ;;;
  assign data (py "autoLookAround") (fun v => Ok (py_bool v)) (fun x s =>
    {| vrmPath := vrmPath s; webcamEnabled := webcamEnabled s;
       idleBreathingSpeed := idleBreathingSpeed s;
       idleSwayAmount := idleSwayAmount s; autoLookAround := x;
       blinkInterval := blinkInterval s; lerpAmount := lerpAmount s;
       lerpAmountFace := lerpAmountFace s; cameraPosition := cameraPosition s;
       cameraLookAt := cameraLookAt s; updated_at := updated_at s |}) ;;;
  assign data (py "blinkInterval") py_int (fun x s =>
    {| vrmPath := vrmPath s; webcamEnabled := webcamEnabled s;
       idleBreathingSpeed := idleBreathingSpeed s;
       idleSwayAmount := idleSwayAmount s; autoLookAround := autoLookAround s;
       blinkInterval := x; lerpAmount := lerpAmount s;
       lerpAmountFace := lerpAmountFace s; cameraPosition := cameraPosition s;
       cameraLookAt := cameraLookAt s; updated_at := updated_at s |}) ;;;
  assign data (py "lerpAmount") py_float (fun x s =>
    {| vrmPath := vrmPath s; webcamEnabled := webcamEnabled s;
       idleBreathingSpeed := idleBreathingSpeed s;
       idleSwayAmount := idleSwayAmount s; autoLookAround := autoLookAround s;
       blinkInterval := blinkInterval s; lerpAmount := x;
       lerpAmountFace := lerpAmountFace s; cameraPosition := cameraPosition s;
       cameraLookAt := cameraLookAt s; updated_at := updated_at s |}) ;;;
  assign data (py "lerpAmountFace") py_float (fun x s =>
    {| vrmPath := vrmPath s; webcamEnabled := webcamEnabled s;
       idleBreathingSpeed := idleBreathingSpeed s;
       idleSwayAmount := idleSwayAmount s; autoLookAround := autoLookAround s;
       blinkInterval := blinkInterval s; lerpAmount := lerpAmount s;
       lerpAmountFace := x; cameraPosition := cameraPosition s;
       cameraLookAt := cameraLookAt s; updated_at := updated_at s |}) ;;;
  assign data (py "cameraPosition") if_dict (fun x s =>
    match x with
    | Some d =>
        {| vrmPath := vrmPath s; webcamEnabled := webcamEnabled s;
           idleBreathingSpeed := idleBreathingSpeed s;
           idleSwayAmount := idleSwayAmount s; autoLookAround := autoLookAround s;
           blinkInterval := blinkInterval s; lerpAmount := lerpAmount s;
           lerpAmountFace := lerpAmountFace s; cameraPosition := d;
           cameraLookAt := cameraLookAt s; updated_at := updated_at s |}
    | None => s
    end) ;;;
  assign data (py "cameraLookAt") if_dict (fun x s =>
    match x with
    | Some d =>
        {| vrmPath := vrmPath s; webcamEnabled := webcamEnabled s;
           idleBreathingSpeed := idleBreathingSpeed s;
           idleSwayAmount := idleSwayAmount s; autoLookAround := autoLookAround s;
           blinkInterval := blinkInterval s; lerpAmount := lerpAmount s;
           lerpAmountFace := lerpAmountFace s; cameraPosition := cameraPosition s;
           cameraLookAt := d; updated_at := updated_at s |}
    | None => s
    end).

(** [api_avatar_settings()] for a POST whose body is a dict or is falsy;
    [data] is the dict [request.json or {}]. The result is the snapshot of
    the answer. *)
Definition api_avatar_settings (data : list (pystr * pyval)) (stamp : pystr)
  : M event state settings :=
  snapshot <- with_lock the_lock (
    assignments data ;;;
    modify (set_settings (fun s =>
      {| vrmPath := vrmPath s; webcamEnabled := webcamEnabled s;
         idleBreathingSpeed := idleBreathingSpeed s;
         idleSwayAmount := idleSwayAmount s; autoLookAround := autoLookAround s;
         blinkInterval := blinkInterval s; lerpAmount := lerpAmount s;
         lerpAmountFace := lerpAmountFace s; cameraPosition := cameraPosition s;
         cameraLookAt := cameraLookAt s; updated_at := Some stamp |})) ;;;
    st <- get ;;
    ret (avatar_settings st)) ;;
  emit (avatar_settings_event snapshot) ;;;
  ret snapshot.

End WithBuiltins.

End Avatar.

Module AvatarSpec.
Import Avatar.

(** What a run of assignments may do: it returns or raises without
    sending anything and without touching the lock, and the settings
    before and after are related by [R] when it returns and by [X] when it
    raises. *)
Definition changes (R X : settings -> settings -> Prop) (m : M event state unit)
  : Prop :=
  forall st,
    match m st with
    | Returned _ st' out =>
        out = [] /\ avatar_settings_lock st' = avatar_settings_lock st /\
        R (avatar_settings st) (avatar_settings st')
    | Raised _ st' out =>
        out = [] /\ avatar_settings_lock st' = avatar_settings_lock st /\
        X (avatar_settings st) (avatar_settings st')
    | Blocked _ _ => False
    end.

Lemma changes_bind (R1 X1 R2 X2 R X : settings -> settings -> Prop)
  (m1 m2 : M event state unit) :
  changes R1 X1 m1 -> changes R2 X2 m2 ->
  (forall a b c, R1 a b -> R2 b c -> R a c) ->
  (forall a b, X1 a b -> X a b) ->
  (forall a b c, R1 a b -> X2 b c -> X a c) ->
  changes R X (m1 ;;; m2).
Proof.
  intros H1 H2 HR HX1 HX2 st. unfold bind. specialize (H1 st).
  destruct (m1 st) as [[] st1 o1 | e st1 o1 | st1 o1]; [| | done].
  - destruct H1 as (-> & Hl1 & Hr1). specialize (H2 st1).
    destruct (m2 st1) as [[] st2 o2 | e st2 o2 | st2 o2]; [| | done].
    + destruct H2 as (-> & Hl2 & Hr2). split; [reflexivity |].
      split; [congruence | eauto].
    + destruct H2 as (-> & Hl2 & Hr2). split; [reflexivity |].
      split; [congruence | eauto].
  - destruct H1 as (-> & Hl1 & Hx1). auto.
Qed.

Lemma changes_assign {A} (R X : settings -> settings -> Prop)
  (data : list (pystr * pyval)) (key : pystr) (convert : pyval -> res A)
  (store : A -> settings -> settings) :
  (TwitchClip.item key (VDict data) = None -> forall s, R s s) ->
  (forall v x, TwitchClip.item key (VDict data) = Some v -> convert v = Ok x ->
     forall s, R s (store x s)) ->
  (forall v e, TwitchClip.item key (VDict data) = Some v -> convert v = Err e ->
     forall s, X s s) ->
  changes R X (assign data key convert store).
Proof.
  intros Hnone Hstore Hx st. unfold assign.
  destruct (TwitchClip.item key (VDict data)) as [v |] eqn:Ev.
  - unfold bind, lift. destruct (convert v) as [x | e] eqn:Ec; cbn.
    + split; [reflexivity |]. split; [reflexivity | by apply (Hstore v)].
    + split; [reflexivity |]. split; [reflexivity | by apply (Hx v e)].
  - cbn. split; [reflexivity |]. split; [reflexivity | by apply Hnone].
Qed.

(** The fields that the assignments after [webcamEnabled] leave alone, and
    those that the ones before [cameraPosition] leave alone. *)
Definition keeps_head (a b : settings) : Prop :=
  vrmPath b = vrmPath a /\ webcamEnabled b = webcamEnabled a /\
  updated_at b = updated_at a.

Definition keeps_head_and_camera (a b : settings) : Prop :=
  keeps_head a b /\ cameraPosition b = cameraPosition a /\
  cameraLookAt b = cameraLookAt a.

Definition never (a b : settings) : Prop := False.

(** What the first two assignments store. *)
Definition new_vrmPath (data : list (pystr * pyval)) (old : settings) : pystr :=
  match TwitchClip.item (py "vrmPath") (VDict data) with
  | Some (VStr p) => p
  | _ => vrmPath old
  end.

Definition new_webcamEnabled (data : list (pystr * pyval)) (old : settings) : bool :=
  match TwitchClip.item (py "webcamEnabled") (VDict data) with
  | Some v => py_bool v
  | None => webcamEnabled old
  end.

(** The head is as the body asks, the time of the last update stays. *)
Definition head_stored (data : list (pystr * pyval)) (a b : settings) : Prop :=
  vrmPath b = new_vrmPath data a /\ webcamEnabled b = new_webcamEnabled data a /\
  updated_at b = updated_at a.

Definition head_stored_camera_kept (data : list (pystr * pyval)) (a b : settings)
  : Prop :=
  head_stored data a b /\ cameraPosition b = cameraPosition a /\
  cameraLookAt b = cameraLookAt a.

Create HintDb avatar.
#[local] Hint Unfold keeps_head keeps_head_and_camera never head_stored
  head_stored_camera_kept new_vrmPath new_webcamEnabled : avatar.

Ltac frame :=
  autounfold with avatar; intros;
  cbn [vrmPath webcamEnabled updated_at cameraPosition cameraLookAt] in *;
  intuition congruence.

Section WithBuiltins.
Context {B : Builtins}.

Lemma assignments_changes (data : list (pystr * pyval)) :
  changes (head_stored data) (head_stored_camera_kept data) (assignments data).
Proof.
  unfold assignments.
  (* vrmPath *)
  eapply (changes_bind
            (fun a b => vrmPath b = new_vrmPath data a /\
                        webcamEnabled b = webcamEnabled a /\
                        updated_at b = updated_at a /\
                        cameraPosition b = cameraPosition a /\
                        cameraLookAt b = cameraLookAt a)
            never
            (fun a b => vrmPath b = vrmPath a /\
                        webcamEnabled b = new_webcamEnabled data a /\
                        updated_at b = updated_at a)
            (fun a b => vrmPath b = vrmPath a /\
                        webcamEnabled b = new_webcamEnabled data a /\
                        updated_at b = updated_at a /\
                        cameraPosition b = cameraPosition a /\
                        cameraLookAt b = cameraLookAt a)).
  { apply changes_assign.
    - intros E s. unfold new_vrmPath. by rewrite E.
    - intros v x E Hx s. unfold new_vrmPath. rewrite E.
      injection Hx as <-. by destruct v.
    - intros v e E Hx. discriminate Hx. }
  2: { unfold head_stored, new_webcamEnabled, new_vrmPath.
       intros a b c (H1 & H2 & H3 & H4 & H5) (H6 & H7 & H8).
       rewrite H6, H7, H8, H1, H2, H3. auto. }
  2: { intros a b []. }
  2: { unfold head_stored_camera_kept, head_stored, new_webcamEnabled, new_vrmPath.
       intros a b c (H1 & H2 & H3 & H4 & H5) (H6 & H7 & H8 & H9 & H10).
       rewrite H6, H7, H8, H9, H10, H1, H2, H3, H4, H5. auto. }
  (* webcamEnabled *)
  eapply (changes_bind
            (fun a b => vrmPath b = vrmPath a /\
                        webcamEnabled b = new_webcamEnabled data a /\
                        updated_at b = updated_at a /\
                        cameraPosition b = cameraPosition a /\
                        cameraLookAt b = cameraLookAt a)
            never keeps_head keeps_head_and_camera).
  { apply changes_assign.
    - intros E s. unfold new_webcamEnabled. by rewrite E.
    - intros v x E Hx s. unfold new_webcamEnabled. rewrite E.
      by injection Hx as <-.
    - intros v e E Hx. discriminate Hx. }
  2: { unfold keeps_head. intros a b c (H1 & H2 & H3 & H4 & H5) (H6 & H7 & H8).
       rewrite H6, H7, H8, H1, H2, H3. auto. }
  2: { intros a b []. }
  2: { unfold keeps_head_and_camera, keeps_head.
       intros a b c (H1 & H2 & H3 & H4 & H5) ((H6 & H7 & H8) & H9 & H10).
       rewrite H6, H7, H8, H9, H10, H1, H2, H3, H4, H5. auto. }
  (* the six assignments that convert; each may raise *)
  do 6 (eapply (changes_bind keeps_head_and_camera keeps_head_and_camera
                  keeps_head keeps_head_and_camera);
        [ apply changes_assign; frame | | frame | frame | frame ]).
  (* the camera *)
  eapply (changes_bind keeps_head never keeps_head never).
  - apply changes_assign.
    + frame.
    + intros v x E Hx s. injection Hx as <-. destruct v; frame.
    + intros v e E Hx. discriminate Hx.
  - apply changes_assign.
    + frame.
    + intros v x E Hx s. injection Hx as <-. destruct v; frame.
    + intros v e E Hx. discriminate Hx.
  - frame.
  - intros a b [].
  - intros a b c _ [].
Qed.

End WithBuiltins.

(** X23: [api_avatar_settings] is not all-or-nothing. With the lock free it
    never blocks. When it returns, the snapshot it returns is the stored
    settings, carries the time of the call and is published once. When a
    conversion raises ([float] or [int] on a value of the body), nothing is
    published, the lock is released and [updated_at] keeps its old value,
    but the fields that come earlier in the function are already stored:
    [vrmPath] and [webcamEnabled] are the ones of the body whenever the
    body has them, while the camera fields, which come last, are the old
    ones. *)
Theorem api_avatar_settings_partial
  (B : Builtins) (data : list (pystr * pyval)) (stamp : pystr) (st : state) :
  avatar_settings_lock st = false ->
  let old := avatar_settings st in
  match api_avatar_settings data stamp st with
  | Returned snapshot st' out =>
      out = [avatar_settings_event snapshot] /\
      st' = {| avatar_settings_lock := false; avatar_settings := snapshot |} /\
      updated_at snapshot = Some stamp /\
      vrmPath snapshot = new_vrmPath data old /\
      webcamEnabled snapshot = new_webcamEnabled data old
  | Raised _ st' out =>
      out = [] /\ avatar_settings_lock st' = false /\
      updated_at (avatar_settings st') = updated_at old /\
      vrmPath (avatar_settings st') = new_vrmPath data old /\
      webcamEnabled (avatar_settings st') = new_webcamEnabled data old /\
      cameraPosition (avatar_settings st') = cameraPosition old /\
      cameraLookAt (avatar_settings st') = cameraLookAt old
  | Blocked _ _ => False
  end.
Proof.
  intros Hl old. unfold api_avatar_settings.
  pose proof (assignments_changes data (set_held the_lock true st)) as H.
  unfold bind at 1. unfold with_lock, acquire. cbn [held the_lock]. rewrite Hl.
  unfold bind at 1.
  destruct (assignments data (set_held the_lock true st)) as [[] st1 o1 | e st1 o1 | st1 o1];
    [| | done].
  - destruct H as (-> & Hl1 & Hv & Hw & Hu). destruct st1 as [l1 s1].
    cbn in Hl1, Hv, Hw, Hu |- *. subst l1.
    split; [reflexivity |]. split; [reflexivity |]. split; [reflexivity |]. by split.
  - destruct H as (-> & Hl1 & (Hv & Hw & Hu) & Hp & Ha). destruct st1 as [l1 s1].
    cbn in Hl1, Hv, Hw, Hu, Hp, Ha |- *.
    split; [reflexivity |]. split; [reflexivity |]. by repeat split.
Qed.

Definition tuning : list (pystr * pyval) :=
  [(py "webcamEnabled", VBool false); (py "lerpAmount", VStr (py "fast"));
   (py "cameraLookAt", VDict [(py "x", VInt 1)])].

Lemma api_avatar_settings_partial_witness :
  avatar_settings_lock initial = false /\
  exists st',
    api_avatar_settings (B := ascii_builtins) tuning (py "2026-02-11T20:15:00.000000Z")
      initial = Raised ValueError st' [] /\
    webcamEnabled (avatar_settings st') = false /\
    cameraLookAt (avatar_settings st') = cameraLookAt (avatar_settings initial) /\
    updated_at (avatar_settings st') = None.
Proof.
  split; [reflexivity |].
  pose proof (api_avatar_settings_partial ascii_builtins tuning
                (py "2026-02-11T20:15:00.000000Z") initial eq_refl) as H.
  cbv zeta in H.
  destruct (api_avatar_settings tuning (py "2026-02-11T20:15:00.000000Z") initial)
    as [snap st' out | e st' out | st' out] eqn:E; [| | done].
  - vm_compute in E. discriminate E.
  - destruct H as (-> & _ & Hu & _ & Hw & _ & Ha).
    exists st'. split; [| split; [exact Hw | split; [exact Ha | exact Hu]]].
    vm_compute in E. injection E as <- <-. reflexivity.
Defined.

End AvatarSpec.

(** ** The [.env] file ([read_env_file], [write_env_file],
    [api_config_save]) *)

Module EnvFile.

(** What [open(path, "r")] makes of the content of a file: [\r\n] and
    [\r] become [\n]. *)
Fixpoint translate (s : pystr) : pystr :=
  match s with
  | [] => []
  | c :: r =>
      if (c =? 0x0D)%N then
        0x0A%N :: match r with
                  | c' :: r' => if (c' =? 0x0A)%N then translate r' else translate r
                  | [] => []
                  end
      else c :: translate r
  end.

(** [for line in f]: the text cut after each [\n]. *)
Fixpoint lines (s : pystr) : list pystr :=
  match s with
  | [] => []
  | c :: r =>
      if (c =? 0x0A)%N then [c] :: lines r
      else match lines r with
           | [] => [[c]]
           | l :: ls => (c :: l) :: ls
           end
  end.

(** [s.strip(ch)] for a one-character [ch]. *)
Fixpoint lstrip_char (ch : N) (s : pystr) : pystr :=
  match s with
  | [] => []
  | c :: s' => if (c =? ch)%N then lstrip_char ch s' else s
  end.

Fixpoint rstrip_char (ch : N) (s : pystr) : pystr :=
  match s with
  | [] => []
  | c :: s' =>
      match rstrip_char ch s' with
      | [] => if (c =? ch)%N then [] else [c]
      | r => c :: r
      end
  end.

Definition strip_char (ch : N) (s : pystr) : pystr := rstrip_char ch (lstrip_char ch s).

(** [s.split("=", 1)] when ["=" in s]: what stands before and after the
    first [=]. *)
Fixpoint split_eq (s : pystr) : option (pystr * pystr) :=
  match s with
  | [] => None
  | c :: r =>
      if (c =? 0x3D)%N then Some ([], r)
      else match split_eq r with
           | Some (k, v) => Some (c :: k, v)
           | None => None
           end
  end.

(** A [dict] from strings to strings, in insertion order; each key once. *)
Definition dict := list (list N * list N).

Definition dict_get (k : pystr) (d : dict) : option pystr :=
  snd <$> find (fun kv => bool_decide (kv.1 = k)) d.

(** [d[k] = v]: a key that is there keeps its place. *)
Fixpoint dict_set (k v : pystr) (d : dict) : dict :=
  match d with
  | [] => [(k, v)]
  | (k', v') :: d' => if bool_decide (k' = k) then (k, v) :: d' else (k', v') :: dict_set k v d'
  end.

(** [d.pop(k)] *)
Definition dict_pop (k : pystr) (d : dict) : dict :=
  List.filter (fun kv => negb (bool_decide (kv.1 = k))) d.

(** What both functions see in a line: nothing in a blank line, a comment
    or a line without [=], else what stands before and after the first
    [=] of the stripped line. *)
Definition assignment (line : pystr) : option (pystr * pystr) :=
  let stripped := strip line in
  match stripped with
  | [] => None
  | _ => if startswith (py "#") stripped then None else split_eq stripped
  end.

(** The body of the loop of [read_env_file]. *)
Definition read_line (env : dict) (line : pystr) : dict :=
  match assignment line with
  | Some (k, v) => dict_set (strip k) (strip_char 0x27 (strip_char 0x22 (strip v))) env
  | None => env
  end.

(** [read_env_file()]; the file is absent or has a content. *)
Definition read_env_file (file : option pystr) : dict :=
  match file with
  | Some content => fold_left read_line (lines (translate content)) []
  | None => []
  end.

(** [f'{k}={v}\n'] *)
Definition entry (kv : pystr * pystr) : pystr := kv.1 ++ py "=" ++ kv.2 ++ [0x0A%N].

(** The loop of [write_env_file] over the lines of the file: the lines to
    write, and what is left of [env_dict]. *)
Fixpoint rewrite_lines (ls : list pystr) (env_dict : dict) : list pystr * dict :=
  match ls with
  | [] => ([], env_dict)
  | line :: rest =>
      match assignment line with
      | Some (k, _) =>
          let key := strip k in
          match dict_get key env_dict with
          | Some v =>
              let r := rewrite_lines rest (dict_pop key env_dict) in
              (entry (key, v) :: r.1, r.2)
          | None =>
              let r := rewrite_lines rest env_dict in (line :: r.1, r.2)
          end
      | None =>
          let r := rewrite_lines rest env_dict in (line :: r.1, r.2)
      end
  end.

(** [write_env_file(env_dict)]: the content of the file afterwards. *)
Definition write_env_file (file : option pystr) (env_dict : dict) : pystr :=
  let r :=
    rewrite_lines (match file with
                   | Some content => lines (translate content)
                   | None => []
                   end) env_dict in
  concat (r.1 ++ map entry r.2).

(** The keys of [CONFIG_FIELDS]. *)
Definition known : list pystr :=
  [py "TWITCH_CLIENT_ID"; py "TWITCH_CLIENT_SECRET"; py "TWITCH_OAUTH_TOKEN";
   py "TWITCH_CHANNEL"; py "TWITCH_BOT_NAME"; py "OBS_HOST"; py "OBS_PORT";
   py "OBS_PASSWORD"; py "OVERLAYS_SERVER_HOST"; py "OVERLAYS_SERVER_PORT";
   py "OVERLAYS_SECRET_KEY"; py "OVERLAYS_KEYBOARD_CAPTURE_ENABLED";
   py "OBS_PROXY_VIA_FEBRUARY11"; py "FEBRUARY11_API_BASE_URL";
   py "SUBTITLE_DEFAULT_FONT_SIZE"; py "SUBTITLE_DEFAULT_TEXT_COLOR";
   py "SUBTITLE_DEFAULT_BG_COLOR"; py "SUBTITLE_DEFAULT_BG_OPACITY"].

(** The loop of [api_config_save] over [updates.items()]. *)
Definition apply_updates {B : Builtins} (updates : list (pystr * pyval)) (env : dict)
  : dict :=
  fold_left (fun env kv =>
               if bool_decide (kv.1 ∈ known) then dict_set kv.1 (py_str kv.2) env
               else env)
    updates env.

(** [api_config_save()] for a body whose [values] is a dict, given as
    [updates]: the status of the answer, and the file afterwards. *)
Definition api_config_save {B : Builtins} (updates : list (pystr * pyval))
  (file : option pystr) : Z * option pystr :=
  match updates with
  | [] => (400%Z, file)
  | _ => (200%Z, Some (write_env_file file (apply_updates updates (read_env_file file))))
  end.

End EnvFile.

Module EnvFileSpec.
Import EnvFile TextFacts.

(** *** Lines *)

(** A line with its line break: no other line break inside. *)
Definition whole_line (l : pystr) : Prop :=
  exists body, l = body ++ [0x0A%N] /\ Forall (fun c => c <> 0x0A%N) body.

(** The text is empty or ends with a line break. *)
Fixpoint ends_nl (s : pystr) : bool :=
  match s with
  | [] => true
  | c :: r => match r with [] => (c =? 0x0A)%N | _ => ends_nl r end
  end.

Definition terminated (file : option pystr) : bool :=
  match file with
  | Some content => ends_nl (translate content)
  | None => true
  end.

Definition file_lines (file : option pystr) : list pystr :=
  match file with
  | Some content => lines (translate content)
  | None => []
  end.

Lemma lines_nonempty (c : N) (r : pystr) : lines (c :: r) <> [].
Proof. cbn [lines]. destruct (c =? 0x0A)%N; [done |]. by destruct (lines r). Qed.

Lemma lines_whole (s : pystr) : ends_nl s = true -> Forall whole_line (lines s).
Proof.
  induction s as [| c r IH]; [constructor |]. intros H. cbn [lines].
  destruct (N.eqb_spec c 0x0A) as [-> | Hc].
  - constructor; [by exists [] |]. apply IH. by destruct r.
  - destruct r as [| c' r']; [cbn in H; by apply N.eqb_eq in H |].
    specialize (IH H). pose proof (lines_nonempty c' r') as Hne.
    destruct (lines (c' :: r')) as [| l ls]; [done |].
    apply Forall_cons in IH as [(body & -> & Hb) Hls].
    constructor; [| exact Hls]. exists (c :: body). split; [reflexivity |].
    by constructor.
Qed.

Lemma lines_app_whole (l rest : pystr) :
  whole_line l -> lines (l ++ rest) = l :: lines rest.
Proof.
  intros (body & -> & Hb). induction Hb as [| c body Hc Hb IH]; [reflexivity |].
  cbn [app lines] in *. destruct (N.eqb_spec c 0x0A) as [-> | _]; [done |].
  by rewrite IH.
Qed.

Lemma lines_concat (ls : list pystr) : Forall whole_line ls -> lines (concat ls) = ls.
Proof.
  induction 1 as [| l ls Hl Hls IH]; [reflexivity |].
  cbn [concat]. by rewrite lines_app_whole, IH.
Qed.

Lemma lines_chars (P : N -> Prop) (s : pystr) :
  Forall P s -> Forall (Forall P) (lines s).
Proof.
  induction 1 as [| c r Hc Hr IH]; [constructor |]. cbn [lines].
  destruct (c =? 0x0A)%N; [constructor; [by repeat constructor | exact IH] |].
  destruct (lines r) as [| l ls]; [by repeat constructor |].
  apply Forall_cons in IH as [Hl Hls]. constructor; [by constructor | exact Hls].
Qed.

(** A line of a text has its line break at the end only. *)
Lemma lines_break_last (s : pystr) :
  Forall (fun l => exists body, (l = body \/ l = body ++ [0x0A%N]) /\
                                Forall (fun c => c <> 0x0A%N) body) (lines s).
Proof.
  induction s as [| c r IH]; [constructor |]. cbn [lines].
  destruct (N.eqb_spec c 0x0A) as [-> | Hc].
  - constructor; [| exact IH]. exists []. split; [by right | constructor].
  - destruct (lines r) as [| l ls].
    + constructor; [| constructor]. exists [c]. split; [by left | by repeat constructor].
    + apply Forall_cons in IH as [(body & Hl & Hb) Hls].
      constructor; [| exact Hls]. exists (c :: body).
      split; [destruct Hl as [-> | ->]; [by left | by right] | by constructor].
Qed.

(** Reading translates every carriage return away, and changes nothing in
    a text without one. *)
Lemma translate_spec (n : nat) :
  forall s, length s <= n ->
    Forall (fun c => c <> 0x0D%N) (translate s) /\
    (Forall (fun c => c <> 0x0D%N) s -> translate s = s).
Proof.
  induction n as [| n IH]; intros s Hn.
  - destruct s; [| cbn in Hn; lia]. split; [constructor | done].
  - destruct s as [| c r]; [split; [constructor | done] |].
    cbn [length] in Hn. cbn [translate].
    destruct (N.eqb_spec c 0x0D) as [-> | Hc].
    + split; [| intros H; by apply Forall_cons in H as [? _]].
      constructor; [done |]. destruct r as [| c' r']; [constructor |].
      cbn [length] in Hn.
      destruct (c' =? 0x0A)%N; apply IH; cbn [length]; lia.
    + destruct (IH r ltac:(lia)) as [H1 H2]. split; [by constructor |].
      intros H. apply Forall_cons in H as [_ H]. by rewrite H2.
Qed.

Lemma translate_no_cr (s : pystr) : Forall (fun c => c <> 0x0D%N) (translate s).
Proof. by apply (translate_spec (length s)). Qed.

Lemma translate_id (s : pystr) :
  Forall (fun c => c <> 0x0D%N) s -> translate s = s.
Proof. by apply (translate_spec (length s)). Qed.

(** *** What a line says *)

Definition no_breaks (s : pystr) : bool :=
  forallb (fun c => negb (c =? 0x0A)%N && negb (c =? 0x0D)%N) s.

(** Neither white space nor a quote mark. *)
Definition edge_ok (c : N) : bool :=
  negb (isspace c) && negb (c =? 0x22)%N && negb (c =? 0x27)%N.

(** A value that is written and read back as it is: no white space and no
    quote mark at either end, no line break. *)
Definition bare (v : pystr) : bool :=
  match v with
  | [] => true
  | c :: _ => edge_ok c && match last v with Some c' => edge_ok c' | None => true end
  end && no_breaks v.

(** A key as [read_env_file] produces them, and as [CONFIG_FIELDS] has
    them: no white space at either end, no [=], no line break. *)
Definition key_wf (k : pystr) : Prop :=
  lstrip k = k /\ rstrip k = k /\ split_eq k = None /\ no_breaks k = true.

(** What [read_env_file] makes of the text after the [=]: white space
    is stripped from both ends, then double quotes, then single quotes. *)
Definition as_read (v : pystr) : pystr :=
  strip_char 0x27 (strip_char 0x22 (strip v)).

(** What [read_env_file] stores for a line. *)
Definition parsed (line : pystr) : option (pystr * pystr) :=
  match assignment line with
  | Some (k, v) => Some (strip k, as_read v)
  | None => None
  end.

Lemma read_line_parsed (env : dict) (line : pystr) :
  read_line env line =
    match parsed line with
    | Some (k, v) => dict_set k v env
    | None => env
    end.
Proof. unfold read_line, parsed. by destruct (assignment line) as [[k v] |]. Qed.

Lemma lstrip_length (s : pystr) : length (lstrip s) <= length s.
Proof.
  induction s as [| c s IH]; [done |]. cbn [lstrip].
  destruct (isspace c); cbn [length]; lia.
Qed.

Lemma lstrip_fixed_head (c : N) (s : pystr) : lstrip (c :: s) = c :: s -> isspace c = false.
Proof.
  cbn [lstrip]. destruct (isspace c); [| done]. intros E.
  pose proof (lstrip_length s) as H. rewrite E in H. cbn [length] in H. lia.
Qed.

Lemma rstrip_app_nonspace (a b : pystr) (c : N) :
  isspace c = false -> rstrip (a ++ c :: b) = a ++ c :: rstrip b.
Proof.
  intros Hc. induction a as [| x a IH]; cbn [app rstrip].
  - destruct (rstrip b); [by rewrite Hc | done].
  - rewrite IH. by destruct a.
Qed.

Lemma rstrip_fixed_last (s : pystr) (c : N) : rstrip (s ++ [c]) = s ++ [c] -> isspace c = false.
Proof.
  rewrite rstrip_snoc. destruct (isspace c); [| done]. intros E.
  pose proof (rstrip_length s) as H. rewrite E, length_app in H. cbn [length] in H. lia.
Qed.

Lemma split_eq_app (k w : pystr) :
  split_eq k = None -> split_eq (k ++ 0x3D%N :: w) = Some (k, w).
Proof.
  induction k as [| c k IH]; [done |]. cbn [app split_eq].
  destruct (c =? 0x3D)%N; [done |].
  destruct (split_eq k) as [[] |]; [done |]. intros _. by rewrite IH.
Qed.

(** The line written for a key and a value, as both functions see it. *)
Lemma assignment_entry (k v : pystr) :
  lstrip k = k -> split_eq k = None ->
  assignment (entry (k, v)) =
    if startswith (py "#") k then None else Some (k, rstrip v).
Proof.
  intros Hk Hs. unfold assignment, entry. cbn [fst snd].
  change (py "=") with [0x3D%N]. cbn [app].
  assert (E : strip (k ++ 0x3D%N :: v ++ [0x0A%N]) = k ++ 0x3D%N :: rstrip v).
  { unfold strip.
    assert (El : lstrip (k ++ 0x3D%N :: v ++ [0x0A%N]) = k ++ 0x3D%N :: v ++ [0x0A%N]).
    { destruct k as [| c k]; [done |]. cbn [app lstrip].
      by rewrite (lstrip_fixed_head c k Hk). }
    rewrite El, rstrip_app_nonspace by done. by rewrite rstrip_snoc. }
  rewrite E. destruct k as [| c k]; cbn [app].
  - reflexivity.
  - change (startswith (py "#") (c :: k ++ 0x3D%N :: rstrip v))
      with (startswith (py "#") (c :: k)).
    destruct (startswith (py "#") (c :: k)); [done |].
    by apply (split_eq_app (c :: k)).
Qed.

Lemma strip_fixed (s : pystr) : lstrip s = s -> rstrip s = s -> strip s = s.
Proof. intros H1 H2. unfold strip. by rewrite H1, H2. Qed.

Lemma lstrip_snoc (s : pystr) (c : N) :
  lstrip (s ++ [c]) =
    match lstrip s with
    | [] => if isspace c then [] else [c]
    | r => r ++ [c]
    end.
Proof.
  induction s as [| a s IH]; cbn [app lstrip]; [by destruct (isspace c) |].
  by destruct (isspace a).
Qed.

Lemma rstrip_idem (s : pystr) : rstrip (rstrip s) = rstrip s.
Proof.
  induction s as [| c s IH] using rev_ind; [done |].
  rewrite rstrip_snoc. destruct (isspace c) eqn:Hc; [exact IH |].
  by apply rstrip_ends_nonspace.
Qed.

Lemma lstrip_rstrip (s : pystr) : lstrip (rstrip s) = rstrip (lstrip s).
Proof.
  induction s as [| c s IH] using rev_ind; [done |].
  rewrite rstrip_snoc, lstrip_snoc. destruct (isspace c) eqn:Hc.
  - rewrite IH. destruct (lstrip s) as [| a r]; [done |].
    by rewrite rstrip_snoc, Hc.
  - rewrite lstrip_snoc, Hc. destruct (lstrip s) as [| a r].
    + cbn. by rewrite Hc.
    + by rewrite rstrip_ends_nonspace.
Qed.

Lemma strip_rstrip (s : pystr) : strip (rstrip s) = strip s.
Proof. unfold strip. by rewrite lstrip_rstrip, rstrip_idem. Qed.

Lemma parsed_entry (k v : pystr) :
  key_wf k ->
  parsed (entry (k, v)) =
    if startswith (py "#") k then None else Some (k, as_read v).
Proof.
  intros (H1 & H2 & H3 & _). unfold parsed, as_read. rewrite assignment_entry by done.
  destruct (startswith (py "#") k); [done |]. by rewrite strip_fixed, strip_rstrip.
Qed.

(** The line of another key never speaks for this one. *)
Lemma parsed_entry_other (k k' v' w : pystr) :
  key_wf k' -> parsed (entry (k', v')) = Some (k, w) -> k' = k.
Proof.
  intros Hk. rewrite parsed_entry by done.
  destruct (startswith (py "#") k'); [done |]. by intros [= -> _].
Qed.

Lemma rstrip_char_snoc (ch c : N) (s : pystr) :
  rstrip_char ch (s ++ [c]) = if (c =? ch)%N then rstrip_char ch s else s ++ [c].
Proof.
  induction s as [| a s IH]; cbn [app rstrip_char].
  - by destruct (c =? ch)%N.
  - rewrite IH. destruct (c =? ch)%N; [reflexivity |]. by destruct s.
Qed.

Lemma edge_ok_spec (c : N) :
  edge_ok c = true -> isspace c = false /\ (c =? 0x22)%N = false /\ (c =? 0x27)%N = false.
Proof.
  unfold edge_ok. rewrite !andb_true_iff, !negb_true_iff. tauto.
Qed.

Lemma bare_fixed (v : pystr) :
  bare v = true ->
  lstrip v = v /\ rstrip v = v /\
  strip_char 0x27 (strip_char 0x22 v) = v /\ no_breaks v = true.
Proof.
  unfold bare. rewrite andb_true_iff. intros [He Hb].
  destruct (decide (v = [])) as [-> | Hne]; [done |].
  destruct v as [| c v']; [done |].
  apply andb_true_iff in He as [Hc Hl].
  destruct (exists_last Hne) as (s & c' & E). rewrite E in Hl |- *.
  rewrite last_snoc in Hl.
  apply edge_ok_spec in Hc as (Hc1 & Hc2 & Hc3).
  apply edge_ok_spec in Hl as (Hl1 & Hl2 & Hl3).
  assert (Hhead : forall ch, (c =? ch)%N = false -> lstrip_char ch (s ++ [c']) = s ++ [c']).
  { intros ch Hch. rewrite <- E. cbn [lstrip_char]. by rewrite Hch. }
  split; [rewrite <- E; cbn [lstrip]; by rewrite Hc1 |].
  split; [by apply rstrip_ends_nonspace |].
  split; [| by rewrite <- E].
  unfold strip_char. rewrite (Hhead _ Hc2), rstrip_char_snoc, Hl2.
  by rewrite (Hhead _ Hc3), rstrip_char_snoc, Hl3.
Qed.

Lemma as_read_bare (v : pystr) : bare v = true -> as_read v = v.
Proof.
  intros Hv. destruct (bare_fixed v Hv) as (H1 & H2 & H3 & _).
  unfold as_read. by rewrite strip_fixed, H3.
Qed.

(** *** The dictionary *)

Lemma dict_get_set (k k' v : pystr) (d : dict) :
  dict_get k (dict_set k' v d) = if decide (k' = k) then Some v else dict_get k d.
Proof.
  unfold dict_get. induction d as [| [a b] d IH]; cbn [dict_set find fmap option_fmap option_map fst snd].
  - cbn. destruct (decide (k' = k)) as [-> | Hne].
    + by rewrite bool_decide_eq_true_2.
    + by rewrite bool_decide_eq_false_2.
  - destruct (decide (a = k')) as [-> | Hak].
    + rewrite bool_decide_eq_true_2 by done. cbn [find fst].
      destruct (decide (k' = k)) as [-> | Hne].
      * by rewrite bool_decide_eq_true_2.
      * by rewrite !bool_decide_eq_false_2.
    + rewrite bool_decide_eq_false_2 by done. cbn [find fst].
      destruct (decide (a = k)) as [-> | Hne].
      * rewrite bool_decide_eq_true_2 by done. by rewrite decide_False by done.
      * rewrite bool_decide_eq_false_2 by done. exact IH.
Qed.

Lemma dict_get_pop (k k' : pystr) (d : dict) :
  dict_get k (dict_pop k' d) = if decide (k = k') then None else dict_get k d.
Proof.
  unfold dict_get, dict_pop. induction d as [| [a b] d IH]; cbn [List.filter find fst].
  - by destruct (decide (k = k')).
  - destruct (decide (a = k')) as [-> | Hak].
    + rewrite bool_decide_eq_true_2 by done. cbn [negb]. rewrite IH.
      destruct (decide (k = k')) as [-> | Hne]; [done |].
      by rewrite bool_decide_eq_false_2.
    + rewrite bool_decide_eq_false_2 by done. cbn [negb find fst].
      destruct (decide (a = k)) as [-> | Hne].
      * rewrite bool_decide_eq_true_2 by done. by rewrite decide_False by done.
      * rewrite bool_decide_eq_false_2 by done. exact IH.
Qed.

Lemma dict_get_Some (k v : pystr) (d : dict) : dict_get k d = Some v -> (k, v) ∈ d.
Proof.
  unfold dict_get. induction d as [| [a b] d IH]; [done |]. cbn [find fst].
  destruct (decide (a = k)) as [-> | Hne].
  - rewrite bool_decide_eq_true_2 by done. intros [= <-]. by left.
  - rewrite bool_decide_eq_false_2 by done. intros H. right. by apply IH.
Qed.

Lemma dict_get_None (k : pystr) (d : dict) : dict_get k d = None <-> k ∉ d.*1.
Proof.
  unfold dict_get. induction d as [| [a b] d IH]; cbn [find fst fmap list_fmap].
  - split; [intros _; apply not_elem_of_nil | done].
  - rewrite not_elem_of_cons. cbn [fst]. destruct (decide (a = k)) as [-> | Hne].
    + rewrite bool_decide_eq_true_2 by done. split; [done | by intros []].
    + rewrite bool_decide_eq_false_2 by done. rewrite IH.
      split; [intros H; split; [congruence | exact H] | by intros [_ H]].
Qed.

Lemma dict_pop_subseteq (k : pystr) (d : dict) (kv : pystr * pystr) :
  kv ∈ dict_pop k d -> kv ∈ d.
Proof.
  unfold dict_pop. intros H. apply list_elem_of_In in H.
  apply filter_In in H as [H _]. by apply list_elem_of_In.
Qed.

Lemma dict_set_keys (k v : pystr) (d : dict) :
  (dict_set k v d).*1 = if decide (k ∈ d.*1) then d.*1 else d.*1 ++ [k].
Proof.
  induction d as [| [a b] d IH]; cbn [dict_set fmap list_fmap fst app].
  - rewrite decide_False by apply not_elem_of_nil. reflexivity.
  - destruct (decide (a = k)) as [-> | Hne].
    + rewrite bool_decide_eq_true_2 by done.
      by rewrite decide_True by (by left).
    + rewrite bool_decide_eq_false_2 by done. cbn [fmap list_fmap fst].
      change (list_fmap _ _ fst (dict_set k v d)) with ((dict_set k v d).*1).
      rewrite IH. destruct (decide (k ∈ d.*1)) as [Hin | Hout].
      * by rewrite decide_True by (by right).
      * rewrite decide_False; [done |]. rewrite not_elem_of_cons. by split.
Qed.

Lemma dict_set_elem (k v : pystr) (d : dict) (kv : pystr * pystr) :
  kv ∈ dict_set k v d -> kv = (k, v) \/ kv ∈ d.
Proof.
  induction d as [| [a b] d IH]; cbn [dict_set].
  - intros H. apply list_elem_of_singleton in H. by left.
  - destruct (bool_decide (a = k)).
    + intros H. apply elem_of_cons in H as [-> | H]; [by left | right; by right].
    + intros H. apply elem_of_cons in H as [-> | H]; [right; by left |].
      destruct (IH H) as [-> | H']; [by left | right; by right].
Qed.

(** A dictionary as the functions keep it: each key once, keys and values
    that fit on a line. *)
Definition wf_env (d : dict) : Prop :=
  NoDup d.*1 /\ Forall (fun kv => key_wf kv.1 /\ no_breaks kv.2 = true) d.

Lemma wf_env_nil : wf_env [].
Proof. split; constructor. Qed.

Lemma wf_env_set (k v : pystr) (d : dict) :
  wf_env d -> key_wf k -> no_breaks v = true -> wf_env (dict_set k v d).
Proof.
  intros [Hnd Hall] Hk Hv. split.
  - rewrite dict_set_keys. destruct (decide (k ∈ d.*1)); [done |].
    apply NoDup_app. split; [done |]. split; [| apply NoDup_singleton].
    intros x Hx Hx'. apply list_elem_of_singleton in Hx'. by subst.
  - apply Forall_forall. intros kv Hin.
    destruct (dict_set_elem k v d kv Hin) as [-> | Hin']; [done |].
    rewrite Forall_forall in Hall. by apply Hall.
Qed.

Lemma wf_env_pop (k : pystr) (d : dict) : wf_env d -> wf_env (dict_pop k d).
Proof.
  intros [Hnd Hall]. split.
  - unfold dict_pop. clear Hall. induction d as [| [a b] d IH]; [constructor |].
    cbn [List.filter fst]. apply NoDup_cons in Hnd as [Ha Hd].
    destruct (negb (bool_decide (a = k))); [| by apply IH].
    cbn [fmap list_fmap fst]. constructor; [| by apply IH].
    intros Hin. apply Ha. apply list_elem_of_fmap in Hin as (kv & -> & Hkv).
    apply list_elem_of_fmap. exists kv. split; [done |].
    by apply (dict_pop_subseteq k).
  - apply Forall_forall. intros kv Hin. rewrite Forall_forall in Hall.
    by apply Hall, (dict_pop_subseteq k).
Qed.

(** *** Reading: the last line of a key wins *)

Definition speaks_for (k : pystr) (line : pystr) : option pystr :=
  match parsed line with
  | Some (k', v) => if decide (k' = k) then Some v else None
  | None => None
  end.

Fixpoint last_of (k : pystr) (ls : list pystr) : option pystr :=
  match ls with
  | [] => None
  | l :: rest =>
      match last_of k rest with
      | Some v => Some v
      | None => speaks_for k l
      end
  end.

(** How many lines speak for the key. *)
Definition key_count (k : pystr) (ls : list pystr) : nat :=
  length (List.filter (fun l => bool_decide (is_Some (speaks_for k l))) ls).

Lemma fold_read_lookup (k : pystr) (ls : list pystr) :
  forall d, dict_get k (fold_left read_line ls d) =
            match last_of k ls with
            | Some v => Some v
            | None => dict_get k d
            end.
Proof.
  induction ls as [| l ls IH]; intros d; [reflexivity |].
  cbn [fold_left last_of]. rewrite IH. destruct (last_of k ls); [reflexivity |].
  rewrite read_line_parsed. unfold speaks_for.
  destruct (parsed l) as [[k' v] |]; [| reflexivity].
  rewrite dict_get_set. by destruct (decide (k' = k)).
Qed.

Lemma key_count_cons (k l : pystr) (ls : list pystr) :
  key_count k (l :: ls) =
    match speaks_for k l with Some _ => 1 | None => 0 end + key_count k ls.
Proof.
  unfold key_count. cbn [List.filter].
  destruct (speaks_for k l) as [v |].
  - by rewrite bool_decide_eq_true_2 by done.
  - rewrite bool_decide_eq_false_2; [reflexivity |]. by intros [].
Qed.

Lemma last_of_silent (k : pystr) (ls : list pystr) :
  key_count k ls = 0 -> last_of k ls = None.
Proof.
  induction ls as [| l ls IH]; [done |]. rewrite key_count_cons. cbn [last_of].
  destruct (speaks_for k l); [done |]. intros H. by rewrite IH.
Qed.

Lemma last_of_spoken (k : pystr) (ls : list pystr) :
  0 < key_count k ls -> is_Some (last_of k ls).
Proof.
  induction ls as [| l ls IH]; [cbn; lia |]. rewrite key_count_cons. cbn [last_of].
  destruct (last_of k ls) as [v |]; [done |].
  destruct (speaks_for k l); [done |]. intros H. by apply IH.
Qed.

(** *** Writing *)

(** The lines that [write_env_file] writes. *)
Definition written (ls : list pystr) (env : dict) : list pystr :=
  (rewrite_lines ls env).1 ++ map entry (rewrite_lines ls env).2.

Lemma written_cons (l : pystr) (ls : list pystr) (env : dict) :
  written (l :: ls) env =
    match parsed l with
    | Some (key, _) =>
        match dict_get key env with
        | Some v => entry (key, v) :: written ls (dict_pop key env)
        | None => l :: written ls env
        end
    | None => l :: written ls env
    end.
Proof.
  unfold written, parsed. cbn [rewrite_lines].
  destruct (assignment l) as [[k0 v0] |]; [| reflexivity]. cbv zeta.
  by destruct (dict_get (strip k0) env).
Qed.

Lemma speaks_for_entry_other (k k' v' : pystr) :
  key_wf k' -> k' <> k -> speaks_for k (entry (k', v')) = None.
Proof.
  intros Hk Hne. unfold speaks_for.
  destruct (parsed (entry (k', v'))) as [[k'' w] |] eqn:E; [| done].
  apply parsed_entry_other in E; [| done]. subst. by rewrite decide_False.
Qed.

Lemma last_of_entries_absent (k : pystr) (d : dict) :
  wf_env d -> dict_get k d = None -> last_of k (map entry d) = None.
Proof.
  intros [_ Hall] Hk. apply dict_get_None in Hk.
  induction d as [| [k' v'] d IH]; [done |].
  apply Forall_cons in Hall as [[Hwf _] Hall].
  cbn [fmap list_fmap fst] in Hk. apply not_elem_of_cons in Hk as [Hne Hk].
  cbn [map last_of]. rewrite IH by done. by apply speaks_for_entry_other.
Qed.

Lemma last_of_entries_present (k v : pystr) (d : dict) :
  wf_env d -> dict_get k d = Some v ->
  startswith (py "#") k = false ->
  last_of k (map entry d) = Some (as_read v).
Proof.
  intros Hwf Hk Hh. induction d as [| [k' v'] d IH]; [done |].
  destruct Hwf as [Hnd Hall].
  apply NoDup_cons in Hnd as [Hnew Hnd]. apply Forall_cons in Hall as [[Hk' _] Hall].
  cbn [map last_of]. unfold dict_get in Hk. cbn [find fst] in Hk.
  destruct (decide (k' = k)) as [-> | Hne].
  - rewrite bool_decide_eq_true_2 in Hk by done. injection Hk as ->.
    rewrite last_of_entries_absent; [| done | by apply dict_get_None].
    unfold speaks_for. rewrite parsed_entry, Hh by done. by rewrite decide_True.
  - rewrite bool_decide_eq_false_2 in Hk by done. by rewrite IH.
Qed.

(** A key that the dictionary lacks: what the file says of it stays. *)
Lemma written_absent (k : pystr) (ls : list pystr) :
  forall env, wf_env env -> dict_get k env = None ->
    last_of k (written ls env) = last_of k ls.
Proof.
  induction ls as [| l ls IH]; intros env Hwf Hk.
  - unfold written. cbn. by apply last_of_entries_absent.
  - rewrite written_cons.
    destruct (parsed l) as [[key w] |] eqn:Ep;
      [| cbn [last_of]; by rewrite IH].
    destruct (dict_get key env) as [v |] eqn:Eg;
      [| cbn [last_of]; by rewrite IH].
    assert (Hne : key <> k) by congruence.
    cbn [last_of]. rewrite IH;
      [| by apply wf_env_pop | rewrite dict_get_pop, Hk; by destruct (decide _)].
    destruct (last_of k ls); [reflexivity |].
    rewrite speaks_for_entry_other; [| | done].
    + unfold speaks_for. rewrite Ep. by rewrite decide_False.
    + destruct Hwf as [_ Hall]. rewrite Forall_forall in Hall.
      by apply (Hall (key, v)), dict_get_Some.
Qed.

(** A key of the dictionary with at most one line in the file: what is
    read afterwards is the value of the dictionary, as it is read. *)
Lemma written_present (k v : pystr) (ls : list pystr) :
  forall env, wf_env env -> dict_get k env = Some v ->
    startswith (py "#") k = false ->
    key_count k ls <= 1 ->
    last_of k (written ls env) = Some (as_read v).
Proof.
  induction ls as [| l ls IH]; intros env Hwf Hk Hh Hc.
  - unfold written. cbn. by apply last_of_entries_present.
  - rewrite key_count_cons in Hc. rewrite written_cons.
    assert (Hc' : key_count k ls <= 1) by lia.
    destruct (parsed l) as [[key w] |] eqn:Ep;
      [| cbn [last_of]; by rewrite IH].
    destruct (dict_get key env) as [v' |] eqn:Eg;
      [| cbn [last_of]; by rewrite IH].
    cbn [last_of]. destruct (decide (key = k)) as [-> | Hne].
    + assert (v' = v) as -> by congruence.
      assert (H0 : key_count k ls = 0).
      { unfold speaks_for in Hc. rewrite Ep, decide_True in Hc by done. lia. }
      rewrite written_absent;
        [| by apply wf_env_pop | rewrite dict_get_pop; by rewrite decide_True].
      rewrite last_of_silent by done.
      unfold speaks_for. destruct Hwf as [_ Hall]. rewrite Forall_forall in Hall.
      rewrite parsed_entry, Hh; [by rewrite decide_True |].
      by apply (Hall (k, v)), dict_get_Some.
    + rewrite IH; [done | by apply wf_env_pop | | done | done].
      rewrite dict_get_pop. by rewrite decide_False.
Qed.

(** A key with two lines or more in the file: what is read afterwards is
    what the file said before, whatever the dictionary holds. *)
Lemma written_twice (k : pystr) (ls : list pystr) :
  forall env, wf_env env -> 2 <= key_count k ls ->
    last_of k (written ls env) = last_of k ls.
Proof.
  induction ls as [| l ls IH]; intros env Hwf Hc; [cbn in Hc; lia |].
  rewrite key_count_cons in Hc. rewrite written_cons.
  destruct (parsed l) as [[key w] |] eqn:Ep.
  2: { cbn [last_of]. unfold speaks_for in Hc |- *. rewrite Ep in Hc |- *.
       rewrite IH by (done || lia). reflexivity. }
  destruct (decide (key = k)) as [-> | Hne].
  - assert (Hc' : 0 < key_count k ls).
    { unfold speaks_for in Hc. rewrite Ep, decide_True in Hc by done. lia. }
    destruct (last_of_spoken k ls Hc') as [w' Hw'].
    destruct (dict_get k env) as [v |] eqn:Eg.
    + cbn [last_of]. rewrite written_absent;
        [| by apply wf_env_pop | rewrite dict_get_pop; by rewrite decide_True].
      by rewrite Hw'.
    + cbn [last_of]. rewrite written_absent by done. by rewrite Hw'.
  - assert (Hc' : 2 <= key_count k ls).
    { unfold speaks_for in Hc. rewrite Ep, decide_False in Hc by done. lia. }
    assert (Hs : speaks_for k l = None).
    { unfold speaks_for. rewrite Ep. by rewrite decide_False. }
    destruct (dict_get key env) as [v |] eqn:Eg.
    + cbn [last_of]. rewrite IH by (done || by apply wf_env_pop). rewrite Hs.
      rewrite speaks_for_entry_other; [done | | done].
      destruct Hwf as [_ Hall]. rewrite Forall_forall in Hall.
      by apply (Hall (key, v)), dict_get_Some.
    + cbn [last_of]. by rewrite IH.
Qed.

(** *** What is written is read line by line *)

Lemma no_breaks_Forall (s : pystr) :
  no_breaks s = true <-> Forall (fun c => c <> 0x0A%N /\ c <> 0x0D%N) s.
Proof.
  unfold no_breaks. rewrite forallb_forall, Forall_forall.
  split; intros H c Hc.
  - apply list_elem_of_In in Hc. specialize (H c Hc).
    apply andb_true_iff in H as [H1 H2].
    apply negb_true_iff in H1, H2. apply N.eqb_neq in H1, H2. by split.
  - apply list_elem_of_In in Hc. destruct (H c Hc) as [H1 H2].
    apply andb_true_iff. split; apply negb_true_iff; by apply N.eqb_neq.
Qed.

Lemma entry_whole (k v : pystr) :
  no_breaks k = true -> no_breaks v = true ->
  whole_line (entry (k, v)) /\ Forall (fun c => c <> 0x0D%N) (entry (k, v)).
Proof.
  rewrite !no_breaks_Forall. intros Hk Hv. unfold entry. cbn [fst snd].
  change (py "=") with [0x3D%N]. split.
  - exists (k ++ [0x3D%N] ++ v). split; [by rewrite <- !(assoc_L (++)) |].
    apply Forall_app. split; [| apply Forall_app; split].
    + eapply Forall_impl; [exact Hk |]. by intros c [].
    + by repeat constructor.
    + eapply Forall_impl; [exact Hv |]. by intros c [].
  - apply Forall_app. split; [| apply Forall_app; split; [| apply Forall_app; split]].
    + eapply Forall_impl; [exact Hk |]. by intros c [].
    + by repeat constructor.
    + eapply Forall_impl; [exact Hv |]. by intros c [].
    + by repeat constructor.
Qed.

Lemma written_elems (ls : list pystr) :
  forall env x, x ∈ written ls env -> x ∈ ls \/ exists kv, kv ∈ env /\ x = entry kv.
Proof.
  induction ls as [| l ls IH]; intros env x Hx.
  - unfold written in Hx. cbn in Hx. right.
    apply list_elem_of_fmap in Hx as (kv & -> & Hkv). by exists kv.
  - rewrite written_cons in Hx.
    assert (Hkeep : x ∈ l :: written ls env ->
              x ∈ l :: ls \/ exists kv, kv ∈ env /\ x = entry kv).
    { intros H. apply elem_of_cons in H as [-> | H]; [left; by left |].
      destruct (IH env x H) as [H' | H']; [left; by right | by right]. }
    destruct (parsed l) as [[key w] |]; [| by apply Hkeep].
    destruct (dict_get key env) as [v |] eqn:Eg; [| by apply Hkeep].
    apply elem_of_cons in Hx as [-> | Hx].
    + right. exists (key, v). split; [by apply dict_get_Some | done].
    + destruct (IH _ x Hx) as [H' | (kv & Hkv & ->)]; [left; by right |].
      right. exists kv. split; [by apply (dict_pop_subseteq key) | done].
Qed.

Lemma file_lines_no_cr (file : option pystr) :
  Forall (Forall (fun c => c <> 0x0D%N)) (file_lines file).
Proof.
  destruct file as [content |]; [| constructor].
  apply lines_chars, translate_no_cr.
Qed.

Lemma file_lines_whole (file : option pystr) :
  terminated file = true -> Forall whole_line (file_lines file).
Proof. destruct file as [content |]; [apply lines_whole | constructor]. Qed.

Lemma write_env_file_written (file : option pystr) (env : dict) :
  write_env_file file env = concat (written (file_lines file) env).
Proof. reflexivity. Qed.

(** Reading the file that was written goes through the written lines. *)
Lemma read_written (file : option pystr) (env : dict) :
  terminated file = true -> wf_env env ->
  read_env_file (Some (write_env_file file env)) =
    fold_left read_line (written (file_lines file) env) [].
Proof.
  intros Ht [_ Hall]. rewrite write_env_file_written. unfold read_env_file.
  assert (H : Forall (fun x => whole_line x /\ Forall (fun c => c <> 0x0D%N) x)
                (written (file_lines file) env)).
  { apply Forall_forall. intros x Hx.
    destruct (written_elems _ _ _ Hx) as [Hin | ([k v] & Hkv & ->)].
    - pose proof (file_lines_whole file Ht) as Hw.
      pose proof (file_lines_no_cr file) as Hc.
      rewrite Forall_forall in Hw, Hc. split; [by apply Hw | by apply Hc].
    - rewrite Forall_forall in Hall. destruct (Hall _ Hkv) as [(_ & _ & _ & Hk) Hv].
      by apply entry_whole. }
  rewrite translate_id.
  - rewrite lines_concat; [done |]. eapply Forall_impl; [exact H |]. by intros x [].
  - apply Forall_concat. eapply Forall_impl; [exact H |]. by intros x [].
Qed.

Lemma read_written_get (k : pystr) (file : option pystr) (env : dict) :
  terminated file = true -> wf_env env ->
  dict_get k (read_env_file (Some (write_env_file file env))) =
    last_of k (written (file_lines file) env).
Proof.
  intros Ht Hwf. rewrite read_written, fold_read_lookup by done.
  by destruct (last_of k _).
Qed.

Lemma read_get (k : pystr) (file : option pystr) :
  dict_get k (read_env_file file) = last_of k (file_lines file).
Proof.
  destruct file as [content |]; [| done]. unfold read_env_file, file_lines.
  rewrite fold_read_lookup. by destruct (last_of k _).
Qed.

(** *** What is read is well formed *)

Lemma Forall_lstrip (P : N -> Prop) (s : pystr) : Forall P s -> Forall P (lstrip s).
Proof.
  induction 1 as [| c s Hc Hs IH]; [constructor |]. cbn [lstrip].
  destruct (isspace c); [exact IH | by constructor].
Qed.

Lemma Forall_rstrip (P : N -> Prop) (s : pystr) : Forall P s -> Forall P (rstrip s).
Proof.
  induction 1 as [| c s Hc Hs IH]; [constructor |]. cbn [rstrip].
  destruct (rstrip s) as [| a r]; [destruct (isspace c); by repeat constructor |].
  by constructor.
Qed.

Lemma Forall_strip (P : N -> Prop) (s : pystr) : Forall P s -> Forall P (strip s).
Proof. intros H. by apply Forall_rstrip, Forall_lstrip. Qed.

Lemma Forall_strip_char (P : N -> Prop) (ch : N) (s : pystr) :
  Forall P s -> Forall P (strip_char ch s).
Proof.
  intros H. unfold strip_char.
  assert (Hl : Forall P (lstrip_char ch s)).
  { induction H as [| c s Hc Hs IH]; [constructor |]. cbn [lstrip_char].
    destruct (c =? ch)%N; [exact IH | by constructor]. }
  induction Hl as [| c r Hc Hr IH]; [constructor |]. cbn [rstrip_char].
  destruct (rstrip_char ch r) as [| a r']; [destruct (c =? ch)%N; by repeat constructor |].
  by constructor.
Qed.

Lemma split_eq_parts (P : N -> Prop) (s k v : pystr) :
  split_eq s = Some (k, v) -> Forall P s ->
  Forall P k /\ Forall P v /\ split_eq k = None.
Proof.
  revert k. induction s as [| c s IH]; intros k; [done |]. cbn [split_eq].
  intros E H. apply Forall_cons in H as [Hc Hs].
  destruct (c =? 0x3D)%N eqn:Ec.
  - injection E as <- <-. by repeat split.
  - destruct (split_eq s) as [[k' v'] |]; [| done]. injection E as <- <-.
    destruct (IH k' eq_refl Hs) as (Hk & Hv & Hn).
    split; [by constructor |]. split; [done |]. cbn [split_eq]. by rewrite Ec, Hn.
Qed.

Lemma split_eq_None_lstrip (k : pystr) : split_eq k = None -> split_eq (lstrip k) = None.
Proof.
  induction k as [| c k IH]; [done |]. cbn [lstrip].
  destruct (isspace c); [| done]. cbn [split_eq].
  destruct (c =? 0x3D)%N; [done |]. destruct (split_eq k) as [[] |]; [done |].
  intros _. by apply IH.
Qed.

Lemma split_eq_None_rstrip (k : pystr) : split_eq k = None -> split_eq (rstrip k) = None.
Proof.
  induction k as [| c k IH]; [done |]. cbn [split_eq rstrip].
  destruct (c =? 0x3D)%N eqn:Ec; [done |].
  destruct (split_eq k) as [[] |] eqn:Ek; [done |]. intros _.
  specialize (IH eq_refl). destruct (rstrip k) as [| a r].
  - destruct (isspace c); [done |]. cbn [split_eq]. by rewrite Ec.
  - cbn [split_eq] in IH |- *. rewrite Ec. by rewrite IH.
Qed.

Lemma strip_stable (s : pystr) : lstrip (strip s) = strip s /\ rstrip (strip s) = strip s.
Proof.
  unfold strip. split; [| apply rstrip_idem].
  rewrite lstrip_rstrip. f_equal.
  induction s as [| c s IH]; [done |]. cbn [lstrip].
  destruct (isspace c) eqn:Hc; [exact IH |]. cbn [lstrip]. by rewrite Hc.
Qed.

Lemma strip_line (body : pystr) : strip (body ++ [0x0A%N]) = strip body.
Proof.
  unfold strip. rewrite lstrip_snoc. change (isspace 0x0A%N) with true. cbv iota.
  destruct (lstrip body) as [| a r]; [done |]. by rewrite rstrip_snoc.
Qed.

(** A line of the file, as read: no line break but at its end. *)
Definition file_line (l : pystr) : Prop :=
  exists body, (l = body \/ l = body ++ [0x0A%N]) /\
               Forall (fun c => c <> 0x0A%N /\ c <> 0x0D%N) body.

Lemma file_lines_shape (file : option pystr) : Forall file_line (file_lines file).
Proof.
  destruct file as [content |]; [| constructor]. unfold file_lines.
  pose proof (lines_break_last (translate content)) as H1.
  pose proof (lines_chars _ _ (translate_no_cr content)) as H2.
  rewrite Forall_forall in H1, H2 |- *. intros l Hl.
  destruct (H1 l Hl) as (body & Hb & Hn). specialize (H2 l Hl).
  exists body. split; [exact Hb |].
  assert (Hc : Forall (fun c => c <> 0x0D%N) body).
  { destruct Hb as [-> | ->]; [done |]. by apply Forall_app in H2 as [H2 _]. }
  rewrite Forall_forall in Hn, Hc |- *. intros c Hin. split; [by apply Hn | by apply Hc].
Qed.

Lemma parsed_wf (l k v : pystr) :
  file_line l -> parsed l = Some (k, v) -> key_wf k /\ no_breaks v = true.
Proof.
  intros (body & Hb & Hn). unfold parsed, assignment.
  assert (Es : strip l = strip body) by (destruct Hb as [-> | ->]; [done | apply strip_line]).
  rewrite Es. pose proof (Forall_strip _ _ Hn) as Hs.
  destruct (strip body) as [| c s] eqn:E; [done |].
  destruct (startswith (py "#") (c :: s)); [done |].
  destruct (split_eq (c :: s)) as [[k0 v0] |] eqn:Esp; [| done].
  intros [= <- <-].
  destruct (split_eq_parts _ _ _ _ Esp Hs) as (Hk & Hv & Hnone).
  destruct (strip_stable k0) as [H1 H2].
  split; [split; [done | split; [done | split]] |].
  - unfold strip. by apply split_eq_None_rstrip, split_eq_None_lstrip.
  - by apply no_breaks_Forall, Forall_strip.
  - unfold as_read. by apply no_breaks_Forall, Forall_strip_char, Forall_strip_char, Forall_strip.
Qed.

Lemma read_wf (file : option pystr) : wf_env (read_env_file file).
Proof.
  destruct file as [content |]; [| apply wf_env_nil]. unfold read_env_file.
  pose proof (file_lines_shape (Some content)) as H. unfold file_lines in H.
  generalize wf_env_nil. generalize ([] : dict).
  induction H as [| l ls Hl Hls IH]; intros d Hd; [done |].
  cbn [fold_left]. apply IH. rewrite read_line_parsed.
  destruct (parsed l) as [[k v] |] eqn:E; [| done].
  destruct (parsed_wf l k v Hl E). by apply wf_env_set.
Qed.

(** *** The updates *)

Lemma known_wf : Forall (fun k => key_wf k /\ startswith (py "#") k = false) known.
Proof.
  unfold known.
  repeat (apply Forall_cons; split;
          [split; [split; [| split; [| split]] |]; vm_compute; reflexivity |]).
  constructor.
Qed.

Section WithBuiltins.
Context {B : Builtins}.

(** The values of the known keys of the body fit on a line. *)
Definition fit (updates : list (pystr * pyval)) : Prop :=
  Forall (fun kv => kv.1 ∈ known -> no_breaks (py_str kv.2) = true) updates.

Lemma apply_updates_wf (updates : list (pystr * pyval)) :
  fit updates -> forall env, wf_env env -> wf_env (apply_updates updates env).
Proof.
  unfold apply_updates. induction 1 as [| [k value] updates Hkv Hrest IH];
    intros env Hwf; [done |].
  cbn [fold_left fst snd]. apply IH.
  destruct (decide (k ∈ known)) as [Hin | Hout].
  - rewrite bool_decide_eq_true_2 by done. apply wf_env_set; [done | | by apply Hkv].
    pose proof known_wf as Hk. rewrite Forall_forall in Hk. by apply Hk.
  - by rewrite bool_decide_eq_false_2.
Qed.

Lemma apply_updates_other (k : pystr) (updates : list (pystr * pyval)) :
  k ∉ updates.*1 ->
  forall env, dict_get k (apply_updates updates env) = dict_get k env.
Proof.
  unfold apply_updates. induction updates as [| [k' value] updates IH];
    intros Hk env; [done |].
  cbn [fmap list_fmap fst] in Hk. apply not_elem_of_cons in Hk as [Hne Hk].
  cbn [fold_left fst snd]. rewrite IH by done.
  destruct (bool_decide (k' ∈ known)); [| done].
  rewrite dict_get_set. by rewrite decide_False.
Qed.

Lemma apply_updates_get (k : pystr) (value : pyval) (updates : list (pystr * pyval)) :
  NoDup updates.*1 -> (k, value) ∈ updates -> k ∈ known ->
  forall env, dict_get k (apply_updates updates env) = Some (py_str value).
Proof.
  intros Hnd Hin Hk. induction updates as [| [k' value'] updates IH]; intros env.
  - by apply elem_of_nil in Hin.
  - cbn [fmap list_fmap fst] in Hnd. apply NoDup_cons in Hnd as [Hnew Hnd].
    apply elem_of_cons in Hin as [[= <- <-] | Hin].
    + change (apply_updates ((k, value) :: updates) env)
        with (apply_updates updates
                (if bool_decide (k ∈ known) then dict_set k (py_str value) env else env)).
      rewrite apply_updates_other by done.
      rewrite bool_decide_eq_true_2 by done. rewrite dict_get_set.
      by rewrite decide_True.
    + by apply IH.
Qed.

Lemma apply_updates_keeps (k : pystr) (updates : list (pystr * pyval)) :
  forall env, is_Some (dict_get k env) -> is_Some (dict_get k (apply_updates updates env)).
Proof.
  unfold apply_updates. induction updates as [| [k' value] updates IH];
    intros env Hk; [done |].
  cbn [fold_left fst snd]. apply IH.
  destruct (bool_decide (k' ∈ known)); [| done].
  rewrite dict_get_set. by destruct (decide (k' = k)).
Qed.

End WithBuiltins.

(** X24: what a save writes is what the next start reads, for a key
    that the file names at most once. When the file is absent, empty or
    ends with a line break and the new values have no line break, saving
    a non-empty body answers 200 and, for every key [k] that the saved
    dictionary holds with value [v] (the [str] of the new value for a known
    key of the body, the value read from the file for any other key), such
    that [k] does not start with [#] and the file has at most one line for
    [k], [read_env_file] then gives [v] with white space, then double
    quotes, then single quotes stripped from its ends; so [v] itself when
    it has none of them at either end. *)
Theorem api_config_save_read_back
  (B : Builtins) (file : option pystr) (updates : list (pystr * pyval))
  (k v : pystr) :
  terminated file = true -> updates <> [] -> fit updates ->
  let saved := apply_updates updates (read_env_file file) in
  (forall value, NoDup updates.*1 -> (k, value) ∈ updates -> k ∈ known ->
     dict_get k saved = Some (py_str value)) /\
  (dict_get k saved = Some v ->
   startswith (py "#") k = false ->
   key_count k (file_lines file) <= 1 ->
   exists content,
     api_config_save updates file = (200%Z, Some content) /\
     dict_get k (read_env_file (Some content)) = Some (as_read v) /\
     (bare v = true -> dict_get k (read_env_file (Some content)) = Some v)).
Proof.
  intros Ht Hne Hfit saved. split.
  - intros value Hnd Hin Hk. by apply apply_updates_get.
  - intros Hk Hh Hc.
    assert (Hwf : wf_env saved) by (apply apply_updates_wf; [done | apply read_wf]).
    exists (write_env_file file saved).
    split; [by destruct updates |].
    assert (E : dict_get k (read_env_file (Some (write_env_file file saved))) =
                Some (as_read v)).
    { rewrite read_written_get by done. by apply written_present. }
    split; [exact E |]. intros Hv. by rewrite E, as_read_bare.
Qed.

(** X25: a key that the file names twice cannot be changed by a save.
    [write_env_file] rewrites the first line of the key and keeps the
    later ones, and [read_env_file] lets the last line win: when the file
    has two lines or more for [k], then after any save the value read for
    [k] is the one that was read before. *)
Theorem api_config_save_duplicate_key
  (B : Builtins) (file : option pystr) (updates : list (pystr * pyval)) (k : pystr) :
  terminated file = true -> updates <> [] -> fit updates ->
  2 <= key_count k (file_lines file) ->
  exists content,
    api_config_save updates file = (200%Z, Some content) /\
    is_Some (dict_get k (read_env_file file)) /\
    dict_get k (read_env_file (Some content)) = dict_get k (read_env_file file).
Proof.
  intros Ht Hne Hfit Hc.
  set (saved := apply_updates updates (read_env_file file)).
  assert (Hwf : wf_env saved) by (apply apply_updates_wf; [done | apply read_wf]).
  exists (write_env_file file saved).
  split; [by destruct updates |]. split.
  - rewrite read_get. apply last_of_spoken. lia.
  - rewrite read_written_get, read_get by done. by apply written_twice.
Qed.

Definition dotenv : pystr :=
  py "# overlay settings" ++ [0x0A%N] ++ py "OBS_HOST = 'localhost'" ++ [0x0A%N] ++
  py "OBS_PORT=4455" ++ [0x0A%N].

Definition dotenv_twice : pystr :=
  dotenv ++ py "OBS_PORT=4456" ++ [0x0A%N].

Definition port_change : list (pystr * pyval) :=
  [(py "OBS_PORT", VInt 4460); (py "TWITCH_CHANNEL", VStr (py "lalo"))].

Lemma port_change_fit : fit (B := ascii_builtins) port_change.
Proof. repeat constructor; intros _; vm_compute; reflexivity. Qed.

Lemma api_config_save_read_back_witness :
  exists content,
    api_config_save (B := ascii_builtins) port_change (Some dotenv) =
      (200%Z, Some content) /\
    dict_get (py "OBS_PORT") (read_env_file (Some content)) = Some (py "4460") /\
    content = py "# overlay settings" ++ [0x0A%N] ++ py "OBS_HOST=localhost" ++ [0x0A%N] ++
              py "OBS_PORT=4460" ++ [0x0A%N] ++ py "TWITCH_CHANNEL=lalo" ++ [0x0A%N].
Proof.
  destruct (proj2 (api_config_save_read_back ascii_builtins (Some dotenv) port_change
                     (py "OBS_PORT") (py "4460") eq_refl ltac:(discriminate)
                     port_change_fit))
    as (content & E & _ & Hb).
  - vm_compute. reflexivity.
  - reflexivity.
  - vm_compute. lia.
  - exists content. split; [exact E |]. split; [apply Hb; reflexivity |].
    vm_compute in E. by injection E as <-.
Defined.

Lemma api_config_save_duplicate_key_witness :
  exists content,
    api_config_save (B := ascii_builtins) port_change (Some dotenv_twice) =
      (200%Z, Some content) /\
    dict_get (py "OBS_PORT") (read_env_file (Some content)) = Some (py "4456").
Proof.
  destruct (api_config_save_duplicate_key ascii_builtins (Some dotenv_twice) port_change
              (py "OBS_PORT") eq_refl ltac:(discriminate) port_change_fit)
    as (content & E & _ & Hb).
  - vm_compute. lia.
  - exists content. split; [exact E |]. rewrite Hb. vm_compute. reflexivity.
Defined.

End EnvFileSpec.

(** ** The goal routes ([api_goals_update], [api_goals_increment]) *)

Module GoalsHttp.
Import Goals GoalsSpec GoalsRoutes.

(** What the routes answer: status 400, status 404, or status 200 with a
    goal or with the list of goals. *)
Inductive response :=
| Id_required
| Not_found
| Ok_goal (g : goal)
| Ok_goals (gs : list goal).

Section WithBuiltins.
Context {B : Builtins}.

(** [str(data.get("id", "")).strip()] *)
Definition goal_id_of (data : gmap (list N) pyval) : pystr :=
  strip (py_str (default (VStr []) (data !! py "id"))).

(** [api_goals_update()] for a body that is a dict or is falsy; [data] is
    the dict [request.json or {}]. *)
Definition api_goals_update (data : gmap (list N) pyval) : M event state response :=
  match goal_id_of data with
  | [] => ret Id_required
  | goal_id =>
      result <- update_goal goal_id data ;;
      match result with
      | None => ret Not_found
      | Some g => ret (Ok_goal g)
      end
  end.

(** [api_goals_increment()]: the amount is converted before the id is
    looked at. *)
Definition api_goals_increment (data : gmap (list N) pyval) : M event state response :=
  amount <- lift (py_int (default (VInt 1) (data !! py "amount"))) ;;
  match goal_id_of data with
  | [] => ret Id_required
  | goal_id =>
      increment_goal goal_id amount ;;;
      snapshot <- get_goals ;;
      ret (Ok_goals snapshot)
  end.

End WithBuiltins.

(** The first goal with a given id. *)
Lemma first_with_id (goal_id : pystr) (gs : list goal) :
  Exists (fun g => id g = goal_id) gs ->
  exists i g, gs !! i = Some g /\ id g = goal_id /\
    forall j g', (j < i)%nat -> gs !! j = Some g' -> id g' <> goal_id.
Proof.
  induction gs as [| g0 gs IH]; intros Hex; [by apply Exists_nil in Hex |].
  destruct (decide (id g0 = goal_id)) as [E | Hne].
  - exists 0%nat, g0. split; [done |]. split; [done |]. intros j g' Hj. lia.
  - apply Exists_cons in Hex as [? | Hex]; [done |].
    destruct (IH Hex) as (i & g & Hi & Hid & Hfirst).
    exists (S i), g. split; [done |]. split; [done |].
    intros [| j] g' Hj Hg'; [by injection Hg' as <- |].
    apply (Hfirst j g'); [lia | done].
Qed.

Section WithBuiltins.
Context {B : Builtins}.

(** Where [update_goal] stops for the goal at index [i], the lock being
    held: at the [int] of [current] with nothing stored, at the [int] of
    [target] with the converted [current] stored, or in [get_goals]. *)
Lemma update_goal_found_ends (i : nat) (data : gmap pystr pyval) (st : state) :
  goals_lock st = true ->
  match update_goal_found i data st with
  | Returned _ _ _ => False
  | Raised e s out =>
      out = [] /\
      ((exists v, data !! py "current" = Some v /\ py_int v = Err e /\ s = st) \/
       (exists v, data !! py "target" = Some v /\ py_int v = Err e /\
          (data !! py "current" = None /\ s = st \/
           exists vc z, data !! py "current" = Some vc /\ py_int vc = Ok z /\
                        s = alter_goal i (set_current z) st)))
  | Blocked s out => out = [] /\ goals_lock s = true
  end.
Proof.
  intros Hl. unfold update_goal_found.
  destruct (data !! py "current") as [v1 |]; [destruct (py_int v1) as [z1 | e1] eqn:E1 |];
  (destruct (data !! py "target") as [v2 |]; [destruct (py_int v2) as [z2 | e2] eqn:E2 |]);
  destruct (data !! py "title") as [v3 |];
  destruct (data !! py "enabled") as [v4 |];
  unfold bind, lift, modify, raise, ret; simpl;
  try (rewrite get_goals_held by exact Hl; simpl; (split; [reflexivity | exact Hl]));
  (split; [reflexivity |]);
  first [ left; by exists v1
        | right; exists v2; split; [reflexivity |]; split; [assumption |];
          first [ left; by split | right; by exists v1, z1 ] ].
Qed.

Lemma update_goal_from_first (goal_id : pystr) (data : gmap pystr pyval)
  (gs : list goal) :
  forall (i0 i : nat) (g : goal),
    gs !! i = Some g -> id g = goal_id ->
    (forall j g', (j < i)%nat -> gs !! j = Some g' -> id g' <> goal_id) ->
    update_goal_from i0 gs goal_id data = update_goal_found (i0 + i) data.
Proof.
  induction gs as [| g0 gs IH]; intros i0 i g Hi Hid Hfirst; [done |].
  cbn [update_goal_from]. destruct i as [| i].
  - injection Hi as ->. rewrite decide_True by exact Hid. by rewrite Nat.add_0_r.
  - rewrite decide_False by (apply (Hfirst 0%nat g0); [lia | done]).
    rewrite (IH (S i0) i g Hi Hid); [f_equal; lia |].
    intros j g' Hj Hg'. apply (Hfirst (S j) g'); [lia | done].
Qed.

End WithBuiltins.

(** X26: a goal route returns an answer (status 200, 400 or 404) only when
    no goal has changed. With [goals_lock] free, [api_goals_update] returns
    only 400 (no id) or 404 (unknown id), with the state as it was and
    nothing sent; [api_goals_increment] returns only 400, or 200 for an id
    that no goal has, with the goals as they were (and, for the 200, one
    [goals_update] that carries them). For an id that a goal has, neither
    route returns: the call ends blocked on the lock it holds, or in an
    exception of a failed [int], with nothing sent in either case. An
    exception is not harmless in [api_goals_update]: the lock is released,
    and when it is [target] that fails to convert, a [current] that did
    convert has by then been stored in the first goal with the id, so the
    route fails with a goal changed; when it is [current] that fails, and in
    [api_goals_increment], the state is as it was. *)
Theorem goal_routes_answer_only_unchanged
  (B : Builtins) (data : gmap (list N) pyval) (st : state) :
  goals_lock st = false ->
  match api_goals_update data st with
  | Returned r st' out =>
      st' = st /\ out = [] /\
      (r = Id_required /\ goal_id_of data = [] \/
       r = Not_found /\ Forall (fun g => id g <> goal_id_of data) (stream_goals st))
  | Raised e st' out =>
      out = [] /\ goals_lock st' = false /\
      exists i g,
        stream_goals st !! i = Some g /\ id g = goal_id_of data /\
        (forall j g', (j < i)%nat -> stream_goals st !! j = Some g' ->
                      id g' <> goal_id_of data) /\
        ((exists v, data !! py "current" = Some v /\ py_int v = Err e /\ st' = st) \/
         (exists v, data !! py "target" = Some v /\ py_int v = Err e /\
            (data !! py "current" = None /\ st' = st \/
             exists vc z, data !! py "current" = Some vc /\ py_int vc = Ok z /\
                          st' = alter_goal i (set_current z) st)))
  | Blocked st' out =>
      out = [] /\ goals_lock st' = true /\
      Exists (fun g => id g = goal_id_of data) (stream_goals st)
  end /\
  match api_goals_increment data st with
  | Returned r st' out =>
      st' = st /\
      (r = Id_required /\ goal_id_of data = [] /\ out = [] \/
       r = Ok_goals (stream_goals st) /\
       Forall (fun g => id g <> goal_id_of data) (stream_goals st) /\
       out = [goals_update (stream_goals st)])
  | Raised _ st' out => st' = st /\ out = []
  | Blocked st' out => out = [] /\ goals_lock st' = true
  end /\
  (forall i g vc z vt e,
     goal_id_of data <> [] ->
     stream_goals st !! i = Some g -> id g = goal_id_of data ->
     (forall j g', (j < i)%nat -> stream_goals st !! j = Some g' ->
                   id g' <> goal_id_of data) ->
     data !! py "current" = Some vc -> py_int vc = Ok z ->
     data !! py "target" = Some vt -> py_int vt = Err e ->
     api_goals_update data st =
       Raised e (alter_goal i (set_current z) st) []).
Proof.
  intros Hl.
  assert (Hknown : forall i g,
    goal_id_of data <> [] ->
    stream_goals st !! i = Some g -> id g = goal_id_of data ->
    (forall j g', (j < i)%nat -> stream_goals st !! j = Some g' ->
                  id g' <> goal_id_of data) ->
    api_goals_update data st =
      match update_goal_found i data
              {| goals_lock := true; stream_goals := stream_goals st |} with
      | Returned a s out =>
          match a with
          | None => Returned Not_found (set_held the_lock false s) out
          | Some g => Returned (Ok_goal g) (set_held the_lock false s) out
          end
      | Raised e s out => Raised e (set_held the_lock false s) out
      | Blocked s out => Blocked s out
      end).
  { intros i g Hne Hi Hid Hfirst. unfold api_goals_update.
    revert Hne Hid Hfirst. destruct (goal_id_of data) as [| c s]; [done |].
    intros _ Hid Hfirst.
    unfold bind at 1. unfold update_goal, with_lock, acquire.
    cbn [held the_lock]. rewrite Hl. cbn [set_held the_lock].
    unfold bind at 1. unfold get. cbn [stream_goals].
    rewrite (update_goal_from_first (c :: s) data (stream_goals st) 0 i g Hi Hid Hfirst).
    cbn [Nat.add app].
    destruct (update_goal_found i data _) as [a s' o | e s' o | s' o];
      [| reflexivity | reflexivity].
    destruct a; cbn [ret]; by rewrite app_nil_r. }
  split; [| split].
  - destruct (decide (goal_id_of data = [])) as [Eid | Hne].
    { unfold api_goals_update. rewrite Eid. split; [done |]. split; [done |]. by left. }
    destruct (decide (Exists (fun g => id g = goal_id_of data) (stream_goals st)))
      as [Hex | Hno].
    + destruct (first_with_id _ _ Hex) as (i & g & Hi & Hid & Hfirst).
      rewrite (Hknown i g Hne Hi Hid Hfirst).
      pose proof (update_goal_found_ends i data
                    {| goals_lock := true; stream_goals := stream_goals st |} eq_refl) as H.
      destruct (update_goal_found i data _) as [a s' o | e s' o | s' o]; [done | |].
      * destruct H as [-> H]. split; [reflexivity |].
        assert (Hback : set_held the_lock false
                          {| goals_lock := true; stream_goals := stream_goals st |} = st)
          by (destruct st as [l gs]; cbn in Hl; by subst l).
        assert (Hback' : forall z,
                  set_held the_lock false
                    (alter_goal i (set_current z)
                       {| goals_lock := true; stream_goals := stream_goals st |}) =
                  alter_goal i (set_current z) st)
          by (intros z; destruct st as [l gs]; cbn in Hl; by subst l).
        split; [reflexivity |].
        exists i, g. split; [exact Hi |]. split; [exact Hid |]. split; [exact Hfirst |].
        destruct H as [(v & Ev & Ee & ->)
                      | (v & Ev & Ee & [[En ->] | (vc & z & Ec & Ez & ->)])].
        -- left. by exists v.
        -- right. exists v. split; [done |]. split; [done |]. by left.
        -- right. exists v. split; [done |]. split; [done |]. right. by exists vc, z.
      * destruct H as [-> H]. by split.
    + apply not_Exists_Forall in Hno; [| intros g; apply _].
      unfold api_goals_update.
      destruct (goal_id_of data) as [| c s] eqn:Eid; [done |].
      unfold bind. rewrite update_goal_unknown by done. cbn.
      split; [done |]. split; [done |]. right. by split.
  - unfold api_goals_increment, bind at 1, lift.
    destruct (py_int (default (VInt 1) (data !! py "amount"))) as [amount | e];
      [| by cbn].
    cbn [ret]. cbn [app].
    destruct (goal_id_of data) as [| c s] eqn:Eid; [cbn; split; [done |]; by left |].
    destruct (decide (Exists (fun g => id g = c :: s) (stream_goals st))) as [Hex | Hno].
    + destruct (first_with_id _ _ Hex) as (i & g & Hi & Hid & Hfirst).
      unfold bind.
      rewrite (increment_goal_known_blocks_aux (c :: s) amount st i g Hl Hi Hid Hfirst).
      by split.
    + apply not_Exists_Forall in Hno; [| intros g; apply _].
      unfold bind. rewrite increment_goal_unknown by done.
      unfold get_goals, with_lock, acquire, bind, get, ret. cbn. rewrite Hl.
      destruct st as [l gs]. cbn in *. subst l.
      split; [done |]. right. by repeat split.
  - intros i g vc z vt e Hne Hi Hid Hfirst Ec Ez Et Ee.
    rewrite (Hknown i g Hne Hi Hid Hfirst).
    unfold update_goal_found. rewrite Ec, Et.
    unfold bind, lift. rewrite Ez, Ee. cbn.
    destruct st as [l gs]. cbn in Hl. by subst l.
Qed.

Lemma goal_routes_answer_only_unchanged_witness :
  let body := <[py "id" := VStr (py "subs")]>
                (<[py "current" := VInt 5]> (<[py "target" := VStr (py "x")]> ∅)) in
  goals_lock initial = false /\
  api_goals_update (B := ascii_builtins) body initial =
    Raised ValueError
      {| goals_lock := false;
         stream_goals :=
           [mk "followers" "Follower Goal" 0 50 true;
            mk "subs" "Sub Goal" 5 10 true;
            mk "donations" "Donation Goal" 0 100 false;
            mk "bits" "Bits Goal" 0 5000 false] |} [] /\
  returned (api_goals_increment (B := ascii_builtins)
              (<[py "id" := VStr (py "subs")]> (<[py "amount" := VInt 1]> ∅)) initial) = None /\
  returned (api_goals_increment (B := ascii_builtins)
              (<[py "id" := VStr (py "sub")]> (<[py "amount" := VInt 1]> ∅)) initial) =
    Some (Ok_goals (stream_goals initial)).
Proof.
  intros body. split; [reflexivity |]. split.
  { pose proof (goal_routes_answer_only_unchanged ascii_builtins body initial eq_refl)
      as (_ & _ & Hraise).
    rewrite (Hraise 1%nat (mk "subs" "Sub Goal" 0 10 true) (VInt 5) 5%Z
               (VStr (py "x")) ValueError).
    - vm_compute. reflexivity.
    - vm_compute. discriminate.
    - reflexivity.
    - vm_compute. reflexivity.
    - intros [| j] g' Hj Hg'; [| lia]. injection Hg' as <-. vm_compute. discriminate.
    - vm_compute. reflexivity.
    - reflexivity.
    - vm_compute. reflexivity.
    - vm_compute. reflexivity. }
  split; [vm_compute; reflexivity |].
  pose proof (goal_routes_answer_only_unchanged ascii_builtins
                (<[py "id" := VStr (py "sub")]> (<[py "amount" := VInt 1]> ∅))
                initial eq_refl) as (_ & H & _).
  destruct (api_goals_increment _ initial) as [r st' out | e st' out | st' out] eqn:E.
  - destruct H as (_ & [(_ & Hid & _) | (-> & _)]); [| reflexivity].
    vm_compute in Hid. discriminate Hid.
  - vm_compute in E. discriminate E.
  - vm_compute in E. discriminate E.
Defined.

End GoalsHttp.

(** ** The follower poll ([poll_loop]) and the goal it feeds *)

Module FollowerPoll.
Import Goals.

(** [a < b] on strings: by code points, the first difference decides. *)
Fixpoint str_lt (a b : pystr) : bool :=
  match a, b with
  | _, [] => false
  | [], _ :: _ => true
  | x :: a', y :: b' =>
      if (x <? y)%N then true else if (y <? x)%N then false else str_lt a' b'
  end.

(** An entry of the followers answer, read with
    [f.get("followed_at", "")] and [f.get("user_name", "Someone")]. *)
Record follower := { followed_at : pystr; user_name : pystr }.

(** [stream_stats["followers_this_stream"]] and the goal tracker. *)
Record state := {
  followers_this_stream : Z;
  tracker : Goals.state
}.

Inductive event :=
| alert_follow (username : pystr)
| stats_update (followers : Z)
| log_event_follow (username : pystr)
| tracker_event (e : Goals.event).

(** A call into the goal tracker. *)
Definition in_tracker {A} (m : M Goals.event Goals.state A) : M event state A :=
  fun st =>
    let back s := {| followers_this_stream := followers_this_stream st; tracker := s |} in
    match m (tracker st) with
    | Returned a s out => Returned a (back s) (map tracker_event out)
    | Raised e s out => Raised e (back s) (map tracker_event out)
    | Blocked s out => Blocked (back s) (map tracker_event out)
    end.

(** The body of [for f in followers:]. *)
Definition on_follower (last_follow_check : pystr) (f : follower) : M event state unit :=
  if str_lt last_follow_check (followed_at f) then
    modify (fun st => {| followers_this_stream := followers_this_stream st + 1;
                         tracker := tracker st |}) ;;;
    emit (alert_follow (user_name f)) ;;;
    st <- get ;;
    emit (stats_update (followers_this_stream st)) ;;;
    emit (log_event_follow (user_name f)) ;;;
    in_tracker (increment_goal (py "followers") 1)
  else ret tt.

Fixpoint on_followers (last_follow_check : pystr) (followers : list follower)
  : M event state unit :=
  match followers with
  | [] => ret tt
  | f :: rest =>
      on_follower last_follow_check f ;;; on_followers last_follow_check rest
  end.

(** X27: the first new follower stops the poll. When [goals_lock] is free
    and a goal has the id [followers], as the goals of the source have,
    the loop over the followers answer passes the entries that are not
    newer than the last check and, at the first newer one, counts it,
    sends its alert, the statistics and the log row, raises the progress
    of the goal, and then never returns from [increment_goal]: no
    [goals_update] is sent, the entries that follow are not looked at, and
    [goals_lock] stays held by the polling thread. *)
Theorem first_new_follower_blocks_poll
  (last_follow_check : pystr) (older : list follower) (f : follower)
  (rest : list follower) (st : state) (i : nat) (g : goal) :
  goals_lock (tracker st) = false ->
  stream_goals (tracker st) !! i = Some g ->
  id g = py "followers" ->
  (forall j g', (j < i)%nat -> stream_goals (tracker st) !! j = Some g' ->
     id g' <> py "followers") ->
  Forall (fun o => str_lt last_follow_check (followed_at o) = false) older ->
  str_lt last_follow_check (followed_at f) = true ->
  on_followers last_follow_check (older ++ f :: rest) st =
    Blocked
      {| followers_this_stream := followers_this_stream st + 1;
         tracker :=
           {| goals_lock := true;
              stream_goals :=
                <[i := set_current (current g + 1) g]> (stream_goals (tracker st)) |} |}
      [alert_follow (user_name f); stats_update (followers_this_stream st + 1);
       log_event_follow (user_name f)].
Proof.
  intros Hl Hi Hid Hfirst Hold Hnew.
  induction Hold as [| o older Ho Hold IH].
  - cbn [app on_followers]. unfold bind at 1. unfold on_follower. rewrite Hnew.
    unfold bind, modify, emit, get, in_tracker.
    cbn [tracker followers_this_stream app map].
    by rewrite (GoalsRoutes.increment_goal_known_blocks_aux
                  (py "followers") 1 (tracker st) i g Hl Hi Hid Hfirst).
  - cbn [app on_followers]. unfold bind at 1. unfold on_follower at 1. rewrite Ho.
    cbn [ret]. rewrite IH. reflexivity.
Qed.

Lemma first_new_follower_blocks_poll_witness :
  let st := {| followers_this_stream := 0; tracker := initial |} in
  match on_followers (py "2026-02-11T20:15:00.000000Z")
          [ {| followed_at := py "2026-02-11T20:14:58Z"; user_name := py "early" |};
            {| followed_at := py "2026-02-11T20:15:07Z"; user_name := py "first" |};
            {| followed_at := py "2026-02-11T20:15:09Z"; user_name := py "second" |} ] st with
  | Blocked st' out =>
      followers_this_stream st' = 1%Z /\
      current <$> stream_goals (tracker st') !! 0%nat = Some 1%Z /\
      out = [alert_follow (py "first"); stats_update 1; log_event_follow (py "first")]
  | _ => False
  end.
Proof.
  intros st.
  pose proof (first_new_follower_blocks_poll (py "2026-02-11T20:15:00.000000Z")
                [ {| followed_at := py "2026-02-11T20:14:58Z"; user_name := py "early" |} ]
                {| followed_at := py "2026-02-11T20:15:07Z"; user_name := py "first" |}
                [ {| followed_at := py "2026-02-11T20:15:09Z"; user_name := py "second" |} ]
                st 0 (mk "followers" "Follower Goal" 0 50 true)
                eq_refl eq_refl eq_refl
                ltac:(intros j g' Hj; lia)
                ltac:(by repeat constructor)
                eq_refl) as H.
  cbn [app] in H. rewrite H. by split.
Defined.

End FollowerPoll.

(** ** The configuration page ([api_config_get]) *)

Module ConfigView.
Import EnvFile.

(** [CONFIG_FIELDS]: the key of each field and whether it is marked
    [secret]. *)
Definition CONFIG_FIELDS : list (list N * bool) :=
  [(py "TWITCH_CLIENT_ID", true); (py "TWITCH_CLIENT_SECRET", true);
   (py "TWITCH_OAUTH_TOKEN", true); (py "TWITCH_CHANNEL", false);
   (py "TWITCH_BOT_NAME", false); (py "OBS_HOST", false); (py "OBS_PORT", false);
   (py "OBS_PASSWORD", true); (py "OVERLAYS_SERVER_HOST", false);
   (py "OVERLAYS_SERVER_PORT", false); (py "OVERLAYS_SECRET_KEY", true);
   (py "OVERLAYS_KEYBOARD_CAPTURE_ENABLED", false);
   (py "OBS_PROXY_VIA_FEBRUARY11", false); (py "FEBRUARY11_API_BASE_URL", false);
   (py "SUBTITLE_DEFAULT_FONT_SIZE", false); (py "SUBTITLE_DEFAULT_TEXT_COLOR", false);
   (py "SUBTITLE_DEFAULT_BG_COLOR", false); (py "SUBTITLE_DEFAULT_BG_OPACITY", false)].

(** The bullet U+2022 of the mask. *)
Definition bullet : N := 0x2022.

(** What the answer adds to a field. *)
Record shown := {
  s_key : pystr;
  s_secret : bool;
  s_value : pystr;
  s_display : pystr
}.

(** [val[:2] + bullet * (len(val) - 4) + val[-2:]], for more than four
    characters. *)
Definition mask (val : pystr) : pystr :=
  take 2 val ++ replicate (length val - 4) bullet ++ drop (length val - 2) val.

(** [api_config_get()]; [runtime key] is [str(get_config_value(key))]. *)
Definition api_config_get (file : option pystr) (runtime : pystr -> pystr)
  : list shown :=
  let env := read_env_file file in
  map (fun field : list N * bool =>
         let val :=
           match dict_get field.1 env with
           | Some (c :: s) => c :: s
           | _ => runtime field.1
           end in
         {| s_key := field.1; s_secret := field.2; s_value := val;
            s_display :=
              if field.2 && match val with [] => false | _ => true end &&
                 (4 <? length val)%nat
              then mask val else val |})
    CONFIG_FIELDS.

(** X28: what the configuration answer shows of a secret. The fields are
    those that a save accepts. Each carries in [value] the value in
    clear, secret or not: the one of the [.env] file when it has a
    non-empty one, else the running one. The [display] of a secret of more
    than four characters has the length of the value, its first two and
    its last two characters, and bullets in between; every other
    [display] is the value itself. *)
Theorem config_answer_shows_secrets
  (file : option pystr) (runtime : pystr -> pystr) :
  s_key <$> api_config_get file runtime = known /\
  forall f, f ∈ api_config_get file runtime ->
    s_value f =
      match dict_get (s_key f) (read_env_file file) with
      | Some (c :: s) => c :: s
      | _ => runtime (s_key f)
      end /\
    length (s_display f) = length (s_value f) /\
    take 2 (s_display f) = take 2 (s_value f) /\
    drop (length (s_value f) - 2) (s_display f) =
      drop (length (s_value f) - 2) (s_value f) /\
    (s_secret f = false \/ length (s_value f) <= 4 -> s_display f = s_value f) /\
    (s_secret f = true -> 4 < length (s_value f) ->
     forall i, 2 <= i < length (s_value f) - 2 -> s_display f !! i = Some bullet).
Proof.
  split; [reflexivity |].
  intros f Hf. unfold api_config_get in Hf. cbv zeta in Hf.
  apply list_elem_of_fmap in Hf as ([key secret] & -> & _).
  cbn [s_key s_secret s_value s_display fst snd].
  set (val := match dict_get key (read_env_file file) with
              | Some (c :: s) => c :: s
              | _ => runtime key
              end).
  split; [reflexivity |].
  destruct (secret && match val with [] => false | _ => true end &&
            (4 <? length val)%nat) eqn:Em.
  - apply andb_true_iff in Em as [Em Hlen]. apply andb_true_iff in Em as [-> _].
    apply Nat.ltb_lt in Hlen.
    assert (H2 : length (take 2 val) = 2) by (rewrite length_take; lia).
    unfold mask. split; [| split; [| split; [| split]]].
    + rewrite !length_app, length_replicate, H2, length_drop. lia.
    + rewrite take_app_le by lia. by rewrite take_take.
    + rewrite (assoc_L (++)). rewrite drop_app_length'; [done |].
      rewrite length_app, length_replicate, H2. lia.
    + intros [? | ?]; [done | lia].
    + intros _ _ i Hi. rewrite lookup_app_r by lia. rewrite H2.
      rewrite lookup_app_l by (rewrite length_replicate; lia).
      apply lookup_replicate_2. lia.
  - split; [reflexivity |]. split; [reflexivity |]. split; [reflexivity |].
    split; [done |]. intros -> Hlen. cbn [andb] in Em.
    apply andb_false_iff in Em as [Em | Em].
    + destruct val; [cbn in Hlen; lia | done].
    + apply Nat.ltb_ge in Em. lia.
Qed.

Lemma config_answer_shows_secrets_witness :
  let answer := api_config_get
                  (Some (py "OBS_PASSWORD=hunter22" ++ [0x0A%N] ++ py "OBS_PORT=4455" ++ [0x0A%N]))
                  (fun _ => []) in
  answer !! 7%nat =
    Some {| s_key := py "OBS_PASSWORD"; s_secret := true; s_value := py "hunter22";
            s_display := py "hu" ++ replicate 4 bullet ++ py "22" |} /\
  forall f, f ∈ answer -> length (s_display f) = length (s_value f).
Proof.
  intros answer. split; [vm_compute; reflexivity |].
  intros f Hf. subst answer.
  by destruct (proj2 (config_answer_shows_secrets _ _) f Hf) as (_ & H & _).
Defined.

End ConfigView.
